(** * Attorney-Fetcher: the case-number parser, the defendant classifier,
      the service resolver and the attorney-record projector of [app.py].

    Python text is modelled as a list of characters whose code points
    are below 256; the regular expressions of the source are values of a
    small syntax tree run by a backtracking matcher with the priorities
    of Python's [re]; the browser is a state the code threads through
    every call, and every call on it may raise. *)

From Stdlib Require Import List Ascii String ZArith QArith Lia Bool Arith.
From stdpp Require Import base gmap strings list.
Import ListNotations.
Open Scope list_scope.

(** Python [str], restricted to code points below 256.  On such text
    the primitives of [Str] and the matcher [Re] follow Python; beyond
    it [str.lower] and [re.IGNORECASE] have cases of their own (a
    capital whose small form is two code points, for one), so every
    statement below speaks of text within this range, and none is
    made about how two texts compare after [lower] in general. *)
Abbreviation str := (list ascii).

Definition py (s : string) : str := list_ascii_of_string s.
Coercion py : string >-> list.

(* ================================================================= *)
(** ** Text primitives of Python used by the source *)

Module Str.

Definition code (c : ascii) : nat := nat_of_ascii c.

Definition between (lo hi : nat) (c : ascii) : bool :=
  (lo <=? code c) && (code c <=? hi).

(** [str.isspace] on one character: the ASCII white space, the four
    separators 0x1C-0x1F, NEL (0x85) and the no-break space (0xA0). *)
Definition isspace (c : ascii) : bool :=
  between 9 13 c || between 28 32 c || (code c =? 133) || (code c =? 160).

(** Decimal digits: below 256 only 0-9. *)
Definition isdecimal (c : ascii) : bool := between 48 57 c.

Definition isupper_ascii (c : ascii) : bool := between 65 90 c.
Definition islower_ascii (c : ascii) : bool := between 97 122 c.

(** Upper-case letters of Latin-1 that [str.lower] changes. *)
Definition has_lower (c : ascii) : bool :=
  isupper_ascii c || between 192 214 c || between 216 222 c.

Definition lower_char (c : ascii) : ascii :=
  if has_lower c then ascii_of_nat (code c + 32) else c.

(** [str.lower]. *)
Definition lower (s : str) : str := map lower_char s.

(** [str.isalnum] on one character, below 256. *)
Definition isalnum (c : ascii) : bool :=
  isdecimal c || isupper_ascii c || islower_ascii c
  || (code c =? 170) || (code c =? 178) || (code c =? 179)
  || (code c =? 181) || between 185 186 c || between 188 190 c
  || between 192 214 c || between 216 246 c || between 248 255 c.

(** The word characters of [re]: alphanumerics and the underscore. *)
Definition isword (c : ascii) : bool := isalnum c || (code c =? 95).

Definition eqc (a b : ascii) : bool := Ascii.eqb a b.

(** [s.startswith(p)]. *)
Fixpoint startswith (p s : str) : bool :=
  match p, s with
  | [], _ => true
  | _ :: _, [] => false
  | a :: p', b :: s' => eqc a b && startswith p' s'
  end.

(** [sub in s]. *)
Fixpoint contains (sub s : str) : bool :=
  startswith sub s ||
  match s with
  | [] => false
  | _ :: s' => contains sub s'
  end.

(** [s.count(c)] for a one-character [c]. *)
Definition count (c : ascii) (s : str) : nat :=
  length (List.filter (fun x => eqc x c) s).

Fixpoint lstrip_by (p : ascii -> bool) (s : str) : str :=
  match s with
  | [] => []
  | c :: s' => if p c then lstrip_by p s' else s
  end.

Definition rstrip_by (p : ascii -> bool) (s : str) : str :=
  rev (lstrip_by p (rev s)).

(** [s.strip()]. *)
Definition strip (s : str) : str := rstrip_by isspace (lstrip_by isspace s).

(** [s.rstrip(':')] and the like. *)
Definition rstrip_char (c : ascii) (s : str) : str :=
  rstrip_by (fun x => eqc x c) s.

(** [s.split(c)] for a one-character separator: never an empty list. *)
Fixpoint split_on (c : ascii) (s : str) : list str :=
  match s with
  | [] => [[]]
  | x :: s' =>
      if eqc x c then [] :: split_on c s'
      else match split_on c s' with
           | [] => [[x]]
           | w :: ws => (x :: w) :: ws
           end
  end.

(** [s.split()]: the maximal runs of characters that are not white
    space; [cur] is the run being read, reversed. *)
Fixpoint split_ws_aux (cur : str) (s : str) : list str :=
  match s with
  | [] => match cur with [] => [] | _ => [rev cur] end
  | x :: s' =>
      if isspace x
      then match cur with
           | [] => split_ws_aux [] s'
           | _ => rev cur :: split_ws_aux [] s'
           end
      else split_ws_aux (x :: cur) s'
  end.

Definition split_ws (s : str) : list str := split_ws_aux [] s.

(** [sep.join(parts)]. *)
Fixpoint join (sep : str) (parts : list str) : str :=
  match parts with
  | [] => []
  | [p] => p
  | p :: ps => p ++ sep ++ join sep ps
  end.

(** [s.replace(old, new)] for a one-character [old]. *)
Definition replace_char (old : ascii) (new : str) (s : str) : str :=
  flat_map (fun x => if eqc x old then new else [x]) s.

(** [s.replace(old, new)] for a non-empty [old]: the occurrences are
    taken from the left and do not overlap; [skip] counts the
    characters of an occurrence still to be dropped. *)
Fixpoint replace_aux (old new : str) (skip : nat) (s : str) : str :=
  match s with
  | [] => []
  | x :: s' =>
      match skip with
      | S k => replace_aux old new k s'
      | O =>
          if startswith old s
          then new ++ replace_aux old new (length old - 1) s'
          else x :: replace_aux old new 0 s'
      end
  end.

Definition replace (old new s : str) : str := replace_aux old new 0 s.

(** [s.zfill(width)] for a string without a sign. *)
Definition zfill (width : nat) (s : str) : str :=
  repeat "0"%char (width - length s) ++ s.

Definition newline : ascii := ascii_of_nat 10.

End Str.

(* ================================================================= *)
(** ** Regular expressions: the fragment of Python's [re] the source uses *)

Module Re.

Inductive regex : Type :=
| Eps                              (* the empty pattern *)
| Chr (p : ascii -> bool)          (* one character: literal, class, \d, \s *)
| Bol                              (* ^ *)
| Eol                              (* $ *)
| WordB                            (* \b *)
| Cat (r1 r2 : regex)
| Alt (r1 r2 : regex)              (* r1|r2, r1 tried first *)
| Star (r : regex)                 (* r*, greedy *)
| Group (i : nat) (r : regex).     (* the i-th capturing group *)

(** r? (greedy), r+ and r{n}. *)
Definition Opt (r : regex) : regex := Alt r Eps.
Definition Plus (r : regex) : regex := Cat r (Star r).
Fixpoint Rep (n : nat) (r : regex) : regex :=
  match n with
  | O => Eps
  | S n' => Cat r (Rep n' r)
  end.

(** A literal character, and one under [re.IGNORECASE]. *)
Definition lit (c : ascii) : regex := Chr (Str.eqc c).
Definition lit_i (c : ascii) : regex :=
  Chr (fun x => Str.eqc (Str.lower_char x) (Str.lower_char c)).

Fixpoint seq (rs : list regex) : regex :=
  match rs with
  | [] => Eps
  | [r] => r
  | r :: rs' => Cat r (seq rs')
  end.

(** The alternation of a non-empty list, as ['|'.join] builds it. *)
Fixpoint alt (rs : list regex) : regex :=
  match rs with
  | [] => Chr (fun _ => false)
  | [r] => r
  | r :: rs' => Alt r (alt rs')
  end.

Definition text (s : str) : regex := seq (map lit s).
Definition text_i (s : str) : regex := seq (map lit_i s).

Definition digit : regex := Chr Str.isdecimal.      (* \d *)
Definition space : regex := Chr Str.isspace.        (* \s *)

(** A position in the subject: its index, the character before it
    and the text from it on. *)
Record cursor : Type := Cursor {
  pos : nat;
  prev : option ascii;
  rest : str
}.

Definition start (s : str) : cursor := Cursor 0 None s.

(** The captures, the latest first. *)
Definition caps : Type := list (nat * str).

Definition isword_opt (o : option ascii) : bool :=
  match o with
  | Some c => Str.isword c
  | None => false
  end.

Definition at_boundary (pv : option ascii) (s : str) : bool :=
  xorb (isword_opt pv) (isword_opt (head s)).

(** [$] without MULTILINE: the end, or just before a final newline. *)
Definition at_eol (s : str) : bool :=
  match s with
  | [] => true
  | [x] => Str.eqc x Str.newline
  | _ => false
  end.

(** The greedy loop of a star: [body] matches one iteration, [k] is
    what follows the star; an iteration that consumes nothing is not
    taken, so [n], the length of the text left, bounds the loop. *)
Fixpoint star_loop {A : Type}
    (body : cursor -> caps -> (cursor -> caps -> option A) -> option A)
    (k : cursor -> caps -> option A) (n : nat) (c : cursor) (g : caps)
    {struct n} : option A :=
  match
    match n with
    | O => None
    | S n' =>
        body c g
          (fun c' g' =>
             if pos c <? pos c' then star_loop body k n' c' g' else None)
    end
  with
  | Some x => Some x
  | None => k c g
  end.

(** The backtracking matcher: [k] is what remains to be matched after
    [r]; the first success in priority order is the result. *)
Fixpoint run {A : Type} (r : regex) (c : cursor) (g : caps)
    (k : cursor -> caps -> option A) {struct r} : option A :=
  match r with
  | Eps => k c g
  | Chr p =>
      match rest c with
      | x :: tl => if p x then k (Cursor (S (pos c)) (Some x) tl) g else None
      | [] => None
      end
  | Bol => if pos c =? 0 then k c g else None
  | Eol => if at_eol (rest c) then k c g else None
  | WordB => if at_boundary (prev c) (rest c) then k c g else None
  | Cat r1 r2 => run r1 c g (fun c' g' => run r2 c' g' k)
  | Alt r1 r2 =>
      match run r1 c g k with
      | Some x => Some x
      | None => run r2 c g k
      end
  | Star r1 => star_loop (run r1) k (length (rest c)) c g
  | Group i r1 =>
      run r1 c g
        (fun c' g' => k c' ((i, firstn (pos c' - pos c) (rest c)) :: g'))
  end.

(** A match object: [span()], [group(0)] and the groups. *)
Record Match : Type := MkMatch {
  m_start : nat;
  m_end : nat;
  m_text : str;
  m_caps : caps
}.

Definition match_at (r : regex) (c : cursor) : option Match :=
  run r c []
    (fun c' g =>
       Some (MkMatch (pos c) (pos c') (firstn (pos c' - pos c) (rest c)) g)).

(** [m.group(i)] for a group that took part in the match. *)
Fixpoint lookup_cap (i : nat) (g : caps) : option str :=
  match g with
  | [] => None
  | (j, t) :: g' => if i =? j then Some t else lookup_cap i g'
  end.

Definition group (m : Match) (i : nat) : str :=
  match i with
  | O => m_text m
  | _ => default [] (lookup_cap i (m_caps m))
  end.

(** [re.match(r, s)]. *)
Definition re_match (r : regex) (s : str) : option Match :=
  match_at r (start s).

(** [re.search(r, s)]: the leftmost position with a match. *)
Fixpoint search_from (r : regex) (p : nat) (pv : option ascii) (s : str)
    {struct s} : option Match :=
  match match_at r (Cursor p pv s) with
  | Some m => Some m
  | None =>
      match s with
      | [] => None
      | x :: tl => search_from r (S p) (Some x) tl
      end
  end.

Definition search (r : regex) (s : str) : option Match :=
  search_from r 0 None s.

(** [re.sub(r, repl, s)] for a literal [repl]: [skip] counts the
    characters of the current match still to be dropped. *)
Fixpoint sub_from (r : regex) (repl : str) (skip p : nat)
    (pv : option ascii) (s : str) {struct s} : str :=
  match skip with
  | S k =>
      match s with
      | [] => []
      | x :: tl => sub_from r repl k (S p) (Some x) tl
      end
  | O =>
      match match_at r (Cursor p pv s) with
      | Some m =>
          repl ++
          match s with
          | [] => []
          | x :: tl =>
              match m_end m - m_start m with
              | O => x :: sub_from r repl 0 (S p) (Some x) tl
              | S k => sub_from r repl k (S p) (Some x) tl
              end
          end
      | None =>
          match s with
          | [] => []
          | x :: tl => x :: sub_from r repl 0 (S p) (Some x) tl
          end
      end
  end.

Definition sub (r : regex) (repl s : str) : str :=
  sub_from r repl 0 0 None s.

Definition last_char (pv : option ascii) (u : str) : option ascii :=
  match rev u with
  | [] => pv
  | x :: _ => Some x
  end.

(** The cursor after the text [u], with [after] left. *)
Definition advance (c : cursor) (u after : str) : cursor :=
  Cursor (pos c + length u) (last_char (prev c) u) after.

(** What a pattern denotes: [matches r first pv u after] says that
    [r] matches the text [u] standing after the character [pv] and
    before [after]; [first] tells whether [u] starts the subject. *)
Inductive matches : regex -> bool -> option ascii -> str -> str -> Prop :=
| M_eps first pv after :
    matches Eps first pv [] after
| M_chr p first pv x after :
    p x = true -> matches (Chr p) first pv [x] after
| M_bol pv after :
    matches Bol true pv [] after
| M_eol first pv after :
    at_eol after = true -> matches Eol first pv [] after
| M_wordb first pv after :
    at_boundary pv after = true -> matches WordB first pv [] after
| M_cat r1 r2 first pv u1 u2 after :
    matches r1 first pv u1 (u2 ++ after) ->
    matches r2 (first && bool_decide (u1 = [])) (last_char pv u1) u2 after ->
    matches (Cat r1 r2) first pv (u1 ++ u2) after
| M_alt_l r1 r2 first pv u after :
    matches r1 first pv u after -> matches (Alt r1 r2) first pv u after
| M_alt_r r1 r2 first pv u after :
    matches r2 first pv u after -> matches (Alt r1 r2) first pv u after
| M_star_nil r first pv after :
    matches (Star r) first pv [] after
| M_star_cons r first pv u1 u2 after :
    u1 <> [] ->
    matches r first pv u1 (u2 ++ after) ->
    matches (Star r) false (last_char pv u1) u2 after ->
    matches (Star r) first pv (u1 ++ u2) after
| M_group i r first pv u after :
    matches r first pv u after -> matches (Group i r) first pv u after.

(** [r] matches somewhere in [s]. *)
Definition occurs (r : regex) (s : str) : Prop :=
  exists pre u post,
    s = pre ++ u ++ post /\
    matches r (bool_decide (pre = [])) (last_char None pre) u post.

End Re.

(* ================================================================= *)
(** ** Utility functions *)

(** The dictionary [parse_case_number] returns. *)
Record CaseNumber : Type := MkCaseNumber {
  year : str;
  case_type : str;
  sequence : str;
  original : str
}.

(** [r'\s*\([^)]*\)'] *)
Definition bracket_pattern : Re.regex :=
  Re.seq [ Re.Star Re.space;
           Re.lit "(";
           Re.Star (Re.Chr (fun x => negb (Str.eqc x ")")));
           Re.lit ")" ].

(** [r'^(\d{2})([A-Z]{2})(\d+)$'] *)
Definition case_pattern : Re.regex :=
  Re.seq [ Re.Bol;
           Re.Group 1 (Re.Rep 2 Re.digit);
           Re.Group 2 (Re.Rep 2 (Re.Chr Str.isupper_ascii));
           Re.Group 3 (Re.Plus Re.digit);
           Re.Eol ].

(** [re.sub(r'\s*\([^)]*\)', '', str(case_num_str).strip())] *)
Definition clean_case (case_num_str : str) : str :=
  Re.sub bracket_pattern [] (Str.strip case_num_str).

(** [parse_case_number] on a string ([pd.isna] is false on every string). *)
Definition parse_case_number (case_num_str : str) : option CaseNumber :=
  match case_num_str with
  | [] => None
  | _ =>
      match Re.re_match case_pattern (clean_case case_num_str) with
      | Some m =>
          Some {| year := Re.group m 1;
                  case_type := Re.group m 2;
                  sequence := Str.zfill 7 (Re.group m 3);
                  original := case_num_str |}
      | None => None
      end
  end.

(* ================================================================= *)
(** ** Defendant classification *)

(** [\b(w1|w2|...)\b] under IGNORECASE. *)
Definition words (ws : list string) : Re.regex :=
  Re.seq [ Re.WordB; Re.alt (map (fun w : string => Re.text_i w) ws); Re.WordB ].

(** [\bx\.?y\.?z\.?\b] under IGNORECASE: the letters, each with an
    optional full stop. *)
Definition dotted (letters : string) : Re.regex :=
  Re.seq ([ Re.WordB ]
          ++ flat_map (fun c => [ Re.lit_i c; Re.Opt (Re.lit ".") ])
               (py letters)
          ++ [ Re.WordB ]).

Definition company_patterns : list Re.regex :=
  [ (* Legal entities *)
    words ["llc"; "inc"; "corp"; "ltd"; "llp"; "lp"; "plc"];
    dotted "llc";
    dotted "llp";
    words ["limited"; "incorporated"; "corporation"];
    dotted "pc";
    dotted "dba";
    (* Financial/Banking *)
    words ["bank"; "trust company"; "banking"; "financial"; "credit union"];
    Re.seq [ Re.WordB;
             Re.alt [ Re.Cat (Re.text_i "investment") (Re.Opt (Re.lit_i "s"));
                      Re.text_i "fund"; Re.text_i "capital";
                      Re.text_i "securities"; Re.text_i "wealth" ];
             Re.WordB ];
    words ["mortgage"; "loan"; "finance"; "lending"; "leasing"];
    (* Business types *)
    words ["company"; "companies"; "group"; "associates"];
    words ["partners"; "properties"; "solutions"; "systems"];
    words ["enterprises"; "ventures"; "industries"];
    words ["holdings"; "global"; "international"];
    words ["realty"; "construction"; "development"];
    words ["management"; "consulting"; "services"];
    words ["agency"; "firm"; "bureau"; "institute"];
    (* Organizations *)
    words ["foundation"; "association"; "society"; "alliance"];
    words ["network"; "organization"; "federation"; "coalition"];
    words ["committee"; "commission"; "authority"; "council"];
    words ["department"; "division"; "branch"; "unit"];
    (* Educational/Medical *)
    words ["school"; "university"; "college"; "academy"];
    words ["hospital"; "clinic"; "medical"; "healthcare"];
    words ["center"; "centre"; "laboratory"];
    (* Religious/Nonprofit *)
    words ["church"; "ministry"; "temple"; "mosque"];
    words ["charity"; "nonprofit"; "ngo"];
    (* Government entities *)
    words ["county"; "city"; "state"; "federal"; "bureau"; "department"];
    words ["united states"; "usa"; "u.s.a."; "u.s."; "us"];
    (* Additional specific patterns *)
    Re.text_i "unknown spouse";
    Re.text_i "unknown tenant";
    Re.text_i "unknown occupant";
    Re.text_i "john doe";
    Re.text_i "jane doe";
    Re.text_i "et al" ].

(** [company_indicators], in the order of the source. *)
Definition company_indicators (name : str) : list bool :=
  [ 0 <? Str.count "&" name;
    1 <? Str.count "," name;
    bool_decide (is_Some (Re.search Re.digit name));
    4 <? length (Str.split_ws name) ].

(** [any(iterable)]. *)
Definition any (bs : list bool) : bool := existsb id bs.

Definition is_company (name : str) : bool :=
  let pattern := Re.alt company_patterns in
  if bool_decide (is_Some (Re.search pattern name)) then true
  else any (company_indicators name).

Definition no_defendants_found : str := "No defendants found"%string.

Definition find_main_defendant (defendants : list str) : str :=
  match defendants with
  | [] => no_defendants_found
  | first :: _ =>
      let individual_defendants :=
        List.filter (fun name => negb (is_company name)) defendants in
      match individual_defendants with
      | ind :: _ => ind
      | [] => first
      end
  end.

(* ================================================================= *)
(** ** The browser session *)

(** Selenium's locator strategies used by the source. *)
Inductive By : Type := XPATH | TAG_NAME | ID | NAME.

(** What [send_keys] is given: text, or the key [Keys.ENTER]. *)
Inductive Keys : Type :=
| Typed (s : str)
| ENTER.

(** A call returns a value or raises; [Raised e] carries [str(e)]. *)
Inductive outcome (A : Type) : Type :=
| Ok (a : A)
| Raised (e : str).
Arguments Ok {A} a.
Arguments Raised {A} e.

(** Code running against a state [S]: the browser session, possibly
    paired with the local variables an exception handler can see. *)
Definition M (S A : Type) : Type := S -> outcome A * S.

Definition ret {S A : Type} (a : A) : M S A := fun s => (Ok a, s).

Definition bind {S A B : Type} (m : M S A) (f : A -> M S B) : M S B :=
  fun s =>
    match m s with
    | (Ok a, s') => f a s'
    | (Raised e, s') => (Raised e, s')
    end.

Definition raise {S A : Type} (e : str) : M S A := fun s => (Raised e, s).

(** [try: m except Exception as e: h e] (and the bare [except:]). *)
Definition try_except {S A : Type} (m : M S A) (h : str -> M S A) : M S A :=
  fun s =>
    match m s with
    | (Ok a, s') => (Ok a, s')
    | (Raised e, s') => h e s'
    end.

Declare Scope py_scope.
Delimit Scope py_scope with py.
Notation "x <- m ;; k" := (bind m (fun x => k))
  (at level 100, m at next level, right associativity) : py_scope.
Notation "m ;;; k" := (bind m (fun _ => k))
  (at level 100, right associativity) : py_scope.
Open Scope py_scope.

(** A local variable [L] beside the session. *)
Definition lift {S L A : Type} (m : M S A) : M (S * L) A :=
  fun sl =>
    match m (fst sl) with
    | (o, s') => (o, (s', snd sl))
    end.

Definition get_local {S L : Type} : M (S * L) L :=
  fun sl => (Ok (snd sl), sl).

Definition modify_local {S L : Type} (f : L -> L) : M (S * L) unit :=
  fun sl => (Ok tt, (fst sl, f (snd sl))).

(** Runs [m] with the local variable initialised to [init]. *)
Definition with_local {S L A : Type} (init : L) (m : M (S * L) A) : M S A :=
  fun s =>
    match m (s, init) with
    | (o, (s', _)) => (o, s')
    end.

(** What the source asks of Selenium and of the clock.  [D] is the
    state of the session (page, clock), [W] the element handles. *)
Record WebDriver (D W : Type) : Type := MkWebDriver {
  time_time : D -> Q * D;
  time_sleep : Q -> D -> D;
  implicitly_wait : Z -> M D unit;
  find_elements : By -> str -> M D (list W);
  wait_presence : Z -> By -> str -> M D W;
  wait_clickable : Z -> By -> str -> M D W;
  el_find_element : W -> By -> str -> M D W;
  el_find_elements : W -> By -> str -> M D (list W);
  el_click : W -> M D unit;
  el_clear : W -> M D unit;
  el_send_keys : W -> Keys -> M D unit;
  el_select_by_value : W -> str -> M D unit;
  el_get_attribute : W -> str -> M D (option str);
  el_text : W -> M D str;
  (** [str(TimeoutException(msg))] *)
  timeout_exception : str -> str
}.
Arguments time_time {D W} _ _.
Arguments time_sleep {D W} _ _ _.
Arguments implicitly_wait {D W} _ _ _.
Arguments find_elements {D W} _ _ _ _.
Arguments wait_presence {D W} _ _ _ _ _.
Arguments wait_clickable {D W} _ _ _ _ _.
Arguments el_find_element {D W} _ _ _ _ _.
Arguments el_find_elements {D W} _ _ _ _ _.
Arguments el_click {D W} _ _ _.
Arguments el_clear {D W} _ _ _.
Arguments el_send_keys {D W} _ _ _ _.
Arguments el_select_by_value {D W} _ _ _ _.
Arguments el_get_attribute {D W} _ _ _ _.
Arguments el_text {D W} _ _ _.
Arguments timeout_exception {D W} _ _.

(** One docket entry's detail: label to value. *)
Abbreviation ServiceRecord := (gmap str str).

(** [d.get(key, '')]. *)
Definition get (d : ServiceRecord) (key : str) : str := default [] (d !! key).

(** Truth value of a dictionary, and of a dictionary or [None]. *)
Definition truthy (d : ServiceRecord) : bool := bool_decide (d ≠ ∅).

(** The dictionary [extract_attorney_data] fills in. *)
Record AttorneyData : Type := MkAttorneyData {
  attorney_name : str;
  attorney_firm : str;
  attorney_address : str;
  attorney_phone : str;
  service_type : str;
  service_date : str;
  certified_mail_no : str;
  defendant_name : str;
  defendant_address : str;
  service_status : str;
  main_defendant : str;
  all_defendants : str;
  defendant_count : nat;
  service_match : str;
  extraction_status : str
}.

(* ================================================================= *)
(** ** Enhanced defendant and attorney extraction *)

Definition initial_attorney_data : AttorneyData :=
  {| attorney_name := []; attorney_firm := []; attorney_address := [];
     attorney_phone := []; service_type := []; service_date := [];
     certified_mail_no := []; defendant_name := []; defendant_address := [];
     service_status := []; main_defendant := []; all_defendants := [];
     defendant_count := 0; service_match := [];
     extraction_status := "Not Found"%string |}.

Definition set_extraction_status (v : str) (a : AttorneyData) : AttorneyData :=
  {| attorney_name := attorney_name a; attorney_firm := attorney_firm a;
     attorney_address := attorney_address a;
     attorney_phone := attorney_phone a; service_type := service_type a;
     service_date := service_date a;
     certified_mail_no := certified_mail_no a;
     defendant_name := defendant_name a;
     defendant_address := defendant_address a;
     service_status := service_status a;
     main_defendant := main_defendant a; all_defendants := all_defendants a;
     defendant_count := defendant_count a; service_match := service_match a;
     extraction_status := v |}.

(** The three assignments after step 2. *)
Definition set_defendants (defendants : list str) (main : str)
    (a : AttorneyData) : AttorneyData :=
  {| attorney_name := attorney_name a; attorney_firm := attorney_firm a;
     attorney_address := attorney_address a;
     attorney_phone := attorney_phone a; service_type := service_type a;
     service_date := service_date a;
     certified_mail_no := certified_mail_no a;
     defendant_name := defendant_name a;
     defendant_address := defendant_address a;
     service_status := service_status a;
     main_defendant := main;
     all_defendants := Str.join "; "%string defendants;
     defendant_count := length defendants;
     service_match := service_match a;
     extraction_status := extraction_status a |}.

(** [attorney_data] when the service search starts. *)
Definition fresh (defendants : list str) (main : str) : AttorneyData :=
  set_defendants defendants main initial_attorney_data.

(** [r'\(?\d{3}\)?[-.\s]?\d{3}[-.\s]?\d{4}'] *)
Definition phone_separator : Re.regex :=
  Re.Chr (fun x => Str.eqc x "-" || Str.eqc x "." || Str.isspace x).

Definition phone_pattern : Re.regex :=
  Re.seq [ Re.Opt (Re.lit "("); Re.Rep 3 Re.digit; Re.Opt (Re.lit ")");
           Re.Opt phone_separator; Re.Rep 3 Re.digit;
           Re.Opt phone_separator; Re.Rep 4 Re.digit ].

(** The test of lines 338 and 445: either lowered name contains the
    other. *)
Definition names_match (main_defendant_name served : str) : bool :=
  Str.contains (Str.lower main_defendant_name) (Str.lower served)
  || Str.contains (Str.lower served) (Str.lower main_defendant_name).

(** [attorney_address.replace('\n', '|').split('|')] *)
Definition address_lines (attorney_address : str) : list str :=
  Str.split_on "|" (Str.replace_char Str.newline "|"%string attorney_address).

(** The branch [if service_details:] of [extract_attorney_data]. *)
Definition project_service (main : str) (service_details : ServiceRecord)
    (a : AttorneyData) : AttorneyData :=
  let served_defendant := get service_details "service_name"%string in
  let addr := get service_details "service_attorney_address"%string in
  let has_addr := negb (bool_decide (addr = [])) in
  let lines := address_lines addr in
  {| attorney_name := get service_details "service_attorney_name"%string;
     attorney_firm :=
       match has_addr, lines with
       | true, first :: _ => Str.strip first
       | _, _ => attorney_firm a
       end;
     attorney_address :=
       match has_addr, lines with
       | true, _ :: ((_ :: _) as others) => Str.strip (Str.join " "%string others)
       | _, _ => attorney_address a
       end;
     attorney_phone :=
       match has_addr, Re.search phone_pattern addr with
       | true, Some phone_match => Re.group phone_match 0
       | _, _ => attorney_phone a
       end;
     service_type := get service_details "service_delivery_method"%string;
     service_date := service_date a;
     certified_mail_no := certified_mail_no a;
     defendant_name := get service_details "service_name"%string;
     defendant_address := defendant_address a;
     service_status := service_status a;
     main_defendant := main_defendant a;
     all_defendants := all_defendants a;
     defendant_count := defendant_count a;
     service_match :=
       if names_match main served_defendant
       then "Main Defendant"%string else "Other Human Defendant"%string;
     extraction_status := "Found"%string |}.

(** The variable [attorney_data] of the loop over the cases: the whole
    dictionary of [extract_attorney_data], or one holding the status
    only. *)
Inductive CaseData : Type :=
| Full (a : AttorneyData)
| StatusOnly (extraction_status : str).

(** [attorney_data.get('service_match', '')] and
    [attorney_data.get('extraction_status', '')], as written to the
    results table. *)
Definition column_service_match (c : CaseData) : str :=
  match c with
  | Full a => service_match a
  | StatusOnly _ => []
  end.

Definition column_extraction_status (c : CaseData) : str :=
  match c with
  | Full a => extraction_status a
  | StatusOnly v => v
  end.

Definition column_attorney_name (c : CaseData) : str :=
  match c with
  | Full a => attorney_name a
  | StatusOnly _ => []
  end.

Definition TIMEOUT_SECONDS : Q := 30.
Definition MAX_CASE_TIME : Q := 45.

(** [a > b] on clock readings. *)
Definition Qgtb (a b : Q) : bool := negb (Qle_bool a b).

Definition service_types : list str :=
  [ py "CERTIFIED MAIL"; py "PROCESS SERVER" ].

(** The f-string of line 425. *)
Definition service_xpath (service_type : str) : str :=
  py "//td[contains(text(), 'PROOF OF SERVICE ISSUED - " ++ service_type
  ++ py "')]/parent::tr".

Definition docket_xpath : str :=
  "//a[contains(text(), 'Docket') or contains(text(), 'Documents')]"%string.

Section Scraper.

Context {D W : Type} (driver : WebDriver D W).

Definition sleep (seconds : Q) : M D unit :=
  fun d => (Ok tt, time_sleep driver seconds d).

Definition now : M D Q :=
  fun d => match time_time driver d with (t, d') => (Ok t, d') end.

(** The loop over the rows of a detail table (lines 498-504). *)
Fixpoint read_detail_rows (rows : list W) (service_details : ServiceRecord)
    : M D ServiceRecord :=
  match rows with
  | [] => ret service_details
  | r :: rows' =>
      cells <- el_find_elements driver r TAG_NAME "td"%string ;;
      match cells with
      | c0 :: c1 :: _ =>
          t0 <- el_text driver c0 ;;
          let label :=
            Str.replace_char " " "_"%string
              (Str.lower (Str.rstrip_char ":" (Str.strip t0))) in
          t1 <- el_text driver c1 ;;
          let value := Str.strip t1 in
          match label with
          | [] => read_detail_rows rows' service_details
          | _ =>
              read_detail_rows rows'
                (<[ py "service_" ++ label := value ]> service_details)
          end
      | _ => read_detail_rows rows' service_details
      end
  end.

(** [doc_id.replace("docimg", "")]: an attribute that is absent is
    [None], which has no [replace]. *)
Definition doc_num_of (doc_id : option str) : M D str :=
  match doc_id with
  | Some i => ret (Str.replace "docimg"%string [] i)
  | None => raise "'NoneType' object has no attribute 'replace'"%string
  end.

(** The body of the [try] of [extract_service_details_fast]: the
    detail is expanded, read and collapsed. *)
Definition expand_read_collapse (row : W) (service_type : str)
    : M D (option ServiceRecord) :=
  expand_img <-
    el_find_element driver row XPATH
      ".//img[contains(@id, 'docimg')]"%string ;;
  doc_id <- el_get_attribute driver expand_img "id"%string ;;
  doc_num <- doc_num_of doc_id ;;
  el_click driver expand_img ;;;
  sleep (3 # 10) ;;;
  let doc_table_id := py "doctable" ++ doc_num in
  doc_table <- wait_presence driver 3 ID doc_table_id ;;
  rows <- el_find_elements driver doc_table TAG_NAME "tr"%string ;;
  service_details <-
    read_detail_rows rows
      {[ py "service_delivery_method" := service_type ]} ;;
  el_click driver expand_img ;;;
  sleep (2 # 10) ;;;
  ret (Some service_details).

Definition extract_service_details_fast (row : W) (service_type : str)
    : M D (option ServiceRecord) :=
  try_except (expand_read_collapse row service_type) (fun _ => ret None).

(** [if not service_details: continue] *)
Definition usable (o : option ServiceRecord) : option ServiceRecord :=
  match o with
  | Some d => if truthy d then Some d else None
  | None => None
  end.

(** Step 1 (lines 437-451); [Some d] is [return d]. *)
Fixpoint main_defendant_scan (rows : list W) (service_type : str)
    (main_defendant_name : str) : M D (option ServiceRecord) :=
  match rows with
  | [] => ret None
  | row :: rows' =>
      found <-
        try_except
          (service_details <- extract_service_details_fast row service_type ;;
           match usable service_details with
           | None => ret None
           | Some d =>
               if names_match main_defendant_name
                    (get d "service_name"%string)
               then ret (Some d)
               else ret None
           end)
          (fun _ => ret None) ;;
      match found with
      | Some d => ret (Some d)
      | None => main_defendant_scan rows' service_type main_defendant_name
      end
  end.

(** Step 2 (lines 456-470). *)
Fixpoint human_defendant_scan (rows : list W) (service_type : str)
    : M D (option ServiceRecord) :=
  match rows with
  | [] => ret None
  | row :: rows' =>
      found <-
        try_except
          (service_details <- extract_service_details_fast row service_type ;;
           match usable service_details with
           | None => ret None
           | Some d =>
               let defendant_name := get d "service_name"%string in
               match defendant_name with
               | [] => ret None
               | _ =>
                   if negb (is_company defendant_name)
                   then ret (Some d)
                   else ret None
               end
           end)
          (fun _ => ret None) ;;
      match found with
      | Some d => ret (Some d)
      | None => human_defendant_scan rows' service_type
      end
  end.

(** The loop over the service types (lines 424-470). *)
Fixpoint search_service_types (types : list str) (main_defendant_name : str)
    : M D (option ServiceRecord) :=
  match types with
  | [] => ret None
  | service_type :: types' =>
      service_rows <-
        find_elements driver XPATH (service_xpath service_type) ;;
      match service_rows with
      | [] => search_service_types types' main_defendant_name
      | _ =>
          step1 <-
            main_defendant_scan (firstn 5 service_rows) service_type
              main_defendant_name ;;
          match step1 with
          | Some d => ret (Some d)
          | None =>
              step2 <-
                human_defendant_scan (firstn 5 service_rows) service_type ;;
              match step2 with
              | Some d => ret (Some d)
              | None => search_service_types types' main_defendant_name
              end
          end
      end
  end.

Definition open_docket : M D unit :=
  try_except
    (docket_links <- find_elements driver XPATH docket_xpath ;;
     match docket_links with
     | link :: _ => el_click driver link ;;; sleep 1
     | [] => ret tt
     end)
    (fun _ => ret tt).

Definition find_proof_of_service_fast (main_defendant_name : str)
    : M D (option ServiceRecord) :=
  try_except
    (implicitly_wait driver 2 ;;;
     open_docket ;;;
     search_service_types service_types main_defendant_name)
    (fun _ => ret None).

(** The loop over the rows of the defendant table (lines 388-396);
    the local variable is the list [defendants]. *)
Fixpoint defendant_rows_loop (defendant_rows : list W)
    : M (D * list str) unit :=
  match defendant_rows with
  | [] => ret tt
  | def_row :: rows' =>
      try_except
        (def_cells <- lift (el_find_elements driver def_row TAG_NAME "td"%string) ;;
         match def_cells with
         | _ :: c1 :: _ =>
             t <- lift (el_text driver c1) ;;
             let defendant_name := Str.strip t in
             match defendant_name with
             | [] => ret tt
             | _ => modify_local (fun defendants => defendants ++ [defendant_name])
             end
         | _ => ret tt
         end)
        (fun _ => ret tt) ;;;
      defendant_rows_loop rows'
  end.

Definition extract_all_defendants_fast : M D (list str) :=
  with_local []
    (try_except
       (lift (implicitly_wait driver 2) ;;;
        defendant_body <- lift (wait_presence driver 5 ID "defendant-body"%string) ;;
        defendant_rows <-
          lift (el_find_elements driver defendant_body XPATH
                  ".//tr[not(contains(@id, 'defdetail'))]"%string) ;;
        defendant_rows_loop defendant_rows)
       (fun _ => ret tt) ;;;
     get_local).

Definition timed_out (start_time : Q) : M (D * AttorneyData) bool :=
  t <- lift now ;;
  ret (Qgtb (t - start_time) TIMEOUT_SECONDS).

Definition status (v : string) : M (D * AttorneyData) unit :=
  modify_local (set_extraction_status v).

(** The body of the [try] of [extract_attorney_data]; the local
    variable is [attorney_data]; the result says whether the body
    left through a [return]. *)
Definition extract_attorney_steps (start_time : Q)
    : M (D * AttorneyData) bool :=
  late <- timed_out start_time ;;
  if late then status "Timeout - Overall Process" ;;; ret true
  else
    defendants <- lift extract_all_defendants_fast ;;
    late <- timed_out start_time ;;
    if late then status "Timeout - After Defendants" ;;; ret true
    else
      match defendants with
      | [] => status "No Defendants Found" ;;; ret true
      | _ =>
          let main := find_main_defendant defendants in
          modify_local (set_defendants defendants main) ;;;
          if bool_decide (main = no_defendants_found)
          then status "No Defendants Found" ;;; ret true
          else
            late <- timed_out start_time ;;
            if late then status "Timeout - Before Service Search" ;;; ret true
            else
              service_details <- lift (find_proof_of_service_fast main) ;;
              match usable service_details with
              | Some d => modify_local (project_service main d) ;;; ret false
              | None => status "No Service Records Found" ;;; ret false
              end
      end.

Definition extract_attorney_data : M D AttorneyData :=
  start_time <- now ;;
  with_local initial_attorney_data
    (returned <-
       try_except (extract_attorney_steps start_time)
         (fun e =>
            modify_local (set_extraction_status (py "Error: " ++ e)) ;;;
            ret false) ;;
     (if returned then ret tt else (lift now ;;; ret tt)) ;;;
     get_local).

Definition fill_search_form (case_year case_type case_sequence : str)
    : M D bool :=
  try_except
    (implicitly_wait driver 3 ;;;
     case_year_input <- wait_clickable driver 5 NAME "caseYear"%string ;;
     el_clear driver case_year_input ;;;
     el_send_keys driver case_year_input (Typed case_year) ;;;
     case_type_select <- wait_clickable driver 5 NAME "caseType"%string ;;
     el_select_by_value driver case_type_select case_type ;;;
     case_seq_input <- wait_clickable driver 5 NAME "caseSeq"%string ;;
     el_clear driver case_seq_input ;;;
     el_send_keys driver case_seq_input (Typed case_sequence) ;;;
     el_send_keys driver case_seq_input ENTER ;;;
     sleep 2 ;;;
     ret true)
    (fun _ => ret false).

(** One turn of the loop over the valid cases, up to the update of
    the results table (lines 643-713). *)
Definition process_case (parsed_case : CaseNumber) : M D CaseData :=
  case_start_time <- now ;;
  try_except
    (t <- now ;;
     (if Qgtb (t - case_start_time) MAX_CASE_TIME
      then raise (timeout_exception driver "Case processing timeout"%string)
      else ret tt) ;;;
     filled <-
       fill_search_form (year parsed_case) (case_type parsed_case)
         (sequence parsed_case) ;;
     if filled
     then
       attorney_data <- extract_attorney_data ;;
       now ;;;
       ret (Full attorney_data)
     else ret (StatusOnly "Search Form Failed"%string))
    (fun e =>
       now ;;;
       ret (StatusOnly (py "Error: " ++ e))).

End Scraper.

(* ================================================================= *)
(** ** A page that does not change, to run the code on *)

Module Page.

Inductive element : Type :=
| DocketLink
| Input
| DefendantBody
| ServiceRow (service_type : str) (doc_num : option str)
    (detail : list (list str))
| ExpandImg (id : str)
| DocTable (detail : list (list str))
| TableRow (cells : list str)
| Cell (text : str).

(** The case page: the rows of the defendant table (if the table is
    there), the proof-of-service rows of the docket in page order,
    and whether the search form is shown. *)
Record page : Type := MkPage {
  defendant_table : option (list (list str));
  docket : list element;
  search_form : bool
}.

Definition is_service_row (xpath : str) (e : element) : bool :=
  match e with
  | ServiceRow t _ _ => bool_decide (service_xpath t = xpath)
  | _ => false
  end.

Definition has_table (table_id : str) (e : element) : bool :=
  match e with
  | ServiceRow _ (Some n) _ => bool_decide (py "doctable" ++ n = table_id)
  | _ => false
  end.

Definition by_xpath (xpath : str) : M page (list element) :=
  fun p =>
    if bool_decide (xpath = docket_xpath) then (Ok [DocketLink], p)
    else (Ok (List.filter (is_service_row xpath) (docket p)), p).

Definition present (by_ : By) (value : str) : M page element :=
  fun p =>
    match by_ with
    | ID =>
        if bool_decide (value = py "defendant-body")
        then match defendant_table p with
             | Some _ => (Ok DefendantBody, p)
             | None => (Raised (py "Message: "), p)
             end
        else match List.filter (has_table value) (docket p) with
             | ServiceRow _ _ detail :: _ => (Ok (DocTable detail), p)
             | _ => (Raised (py "Message: "), p)
             end
    | _ => (Raised (py "Message: "), p)
    end.

Definition clickable (by_ : By) (value : str) : M page element :=
  fun p =>
    if search_form p then (Ok Input, p) else (Raised (py "Message: "), p).

Definition child (w : element) : M page element :=
  fun p =>
    match w with
    | ServiceRow _ (Some n) _ => (Ok (ExpandImg (py "docimg" ++ n)), p)
    | _ => (Raised (py "Message: no such element"), p)
    end.

Definition children (w : element) : M page (list element) :=
  fun p =>
    match w with
    | DefendantBody =>
        (Ok (map TableRow (default [] (defendant_table p))), p)
    | DocTable detail => (Ok (map TableRow detail), p)
    | TableRow cells => (Ok (map Cell cells), p)
    | _ => (Ok [], p)
    end.

Definition attribute (w : element) : M page (option str) :=
  fun p =>
    match w with
    | ExpandImg id => (Ok (Some id), p)
    | _ => (Ok None, p)
    end.

Definition text_of (w : element) : M page str :=
  fun p =>
    match w with
    | Cell t => (Ok t, p)
    | _ => (Ok [], p)
    end.

Definition driver : WebDriver page element :=
  {| time_time := fun p => (0%Q, p);
     time_sleep := fun _ p => p;
     implicitly_wait := fun _ => ret tt;
     find_elements := fun _ value => by_xpath value;
     wait_presence := fun _ by_ value => present by_ value;
     wait_clickable := fun _ by_ value => clickable by_ value;
     el_find_element := fun w _ _ => child w;
     el_find_elements := fun w _ _ => children w;
     el_click := fun _ => ret tt;
     el_clear := fun _ => ret tt;
     el_send_keys := fun _ _ => ret tt;
     el_select_by_value := fun _ _ => ret tt;
     el_get_attribute := fun w _ => attribute w;
     el_text := fun w => text_of w;
     timeout_exception :=
       fun msg => py "Message: " ++ msg ++ [Str.newline] |}.

(** A proof-of-service row whose detail table names the served
    party and the attorney. *)
Definition served (service_type : string) (doc_num : string)
    (fields : list (string * string)) : element :=
  ServiceRow service_type (Some (py doc_num))
    (map (fun f => [py (fst f); py (snd f)]) fields).

(** A row without the image that expands it. *)
Definition broken (service_type : string) : element :=
  ServiceRow service_type None [].

Definition case_page (defendants : list string) (rows : list element)
    : page :=
  {| defendant_table := Some (map (fun n : string => [py "1"; py n]) defendants);
     docket := rows;
     search_form := true |}.

End Page.

(* ================================================================= *)
(** ** Vocabulary of the statements *)

(** Some lexical cue of the catalogue occurs in the name. *)
Definition has_cue (name : str) : Prop :=
  exists cue, In cue company_patterns /\ Re.occurs cue name.

(** One of the four structural heuristics holds. *)
Definition has_structure (name : str) : Prop :=
  0 < Str.count "&" name \/
  1 < Str.count "," name \/
  (exists c, In c name /\ Str.isdecimal c = true) \/
  4 < length (Str.split_ws name).

(** [w] stands in [name], in any case. *)
Definition contains_nocase (w name : str) : Prop :=
  exists pre u post, name = pre ++ u ++ post /\ Str.lower u = Str.lower w.

(** [w] stands in [name], in any case, with no word character next to
    it on either side. *)
Definition whole_word (w name : str) : Prop :=
  exists pre u post,
    name = pre ++ u ++ post /\ Str.lower u = Str.lower w /\
    Re.isword_opt (Re.last_char None pre) = false /\
    Re.isword_opt (head post) = false.

(** The text [l] is two digits [y], two capitals [t] and one digit or
    more [ds]: what [^\d{2}[A-Z]{2}\d+$] denotes. *)
Definition case_shape (l y t ds : str) : Prop :=
  l = y ++ t ++ ds /\
  length y = 2 /\ Forall (fun c => Str.isdecimal c = true) y /\
  length t = 2 /\ Forall (fun c => Str.isupper_ascii c = true) t /\
  ds <> [] /\ Forall (fun c => Str.isdecimal c = true) ds.

(** The lines of a text, and its pieces between the characters [p]. *)
Definition lines_of (s : str) : list str := Str.split_on Str.newline s.

Fixpoint pieces (p : ascii -> bool) (s : str) : list str :=
  match s with
  | [] => [[]]
  | x :: s' =>
      if p x then [] :: pieces p s'
      else match pieces p s' with
           | [] => [[x]]
           | w :: ws => (x :: w) :: ws
           end
  end.

Definition line_break_or_bar (c : ascii) : bool :=
  Str.eqc c Str.newline || Str.eqc c "|".

Definition digits (n : nat) (u : str) : Prop :=
  length u = n /\ Forall (fun c => Str.isdecimal c = true) u.

Definition separator (u : str) : Prop :=
  u = [] \/
  exists x, u = [x] /\ (x = "-"%char \/ x = "."%char \/ Str.isspace x = true).

(** A telephone number: [(DDD) DDD-DDDD], the parentheses and the
    separators optional. *)
Definition phone_shape (u : str) : Prop :=
  exists o a c s1 b s2 e,
    u = o ++ a ++ c ++ s1 ++ b ++ s2 ++ e /\
    (o = [] \/ o = ["("%char]) /\ digits 3 a /\
    (c = [] \/ c = [")"%char]) /\ separator s1 /\ digits 3 b /\
    separator s2 /\ digits 4 e.

(** [m] never raises. *)
Definition total {S A : Type} (m : M S A) : Prop :=
  forall s, exists a s', m s = (Ok a, s').

(** The test of the primary phase and the test of the fallback phase,
    on the record of a candidate. *)
Definition primary_test (main_defendant_name : str) (d : ServiceRecord)
    : bool :=
  names_match main_defendant_name (get d "service_name"%string).

Definition fallback_test (d : ServiceRecord) : bool :=
  negb (bool_decide (get d "service_name"%string = []))
  && negb (is_company (get d "service_name"%string)).

(** What a phase makes of the result of reading one candidate. *)
Definition hit (test : ServiceRecord -> bool) (o : option ServiceRecord)
    : option ServiceRecord :=
  match usable o with
  | Some d => if test d then Some d else None
  | None => None
  end.

Section Scans.

Context {D W : Type} (driver : WebDriver D W).

(** Reading the candidates [rows] one after the other from the
    session [d] gives no record that passes [test], and leaves the
    session [d']. *)
Inductive misses (test : ServiceRecord -> bool) (service_type : str)
    : list W -> D -> D -> Prop :=
| misses_nil d : misses test service_type [] d d
| misses_cons row rows d d1 d2 o :
    extract_service_details_fast driver row service_type d = (Ok o, d1) ->
    hit test o = None ->
    misses test service_type rows d1 d2 ->
    misses test service_type (row :: rows) d d2.

(** The first candidate of [rows] whose record passes [test] gives
    [found], read in the session left by the candidates before it. *)
Definition first_hit (test : ServiceRecord -> bool) (service_type : str)
    (rows : list W) (d : D) (found : ServiceRecord) (d' : D) : Prop :=
  exists before row after d1 o,
    rows = before ++ row :: after /\
    misses test service_type before d d1 /\
    extract_service_details_fast driver row service_type d1 = (Ok o, d') /\
    hit test o = Some found.

(** The session reaches the service search of [extract_attorney_data]
    in [d'], with the defendants scraped and no checkpoint late. *)
Definition reaches_search (d : D) (defendants : list str) (d' : D) : Prop :=
  exists t0 d1 t1 d2 d3 t2 d4 t3,
    time_time driver d = (t0, d1) /\
    time_time driver d1 = (t1, d2) /\
    Qgtb (t1 - t0) TIMEOUT_SECONDS = false /\
    extract_all_defendants_fast driver d2 = (Ok defendants, d3) /\
    time_time driver d3 = (t2, d4) /\
    Qgtb (t2 - t0) TIMEOUT_SECONDS = false /\
    defendants <> [] /\
    find_main_defendant defendants <> no_defendants_found /\
    time_time driver d4 = (t3, d') /\
    Qgtb (t3 - t0) TIMEOUT_SECONDS = false.

End Scans.

(** What a session does that the statements count: a listing of the
    rows of a page by XPath, and the first touch of a candidate row. *)
Inductive event (W : Type) : Type :=
| Queried (xpath : str) (found : list W)
| Inspected (row : W).
Arguments Queried {W} xpath found.
Arguments Inspected {W} row.

(** The driver [driver] keeping the list of these events beside its
    session. *)
Definition logged {D W : Type} (driver : WebDriver D W)
    : WebDriver (D * list (event W)) W :=
  {| time_time :=
       fun s => match time_time driver (fst s) with
                | (t, d') => (t, (d', snd s))
                end;
     time_sleep := fun q s => (time_sleep driver q (fst s), snd s);
     implicitly_wait := fun z => lift (implicitly_wait driver z);
     find_elements :=
       fun by_ value =>
         rows <- lift (find_elements driver by_ value) ;;
         modify_local (fun l => l ++ [Queried value rows]) ;;;
         ret rows;
     wait_presence := fun z by_ value => lift (wait_presence driver z by_ value);
     wait_clickable := fun z by_ value => lift (wait_clickable driver z by_ value);
     el_find_element :=
       fun w by_ value =>
         modify_local (fun l => l ++ [Inspected w]) ;;;
         lift (el_find_element driver w by_ value);
     el_find_elements := fun w by_ value => lift (el_find_elements driver w by_ value);
     el_click := fun w => lift (el_click driver w);
     el_clear := fun w => lift (el_clear driver w);
     el_send_keys := fun w keys => lift (el_send_keys driver w keys);
     el_select_by_value := fun w value => lift (el_select_by_value driver w value);
     el_get_attribute := fun w name => lift (el_get_attribute driver w name);
     el_text := fun w => lift (el_text driver w);
     timeout_exception := timeout_exception driver |}.

(** The logged run [m'] does what the run [m] does. *)
Definition follows {D L A : Type} (m' : M (D * L) A) (m : M D A) : Prop :=
  forall d l, fst (m' (d, l)) = fst (m d) /\ fst (snd (m' (d, l))) = snd (m d).

(** The run [m'] adds nothing to the log, adds [evs], touches rows of
    [rows] only. *)
Definition silent {D E A : Type} (m' : M (D * list E) A) : Prop :=
  forall s, snd (snd (m' s)) = snd s.

Definition appends {D E A : Type} (evs : list E) (m' : M (D * list E) A)
    : Prop :=
  forall s, snd (snd (m' s)) = snd s ++ evs.

Definition touches {D W A : Type} (rows : list W)
    (m' : M (D * list (event W)) A) : Prop :=
  forall s, exists touched,
    snd (snd (m' s)) = snd s ++ map Inspected touched /\
    forall r, In r touched -> In r rows.

(** The events of a search through the service types [types]: for each
    type reached, the listing of its rows, then touches of rows that
    stand among the first five of the listing. *)
Fixpoint category_log {W : Type} (types : list str) (log : list (event W))
    : Prop :=
  log = [] \/
  match types with
  | [] => False
  | service_type :: types' =>
      exists rows touched later,
        log = Queried (service_xpath service_type) rows
              :: map Inspected touched ++ later /\
        (forall r, In r touched -> exists i, i < 5 /\ rows !! i = Some r) /\
        category_log types' later
  end.

(* ================================================================= *)
(** ** Cases to run the code on *)

Module Examples.

Import Page.

Definition attorney_block : str :=
  py "Doe & Associates" ++ [Str.newline] ++ py "123 Main St"
  ++ [Str.newline] ++ py "Columbus, OH (614) 555-1234".

(** A block whose first line holds a vertical bar. *)
Definition barred_block : str :=
  py "Doe | Smith" ++ [Str.newline] ++ py "12 Main St".

Definition jane_row : element :=
  ServiceRow (py "CERTIFIED MAIL") (Some (py "12"))
    [ [py "Name:"; py "JANE SMITH"];
      [py "Attorney Name:"; py "Bob Loblaw"];
      [py "Attorney Address:"; attorney_block] ].

Definition jane_record : ServiceRecord :=
  {[ py "service_delivery_method" := py "CERTIFIED MAIL";
     py "service_name" := py "JANE SMITH";
     py "service_attorney_name" := py "Bob Loblaw";
     py "service_attorney_address" := attorney_block ]}.

Definition bank_row : element :=
  served "CERTIFIED MAIL" "11" [("Name:", "ABC BANK")]%string.

Definition bank_record : ServiceRecord :=
  {[ py "service_delivery_method" := py "CERTIFIED MAIL";
     py "service_name" := py "ABC BANK" ]}.

(** A row whose detail names nobody. *)
Definition nameless_row : element :=
  served "CERTIFIED MAIL" "10" [("Attorney Name:", "Bob Loblaw")]%string.

Definition nameless_record : ServiceRecord :=
  {[ py "service_delivery_method" := py "CERTIFIED MAIL";
     py "service_attorney_name" := py "Bob Loblaw" ]}.

(** A row served on the main defendant, with no attorney named. *)
Definition bare_row : element :=
  served "CERTIFIED MAIL" "9" [("Name:", "Jane Smith")]%string.

Definition bare_record : ServiceRecord :=
  {[ py "service_delivery_method" := py "CERTIFIED MAIL";
     py "service_name" := py "Jane Smith" ]}.

(** A row served on a longer name that holds the main defendant's. *)
Definition junior_row : element :=
  served "CERTIFIED MAIL" "8" [("Name:", "JANE SMITH JR")]%string.

Definition barred_record : ServiceRecord :=
  {[ py "service_attorney_address" := barred_block ]}.

Definition defendants : list string :=
  [ "ABC Bank"; "Jane Smith"; "XYZ LLC" ]%string.

Definition jane_page : page := case_page defendants [bank_row; jane_row].

Definition faulty_page : page :=
  case_page defendants [broken "CERTIFIED MAIL"; jane_row].

Definition nameless_page : page :=
  case_page defendants [nameless_row; jane_row].

Definition bare_page : page := case_page defendants [bare_row].

Definition empty_page : page := case_page defendants [].

Definition junior_page : page := case_page defendants [junior_row].

(** Five rows served on a bank, then the row of the main defendant. *)
Definition crowded_page : page :=
  case_page defendants
    [bank_row; bank_row; bank_row; bank_row; bank_row; jane_row].

Definition jane_data : AttorneyData :=
  {| attorney_name := py "Bob Loblaw";
     attorney_firm := py "Doe & Associates";
     attorney_address := py "123 Main St Columbus, OH (614) 555-1234";
     attorney_phone := py "(614) 555-1234";
     service_type := py "CERTIFIED MAIL";
     service_date := [];
     certified_mail_no := [];
     defendant_name := py "JANE SMITH";
     defendant_address := [];
     service_status := [];
     main_defendant := py "Jane Smith";
     all_defendants := py "ABC Bank; Jane Smith; XYZ LLC";
     defendant_count := 3;
     service_match := py "Main Defendant";
     extraction_status := py "Found" |}.

Definition bare_data : AttorneyData :=
  {| attorney_name := [];
     attorney_firm := [];
     attorney_address := [];
     attorney_phone := [];
     service_type := py "CERTIFIED MAIL";
     service_date := [];
     certified_mail_no := [];
     defendant_name := py "Jane Smith";
     defendant_address := [];
     service_status := [];
     main_defendant := py "Jane Smith";
     all_defendants := py "ABC Bank; Jane Smith; XYZ LLC";
     defendant_count := 3;
     service_match := py "Main Defendant";
     extraction_status := py "Found" |}.

Definition junior_data : AttorneyData :=
  {| attorney_name := [];
     attorney_firm := [];
     attorney_address := [];
     attorney_phone := [];
     service_type := py "CERTIFIED MAIL";
     service_date := [];
     certified_mail_no := [];
     defendant_name := py "JANE SMITH JR";
     defendant_address := [];
     service_status := [];
     main_defendant := py "Jane Smith";
     all_defendants := py "ABC Bank; Jane Smith; XYZ LLC";
     defendant_count := 3;
     service_match := py "Main Defendant";
     extraction_status := py "Found" |}.

End Examples.

(** A pattern that looks at nothing around the text it matches. *)
Fixpoint plain (r : Re.regex) : bool :=
  match r with
  | Re.Eps | Re.Chr _ => true
  | Re.Bol | Re.Eol | Re.WordB => false
  | Re.Cat r1 r2 | Re.Alt r1 r2 => plain r1 && plain r2
  | Re.Star r1 | Re.Group _ r1 => plain r1
  end.

(** The last character of a text is white space. *)
Definition ends_in_space (l : str) : bool :=
  match Re.last_char None l with
  | Some x => Str.isspace x
  | None => false
  end.

(* ================================================================= *)
(** ** Starting the browser *)

(** The rest of the file models what the source does around the
    functions above: the start of the browser, the disclaimer, the
    pass over the uploaded column and the loop over the valid cases.
    Calls that only display (the progress bar, the status text, the
    metrics, the tables, the download button) and [print] are left
    out; [st.error] and [st.success] are kept as messages. *)

(** What the source asks of the browser beside [WebDriver]: starting
    Chrome with its options, the page-load timeout, loading a page,
    one element by locator, submitting a form, going back, quitting. *)
Record Browser (D W : Type) : Type := MkBrowser {
  web : WebDriver D W;
  chrome : list str -> M D unit;
  set_page_load_timeout : Z -> M D unit;
  driver_get : str -> M D unit;
  find_element : By -> str -> M D W;
  el_submit : W -> M D unit;
  back : M D unit;
  quit : M D unit
}.
Arguments web {D W} _.
Arguments chrome {D W} _ _ _.
Arguments set_page_load_timeout {D W} _ _ _.
Arguments driver_get {D W} _ _ _.
Arguments find_element {D W} _ _ _ _.
Arguments el_submit {D W} _ _ _.
Arguments back {D W} _ _.
Arguments quit {D W} _ _.

(** The arguments [setup_browser] adds to the options, in order. *)
Definition chrome_options (headless : bool) : list str :=
  (if headless then [ py "--headless" ] else [])
  ++ [ py "--no-sandbox"; py "--disable-dev-shm-usage"; py "--disable-gpu";
       py "--disable-extensions"; py "--disable-plugins";
       py "--disable-images"; py "--window-size=1280,720";
       py "--log-level=3"; py "--silent" ].

Definition disclaimer_url : str :=
  "https://fcdcfcjs.co.franklin.oh.us/CaseInformationOnline/acceptDisclaimer?-1a3802dfior9hh"%string.

Definition accept_selectors : list str :=
  [ py "//input[@type='submit']";
    py "//input[contains(@value, 'Accept')]";
    py "//button[contains(text(), 'Accept')]" ].

(* ================================================================= *)
(** ** The results table *)

(** A value of [attorney_data], and of a cell of the attorney columns:
    a text, or the number of defendants. *)
Inductive cell : Type :=
| Text (s : str)
| Number (n : nat).

#[global] Instance cell_eq_dec : EqDecision cell.
Proof. solve_decision. Defined.

Definition attorney_columns : list str :=
  [ py "attorney_name"; py "attorney_firm"; py "attorney_address";
    py "attorney_phone"; py "service_type"; py "service_date";
    py "certified_mail_no"; py "defendant_name"; py "defendant_address";
    py "service_status"; py "main_defendant"; py "all_defendants";
    py "defendant_count"; py "service_match"; py "extraction_status" ].

(** The keys and values of the dictionary of [extract_attorney_data]. *)
Definition items (a : AttorneyData) : list (str * cell) :=
  [ (py "attorney_name", Text (attorney_name a));
    (py "attorney_firm", Text (attorney_firm a));
    (py "attorney_address", Text (attorney_address a));
    (py "attorney_phone", Text (attorney_phone a));
    (py "service_type", Text (service_type a));
    (py "service_date", Text (service_date a));
    (py "certified_mail_no", Text (certified_mail_no a));
    (py "defendant_name", Text (defendant_name a));
    (py "defendant_address", Text (defendant_address a));
    (py "service_status", Text (service_status a));
    (py "main_defendant", Text (main_defendant a));
    (py "all_defendants", Text (all_defendants a));
    (py "defendant_count", Number (defendant_count a));
    (py "service_match", Text (service_match a));
    (py "extraction_status", Text (extraction_status a)) ].

(** The variable [attorney_data] of the loop, as a dictionary. *)
Definition dict (c : CaseData) : list (str * cell) :=
  match c with
  | Full a => items a
  | StatusOnly v => [ (py "extraction_status", Text v) ]
  end.

(** [d.get(key)] and [d.get(key, '')]. *)
Fixpoint dict_lookup (key : str) (d : list (str * cell)) : option cell :=
  match d with
  | [] => None
  | (k, v) :: d' => if bool_decide (k = key) then Some v else dict_lookup key d'
  end.

Definition dict_get (key : str) (d : list (str * cell)) : cell :=
  default (Text []) (dict_lookup key d).

(** The dictionary of lines 693-709. *)
Definition failed_no_data : AttorneyData :=
  set_extraction_status "Failed - No Data"%string initial_attorney_data.

(** [if not attorney_data: attorney_data = {...}] (lines 692-709). *)
Definition ensure_attorney_data (c : CaseData) : CaseData :=
  match dict c with
  | [] => Full failed_no_data
  | _ => c
  end.

(** The attorney columns of the results table: row label and column
    name to cell. *)
Abbreviation Table := (gmap (nat * str) cell).

(** [results_df[col] = ''] on a table of [rows] rows. *)
Definition blank_column (rows : nat) (col : str) (t : Table) : Table :=
  foldl (fun t i => <[ (i, col) := Text [] ]> t) t (List.seq 0 rows).

(** Lines 623-624. *)
Definition blank_columns (rows : nat) (t : Table) : Table :=
  foldl (fun t col => blank_column rows col t) t attorney_columns.

(** What the installed pandas does with a number assigned to a cell
    of a column of texts, as [results_df.loc[row_idx, 'defendant_count']]
    is after [results_df['defendant_count'] = '']: [None] when it
    stores the number, as pandas before 3 does, whose column of texts
    holds any object; [Some e] when it raises a [TypeError] whose text
    is [e], as pandas 3 does, whose column of texts has the type [str].
    The source names no version of pandas. *)
Record Pandas : Type := MkPandas {
  number_in_text_column : nat -> option str
}.

(** What the run shows with [st.error] and [st.success]. *)
Inductive message : Type :=
| disclaimer_failed
| connected
| processing_completed (successful failed : nat)
| processing_error (e : str)
| no_valid_cases.

(** The names the run binds: the table, the browser, the two counters
    ([None] while a name is not bound), and what was shown so far. *)
Record Run : Type := MkRun {
  results_df : Table;
  driver_bound : bool;
  successful_extractions : option nat;
  failed_extractions : option nat;
  shown : list message
}.

Definition initial_run : Run :=
  {| results_df := ∅; driver_bound := false;
     successful_extractions := None; failed_extractions := None;
     shown := [] |}.

Definition set_results_df (f : Table -> Table) (r : Run) : Run :=
  {| results_df := f (results_df r); driver_bound := driver_bound r;
     successful_extractions := successful_extractions r;
     failed_extractions := failed_extractions r; shown := shown r |}.

Definition bind_driver (r : Run) : Run :=
  {| results_df := results_df r; driver_bound := true;
     successful_extractions := successful_extractions r;
     failed_extractions := failed_extractions r; shown := shown r |}.

Definition set_successful (n : nat) (r : Run) : Run :=
  {| results_df := results_df r; driver_bound := driver_bound r;
     successful_extractions := Some n;
     failed_extractions := failed_extractions r; shown := shown r |}.

Definition set_failed (n : nat) (r : Run) : Run :=
  {| results_df := results_df r; driver_bound := driver_bound r;
     successful_extractions := successful_extractions r;
     failed_extractions := Some n; shown := shown r |}.

Definition add_message (m : message) (r : Run) : Run :=
  {| results_df := results_df r; driver_bound := driver_bound r;
     successful_extractions := successful_extractions r;
     failed_extractions := failed_extractions r; shown := shown r ++ [m] |}.

(** [str(NameError)] for a name that is not bound. *)
Definition name_error (name : string) : str :=
  py "name '" ++ py name ++ py "' is not defined".

(** The pass over the column [Case #] (lines 564-573).  A cell is
    [None] when [pd.notna] fails on it, and else holds its [str]. *)
Fixpoint validate_loop (idx : nat) (cells : list (option str))
    (valid_cases : list (nat * str * CaseNumber))
    (invalid_cases : list (nat * str))
    : list (nat * str * CaseNumber) * list (nat * str) :=
  match cells with
  | [] => (valid_cases, invalid_cases)
  | None :: cells' => validate_loop (S idx) cells' valid_cases invalid_cases
  | Some case_num :: cells' =>
      match parse_case_number case_num with
      | Some parsed =>
          validate_loop (S idx) cells'
            (valid_cases ++ [ (idx, case_num, parsed) ]) invalid_cases
      | None =>
          validate_loop (S idx) cells' valid_cases
            (invalid_cases ++ [ (idx, case_num) ])
      end
  end.

Definition validate (cells : list (option str))
    : list (nat * str * CaseNumber) * list (nat * str) :=
  validate_loop 0 cells [] [].

Section Run.

Context {D W : Type} (pandas : Pandas) (browser : Browser D W).

Definition setup_browser (headless : bool) : M D unit :=
  let options := chrome_options headless in
  try_except
    (chrome browser options ;;;
     set_page_load_timeout browser 20 ;;;
     implicitly_wait (web browser) 5 ;;;
     ret tt)
    (fun e => raise (py "Browser failed to start: " ++ e)).

(** The loop over [accept_selectors] (lines 107-117); the result is
    [button_clicked]. *)
Fixpoint click_accept (selectors : list str) : M D bool :=
  match selectors with
  | [] => ret false
  | selector :: selectors' =>
      clicked <-
        try_except
          (accept_button <- wait_clickable (web browser) 3 XPATH selector ;;
           el_click (web browser) accept_button ;;;
           ret true)
          (fun _ => ret false) ;;
      if clicked then ret true else click_accept selectors'
  end.

(** The body of the [try] of one attempt (lines 87-130). *)
Definition disclaimer_attempt : M D unit :=
  set_page_load_timeout browser 15 ;;;
  driver_get browser disclaimer_url ;;;
  wait_presence (web browser) 8 TAG_NAME "form"%string ;;;
  button_clicked <- click_accept accept_selectors ;;
  (if negb button_clicked
   then
     form <- find_element browser TAG_NAME "form"%string ;;
     el_submit browser form
   else ret tt) ;;;
  wait_presence (web browser) 8 NAME "caseYear"%string ;;;
  ret tt.

(** The loop over [range(max_retries)]; an attempt gives [Some b]
    when it returns [b]. *)
Fixpoint disclaimer_attempts (attempts : list nat) (max_retries : nat)
    : M D bool :=
  match attempts with
  | [] => ret false
  | attempt :: attempts' =>
      returned <-
        try_except
          (disclaimer_attempt ;;; ret (Some true))
          (fun _ =>
             if attempt =? max_retries - 1 then ret (Some false)
             else sleep (web browser) 1 ;;; ret None) ;;
      match returned with
      | Some b => ret b
      | None => disclaimer_attempts attempts' max_retries
      end
  end.

Definition handle_disclaimer (max_retries : nat) : M D bool :=
  disclaimer_attempts (List.seq 0 max_retries) max_retries.

Definition show (m : message) : M (D * Run) unit :=
  modify_local (add_message m).

(** [results_df.loc[row_idx, col] = value] on an attorney column. *)
Definition loc_assign (row_idx : nat) (col : str) (value : cell)
    : M (D * Run) unit :=
  match value with
  | Text _ => modify_local (set_results_df <[ (row_idx, col) := value ]>)
  | Number n =>
      match number_in_text_column pandas n with
      | None => modify_local (set_results_df <[ (row_idx, col) := value ]>)
      | Some e => raise e
      end
  end.

(** Lines 712-713: [results_df.loc[row_idx, col] = attorney_data.get(col, '')]
    for each column of [cols]. *)
Fixpoint write_row (row_idx : nat) (attorney_data : CaseData)
    (cols : list str) : M (D * Run) unit :=
  match cols with
  | [] => ret tt
  | col :: cols' =>
      loc_assign row_idx col (dict_get col (dict attorney_data)) ;;;
      write_row row_idx attorney_data cols'
  end.

(** Lines 716-719. *)
Definition count_extraction (attorney_data : CaseData) : M (D * Run) unit :=
  r <- get_local ;;
  if bool_decide (dict_lookup "extraction_status"%string (dict attorney_data)
                  = Some (Text "Found"%string))
  then
    match successful_extractions r with
    | Some n => modify_local (set_successful (n + 1))
    | None => raise (name_error "successful_extractions")
    end
  else
    match failed_extractions r with
    | Some n => modify_local (set_failed (n + 1))
    | None => raise (name_error "failed_extractions")
    end.

(** Lines 739-757: back to the search form, and the pause. *)
Definition prepare_next_case (delay_between_requests : Z) : M D unit :=
  try_except
    (back browser ;;;
     sleep (web browser) 1 ;;;
     try_except
       (wait_presence (web browser) 3 NAME "caseYear"%string ;;; ret tt)
       (fun _ => handle_disclaimer 2 ;;; ret tt))
    (fun _ => ret tt) ;;;
  sleep (web browser) (inject_Z (Z.max 1 (delay_between_requests / 2))).

(** The loop over [enumerate(valid_cases)] (lines 642-757), from the
    index [i]; [n] is [len(valid_cases)]. *)
Fixpoint cases_loop (n i : nat) (cases : list (nat * str * CaseNumber))
    (delay_between_requests : Z) : M (D * Run) unit :=
  match cases with
  | [] => ret tt
  | (row_idx, case_num, parsed_case) :: cases' =>
      attorney_data <- lift (process_case (web browser) parsed_case) ;;
      let attorney_data := ensure_attorney_data attorney_data in
      write_row row_idx attorney_data attorney_columns ;;;
      count_extraction attorney_data ;;;
      (if (Z.of_nat i <? Z.of_nat n - 1)%Z
       then lift (prepare_next_case delay_between_requests)
       else ret tt) ;;;
      cases_loop n (i + 1) cases' delay_between_requests
  end.

(** The body of the [try] of lines 627-777. *)
Definition fetch (headless_mode : bool) (delay_between_requests : Z)
    (valid_cases : list (nat * str * CaseNumber)) : M (D * Run) unit :=
  lift (setup_browser headless_mode) ;;;
  modify_local bind_driver ;;;
  accepted <- lift (handle_disclaimer 2) ;;
  (if negb accepted
   then show disclaimer_failed ;;; lift (quit browser)
   else
     show connected ;;;
     modify_local (set_successful 0) ;;;
     modify_local (set_failed 0)) ;;;
  cases_loop (length valid_cases) 0 valid_cases delay_between_requests ;;;
  r <- get_local ;;
  match successful_extractions r with
  | None => raise (name_error "successful_extractions")
  | Some successful =>
      match failed_extractions r with
      | None => raise (name_error "failed_extractions")
      | Some failed => show (processing_completed successful failed)
      end
  end.

(** [finally: try: driver.quit() except: pass] *)
Definition close_browser : M (D * Run) unit :=
  try_except
    (r <- get_local ;;
     if driver_bound r then lift (quit browser)
     else raise (name_error "driver"))
    (fun _ => ret tt).

(** [try: body finally: closing] *)
Definition try_finally {S A : Type} (body : M S A) (closing : M S unit)
    : M S A :=
  fun s =>
    match body s with
    | (o, s') =>
        match closing s' with
        | (Ok _, s'') => (o, s'')
        | (Raised e, s'') => (Raised e, s'')
        end
    end.

(** What the button that starts the run does (lines 605-789), on
    the cells of the column [Case #]. *)
Definition start_fetching (cells : list (option str)) (headless_mode : bool)
    (delay_between_requests : Z) : M (D * Run) unit :=
  let valid_cases := fst (validate cells) in
  match valid_cases with
  | [] => show no_valid_cases
  | _ =>
      modify_local (set_results_df (blank_columns (length cells))) ;;;
      try_finally
        (try_except
           (fetch headless_mode delay_between_requests valid_cases)
           (fun e => show (processing_error e)))
        close_browser
  end.

End Run.

(* ================================================================= *)
(** ** Vocabulary of the further statements *)

(** A bracket group with the blanks before it, as written: the blanks,
    then the text between the brackets. *)
Definition bracketed (g : str * str) : str :=
  fst g ++ "("%char :: snd g ++ [")"%char].

Definition well_bracketed (g : str * str) : Prop :=
  Forall (fun c => Str.isspace c = true) (fst g) /\
  Forall (fun c => c <> ")"%char) (snd g).

(** Every character test of the pattern gives the same answer on a
    letter and on its lower case. *)
Fixpoint folds (r : Re.regex) : bool :=
  match r with
  | Re.Chr p =>
      forallb
        (fun n =>
           Bool.eqb (p (Str.lower_char (ascii_of_nat n))) (p (ascii_of_nat n)))
        (List.seq 0 256)
  | Re.Cat r1 r2 | Re.Alt r1 r2 => folds r1 && folds r2
  | Re.Star r1 | Re.Group _ r1 => folds r1
  | Re.Eps | Re.Bol | Re.Eol | Re.WordB => true
  end.

(** A character with the letters A to Z made small and every other
    character kept, and a text with each character so treated. *)
Definition small_ascii (c : ascii) : ascii :=
  if Str.isupper_ascii c then ascii_of_nat (Str.code c + 32) else c.

Definition ascii_lower (s : str) : str := map small_ascii s.

(** A text with no white space at either end. *)
Definition stripped (s : str) : Prop := Str.strip s = s.

(** A key of a service record: [service_] and a label that is not
    empty and holds no blank and no capital letter of ASCII. *)
Definition field_key (k : str) : Prop :=
  exists label,
    k = py "service_" ++ label /\ label <> [] /\
    Forall (fun c => c <> " "%char /\ Str.isupper_ascii c = false) label.

(** What a service record read for the category [service_type] may
    hold under the key [k]: the key is well formed, and the value is
    stripped, or is the category under [service_delivery_method]. *)
Definition field_ok (service_type : str) (k v : str) : Prop :=
  field_key k /\
  (stripped v \/ (k = py "service_delivery_method" /\ v = service_type)).

(** The label the loop over a detail table makes of the text of a
    first cell (line 501). *)
Definition detail_label (t0 : str) : str :=
  Str.replace_char " " "_"%string
    (Str.lower (Str.rstrip_char ":" (Str.strip t0))).

(** A text that holds no line break and no vertical bar. *)
Definition single_line (s : str) : Prop :=
  Forall (fun c => line_break_or_bar c = false) s.

(** The statuses [extract_attorney_data] can end with. *)
Definition extraction_statuses : list str :=
  [ py "Timeout - Overall Process"; py "Timeout - After Defendants";
    py "No Defendants Found"; py "Timeout - Before Service Search";
    py "No Service Records Found"; py "Found" ].

(** Row labels that go up strictly. *)
Fixpoint rising (l : list nat) : Prop :=
  match l with
  | [] => True
  | x :: l' => Forall (lt x) l' /\ rising l'
  end.

(** The statuses a case can leave in its row of the table. *)
Definition row_status {D W : Type} (driver : WebDriver D W) (v : str) : Prop :=
  In v extraction_statuses \/ v = py "Search Form Failed" \/
  v = py "Error: " ++ timeout_exception driver (py "Case processing timeout").

(** [k] attempts at the disclaimer fail one after the other from the
    session [d], each followed by the pause of one second, and leave
    the session [d']. *)
Inductive failed_attempts {D W : Type} (browser : Browser D W)
    : nat -> D -> D -> Prop :=
| failed_none d : failed_attempts browser 0 d d
| failed_more k d e d1 d2 :
    disclaimer_attempt browser d = (Raised e, d1) ->
    failed_attempts browser k (time_sleep (web browser) 1 d1) d2 ->
    failed_attempts browser (S k) d d2.

(** The table after the columns [cols] of the row of a case were
    written; after all of them; and after those that come before
    [defendant_count], the one column whose value is a number. *)
Definition columns_written (cols : list str) (row_idx : nat) (c : CaseData)
    (t : Table) : Table :=
  foldl (fun t col => <[ (row_idx, col) := dict_get col (dict c) ]> t) t cols.

Definition row_written : nat -> CaseData -> Table -> Table :=
  columns_written attorney_columns.

Definition row_begun : nat -> CaseData -> Table -> Table :=
  columns_written (firstn 12 attorney_columns).

(** The fault pandas raises on the row of a case, if any: a case
    that left only a status has no number to write. *)
Definition refused (pandas : Pandas) (c : CaseData) : option str :=
  match c with
  | Full a => number_in_text_column pandas (defendant_count a)
  | StatusOnly _ => None
  end.

(** The row label of a valid case. *)
Definition row_idx (c : nat * str * CaseNumber) : nat := fst (fst c).

(** The attorney columns of the row [i] are as [results_df[col] = '']
    left them. *)
Definition blank_row (t : Table) (i : nat) : Prop :=
  forall col, In col attorney_columns -> t !! (i, col) = Some (Text []).

(** The status in the row [i], and the number of rows among the first
    [rows] whose status is "Found". *)
Definition status_of (t : Table) (i : nat) : option cell :=
  t !! (i, py "extraction_status").

Definition found_rows (t : Table) (rows : nat) : nat :=
  length
    (List.filter
       (fun i => bool_decide (status_of t i = Some (Text (py "Found"))))
       (List.seq 0 rows)).

(** The report of the two counters that follows the loop (line 763),
    on the session and the names bound. *)
Definition report {D : Type} (s : D * Run) : outcome unit * (D * Run) :=
  match successful_extractions (snd s) with
  | None => (Raised (name_error "successful_extractions"), s)
  | Some successful =>
      match failed_extractions (snd s) with
      | None => (Raised (name_error "failed_extractions"), s)
      | Some failed =>
          (Ok tt,
           (fst s,
            add_message (processing_completed successful failed) (snd s)))
      end
  end.

(** The names bound when the browser is about to start: the table
    with its attorney columns blank. *)
Definition run_at_start (cells : list (option str)) : Run :=
  set_results_df (blank_columns (length cells)) initial_run.

(* ================================================================= *)
(** ** Further cases to run the code on *)

Module Cases.

Definition case_5681 : CaseNumber :=
  {| year := py "23"; case_type := py "CV"; sequence := py "0005681";
     original := py "23CV5681 (12844)" |}.

Definition case_bare : CaseNumber :=
  {| year := py "23"; case_type := py "CV"; sequence := py "0005681";
     original := py "23CV5681" |}.

Import Page.

(** A docket where nothing was served on the main defendant and a
    paper was served on another individual. *)
Definition roe_row : element :=
  served "PROCESS SERVER" "7"
    [("Name:", "John Roe"); ("Attorney Name:", "Ann Lee")]%string.

Definition roe_page : page :=
  case_page Examples.defendants [Examples.bank_row; roe_row].

Definition roe_data : AttorneyData :=
  {| attorney_name := py "Ann Lee";
     attorney_firm := [];
     attorney_address := [];
     attorney_phone := [];
     service_type := py "PROCESS SERVER";
     service_date := [];
     certified_mail_no := [];
     defendant_name := py "John Roe";
     defendant_address := [];
     service_status := [];
     main_defendant := py "Jane Smith";
     all_defendants := py "ABC Bank; Jane Smith; XYZ LLC";
     defendant_count := 3;
     service_match := py "Other Human Defendant";
     extraction_status := py "Found" |}.

(** The court's site on a page that does not change: the form of
    the disclaimer and the search form are there when [accepts]
    holds, and every other call is that of [Page.driver]. *)
Definition site (accepts : bool) : WebDriver page element :=
  {| time_time := time_time Page.driver;
     time_sleep := time_sleep Page.driver;
     implicitly_wait := implicitly_wait Page.driver;
     find_elements := find_elements Page.driver;
     wait_presence :=
       fun z by_ value =>
         match by_ with
         | TAG_NAME | NAME =>
             if accepts then ret Input else raise (py "Message: ")
         | _ => wait_presence Page.driver z by_ value
         end;
     wait_clickable := wait_clickable Page.driver;
     el_find_element := el_find_element Page.driver;
     el_find_elements := el_find_elements Page.driver;
     el_click := el_click Page.driver;
     el_clear := el_clear Page.driver;
     el_send_keys := el_send_keys Page.driver;
     el_select_by_value := el_select_by_value Page.driver;
     el_get_attribute := el_get_attribute Page.driver;
     el_text := el_text Page.driver;
     timeout_exception := timeout_exception Page.driver |}.

(** A browser on that site; Chrome starts when [starts] holds. *)
Definition browser (starts accepts : bool) : Browser page element :=
  {| web := site accepts;
     chrome :=
       fun _ => if starts then ret tt else raise (py "Message: no chrome");
     set_page_load_timeout := fun _ => ret tt;
     driver_get := fun _ => ret tt;
     find_element := fun _ _ => ret Input;
     el_submit := fun _ => ret tt;
     back := ret tt;
     quit := ret tt |}.

(** The column [Case #] of an uploaded table: a case number, an
    empty cell, and a text that is no case number. *)
Definition column : list (option str) :=
  [ Some (py "23CV5681 (12844)"); None; Some (py "n/a") ].

(** A case where a defendant bears the very name that stands for
    no defendant. *)
Definition sentinel_page : page :=
  case_page [ "XYZ LLC"; "No defendants found" ]%string [].

Definition sentinel_data : AttorneyData :=
  set_extraction_status "No Defendants Found"%string
    (fresh [ py "XYZ LLC"; py "No defendants found" ]
       (py "No defendants found")).

(** A pandas that stores a number in a column of texts, and one
    that refuses it. *)
Definition pandas_2 : Pandas := {| number_in_text_column := fun _ => None |}.

Definition pandas_3 : Pandas :=
  {| number_in_text_column :=
       fun _ => Some (py "Invalid value for dtype 'str'") |}.

(** The names bound at the end of a run over [column] on the page
    of the examples: one that connects, one whose disclaimer fails,
    and one where pandas refuses the number of defendants. *)
Definition completed_run : Run :=
  {| results_df :=
       row_written 0 (Full Examples.jane_data) (blank_columns 3 ∅);
     driver_bound := true;
     successful_extractions := Some 1;
     failed_extractions := Some 0;
     shown := [ connected; processing_completed 1 0 ] |}.

Definition stopped_run : Run :=
  {| results_df :=
       row_written 0 (Full Examples.jane_data) (blank_columns 3 ∅);
     driver_bound := true;
     successful_extractions := None;
     failed_extractions := None;
     shown :=
       [ disclaimer_failed;
         processing_error (name_error "successful_extractions") ] |}.

Definition refused_run : Run :=
  {| results_df :=
       row_begun 0 (Full Examples.jane_data) (blank_columns 3 ∅);
     driver_bound := true;
     successful_extractions := Some 0;
     failed_extractions := Some 0;
     shown :=
       [ connected; processing_error (py "Invalid value for dtype 'str'") ] |}.

End Cases.

(* ================================================================= *)
(** * Proofs *)

Module ReFacts.
Import Re.

Lemma last_char_nil pv : last_char pv [] = pv.
Proof. reflexivity. Qed.

Lemma last_char_snoc pv (u : str) x : last_char pv (u ++ [x]) = Some x.
Proof. unfold last_char. rewrite rev_app_distr. reflexivity. Qed.

Lemma last_char_app pv (u1 u2 : str) :
  last_char (last_char pv u1) u2 = last_char pv (u1 ++ u2).
Proof.
  destruct u2 as [|x u2] using rev_ind.
  - rewrite app_nil_r. reflexivity.
  - rewrite app_assoc, !last_char_snoc. reflexivity.
Qed.

Lemma last_char_cons pv x u : last_char pv (x :: u) = last_char (Some x) u.
Proof. exact (eq_sym (last_char_app pv [x] u)). Qed.

Lemma advance_nil c : advance c [] (rest c) = c.
Proof. destruct c. unfold advance. simpl. f_equal. lia. Qed.

Lemma advance_app c u1 u2 after :
  advance (advance c u1 (u2 ++ after)) u2 after = advance c (u1 ++ u2) after.
Proof.
  unfold advance. simpl. rewrite last_char_app, length_app. f_equal. lia.
Qed.

Lemma first_advance (c : cursor) (u : str) :
  (pos c + length u =? 0) = (pos c =? 0) && bool_decide (u = []).
Proof.
  destruct u as [|x u]; simpl.
  - rewrite Nat.add_0_r, andb_true_r. reflexivity.
  - rewrite andb_false_r. apply Nat.eqb_neq. lia.
Qed.

(** Soundness of one iteration lifts to the loop. *)
Lemma star_loop_sound {A : Type} (r : regex)
    (k : cursor -> caps -> option A) :
  (forall c g (k' : cursor -> caps -> option A) x,
      run r c g k' = Some x ->
      exists u after g',
        rest c = u ++ after /\
        matches r (pos c =? 0) (prev c) u after /\
        k' (advance c u after) g' = Some x) ->
  forall n c g x,
    star_loop (run r) k n c g = Some x ->
    exists u after g',
      rest c = u ++ after /\
      matches (Star r) (pos c =? 0) (prev c) u after /\
      k (advance c u after) g' = Some x.
Proof.
  intros IH n. induction n as [|n IHn]; intros c g x H; simpl in H.
  - exists [], (rest c), g. rewrite advance_nil. repeat split; auto. constructor.
  - destruct (run r c g _) as [y|] eqn:E.
    + inversion H; subst y; clear H.
      apply IH in E. destruct E as (u1 & after1 & g1 & Hr & Hm & Hk).
      destruct (pos c <? pos (advance c u1 after1)) eqn:Hlt; [|discriminate].
      apply IHn in Hk. destruct Hk as (u2 & after2 & g2 & Hr2 & Hm2 & Hk2).
      simpl in Hr2. subst after1.
      exists (u1 ++ u2), after2, g2. split; [|split].
      * rewrite Hr, app_assoc. reflexivity.
      * apply Nat.ltb_lt in Hlt. simpl in Hlt.
        assert (u1 <> []) by (intros ->; simpl in Hlt; lia).
        apply M_star_cons; auto.
        simpl in Hm2. rewrite first_advance in Hm2.
        destruct u1; [congruence|].
        rewrite andb_false_r in Hm2. exact Hm2.
      * rewrite advance_app in Hk2. exact Hk2.
    + exists [], (rest c), g. rewrite advance_nil. repeat split; auto. constructor.
Qed.

Theorem run_sound {A : Type} (r : regex) :
  forall c g (k : cursor -> caps -> option A) x,
    run r c g k = Some x ->
    exists u after g',
      rest c = u ++ after /\
      matches r (pos c =? 0) (prev c) u after /\
      k (advance c u after) g' = Some x.
Proof.
  induction r as [|p| | | |r1 IH1 r2 IH2|r1 IH1 r2 IH2|r1 IH1|i r1 IH1];
    intros c g k x H; simpl in H.
  - exists [], (rest c), g. rewrite advance_nil. repeat split; auto. constructor.
  - destruct (rest c) as [|y tl] eqn:Hr; [discriminate|].
    destruct (p y) eqn:Hp; [|discriminate].
    exists [y], tl, g. repeat split; auto.
    + constructor; auto.
    + unfold advance. simpl. rewrite Nat.add_1_r. exact H.
  - destruct (pos c =? 0) eqn:Hp; [|discriminate].
    exists [], (rest c), g. rewrite advance_nil. repeat split; auto. constructor.
  - destruct (at_eol (rest c)) eqn:Hp; [|discriminate].
    exists [], (rest c), g. rewrite advance_nil. repeat split; auto.
    constructor; auto.
  - destruct (at_boundary (prev c) (rest c)) eqn:Hp; [|discriminate].
    exists [], (rest c), g. rewrite advance_nil. repeat split; auto.
    constructor; auto.
  - apply IH1 in H. destruct H as (u1 & after1 & g1 & Hr & Hm & Hk).
    apply IH2 in Hk. destruct Hk as (u2 & after2 & g2 & Hr2 & Hm2 & Hk2).
    simpl in Hr2. subst after1.
    exists (u1 ++ u2), after2, g2. split; [|split].
    + rewrite Hr, app_assoc. reflexivity.
    + constructor; auto. simpl in Hm2. rewrite first_advance in Hm2. exact Hm2.
    + rewrite advance_app in Hk2. exact Hk2.
  - destruct (run r1 c g k) as [y|] eqn:E.
    + inversion H; subst y. apply IH1 in E.
      destruct E as (u & after & g' & ? & ? & ?).
      exists u, after, g'. repeat split; auto. apply M_alt_l; auto.
    + apply IH2 in H. destruct H as (u & after & g' & ? & ? & ?).
      exists u, after, g'. repeat split; auto. apply M_alt_r; auto.
  - eapply star_loop_sound; eauto.
  - apply IH1 in H. destruct H as (u & after & g' & ? & ? & ?).
    eexists u, after, _. repeat split; eauto. constructor; auto.
Qed.

(** Completeness of one iteration lifts to the loop, for every
    amount of fuel that covers the text left. *)
Lemma star_loop_complete {A : Type} (r : regex)
    (k : cursor -> caps -> option A) :
  (forall first pv u after,
      matches r first pv u after ->
      forall c g (k' : cursor -> caps -> option A),
        first = (pos c =? 0) -> pv = prev c -> rest c = u ++ after ->
        (forall g', is_Some (k' (advance c u after) g')) ->
        is_Some (run r c g k')) ->
  forall rs first pv u after,
    matches rs first pv u after ->
    rs = Star r ->
    forall n c g,
      first = (pos c =? 0) -> pv = prev c -> rest c = u ++ after ->
      length (rest c) <= n ->
      (forall g', is_Some (k (advance c u after) g')) ->
      is_Some (star_loop (run r) k n c g).
Proof.
  intros IH rs first pv u after Hm.
  induction Hm; intros Hrs; try discriminate; inversion Hrs; subst; clear Hrs.
  - intros n c g _ _ Hr _ Hk.
    specialize (Hk g). simpl in Hr. rewrite <- Hr, advance_nil in Hk.
    destruct n; simpl.
    + exact Hk.
    + destruct (run r c g _); [eexists; reflexivity | exact Hk].
  - intros n c g Hf Hp Hr Hn Hk.
    destruct n as [|n].
    { rewrite Hr in Hn. destruct u1; [congruence|]. simpl in Hn. lia. }
    simpl.
    assert (Hbody : is_Some
              (run r c g
                 (fun c' g' =>
                    if pos c <? pos c' then star_loop (run r) k n c' g'
                    else None))).
    { eapply IH; [exact Hm1 | exact Hf | exact Hp | | ].
      - rewrite Hr, app_assoc. reflexivity.
      - intros g'. simpl.
        assert (Hlt : (pos c <? pos c + length u1) = true).
        { apply Nat.ltb_lt. destruct u1; [congruence|]. simpl. lia. }
        rewrite Hlt.
        apply IHHm2; auto.
        + simpl. symmetry. apply Nat.eqb_neq.
          destruct u1; [congruence|]. simpl. lia.
        + simpl. rewrite Hp. reflexivity.
        + simpl. rewrite Hr, !length_app in Hn. rewrite length_app.
          destruct u1; [congruence|]. simpl in Hn. lia.
        + intros g''. rewrite advance_app. apply Hk. }
    destruct Hbody as [y ->]. eexists; reflexivity.
Qed.

Theorem run_complete {A : Type} (r : regex) :
  forall first pv u after,
    matches r first pv u after ->
    forall c g (k : cursor -> caps -> option A),
      first = (pos c =? 0) -> pv = prev c -> rest c = u ++ after ->
      (forall g', is_Some (k (advance c u after) g')) ->
      is_Some (run r c g k).
Proof.
  induction r as [|p| | | |r1 IH1 r2 IH2|r1 IH1 r2 IH2|r1 IH1|i r1 IH1];
    intros first pv u after Hm c g k Hf Hp Hr Hk;
    inversion Hm; subst; clear Hm; simpl.
  - simpl in Hr. specialize (Hk g). rewrite <- Hr, advance_nil in Hk. exact Hk.
  - simpl in Hr. rewrite Hr.
    match goal with H : p x = true |- _ => rewrite H end.
    specialize (Hk g). unfold advance in Hk. simpl in Hk.
    rewrite Nat.add_1_r in Hk. exact Hk.
  - match goal with H : true = _ |- _ => rewrite <- H end.
    simpl in Hr. specialize (Hk g).
    rewrite <- Hr, advance_nil in Hk. exact Hk.
  - simpl in Hr. rewrite Hr.
    match goal with H : at_eol _ = true |- _ => rewrite H end.
    specialize (Hk g). rewrite <- Hr, advance_nil in Hk. exact Hk.
  - simpl in Hr. rewrite Hr.
    match goal with H : at_boundary _ _ = true |- _ => rewrite H end.
    specialize (Hk g). rewrite <- Hr, advance_nil in Hk. exact Hk.
  - eapply IH1; [eassumption | reflexivity | reflexivity | | ].
    + rewrite Hr, app_assoc. reflexivity.
    + intros g'. eapply IH2; [eassumption | | | | ].
      * simpl. rewrite first_advance. reflexivity.
      * reflexivity.
      * reflexivity.
      * intros g''. rewrite advance_app. apply Hk.
  - destruct (run r1 c g k) eqn:E; [eexists; reflexivity|].
    assert (is_Some (run r1 c g k)) as [y Hy] by (eapply IH1; eauto).
    congruence.
  - destruct (run r1 c g k) eqn:E; [eexists; reflexivity|].
    eapply IH2; eauto.
  - eapply star_loop_complete with (rs := Star r1) (u := []);
      [exact IH1 | apply M_star_nil | .. ]; eauto.
  - eapply star_loop_complete with (rs := Star r1) (u := u1 ++ u2);
      [exact IH1 | apply M_star_cons; eassumption | .. ]; eauto.
  - eapply IH1; eauto.
Qed.

Lemma firstn_after (p : nat) (u after : str) :
  firstn (p + length u - p) (u ++ after) = u.
Proof.
  replace (p + length u - p) with (length u) by lia.
  rewrite firstn_app, Nat.sub_diag, firstn_all. simpl. apply app_nil_r.
Qed.

Lemma match_at_sound r c m :
  match_at r c = Some m ->
  exists u after,
    rest c = u ++ after /\
    matches r (pos c =? 0) (prev c) u after /\
    m_start m = pos c /\ m_end m = pos c + length u /\ m_text m = u.
Proof.
  unfold match_at. intros H. apply run_sound in H.
  destruct H as (u & after & g' & Hr & Hm & Hk).
  exists u, after. inversion Hk; subst m; clear Hk. simpl.
  rewrite Hr, firstn_after. auto.
Qed.

Lemma match_at_complete r c u after :
  rest c = u ++ after ->
  matches r (pos c =? 0) (prev c) u after ->
  is_Some (match_at r c).
Proof.
  intros Hr Hm. unfold match_at.
  eapply run_complete;
    [exact Hm | reflexivity | reflexivity | exact Hr
    | intros g'; eexists; reflexivity].
Qed.

(** [search_from] returns a match at the leftmost position that has
    one. *)
Lemma search_from_sound r s : forall p pv m,
  search_from r p pv s = Some m ->
  exists pre u post,
    s = pre ++ u ++ post /\
    matches r ((p =? 0) && bool_decide (pre = [])) (last_char pv pre) u post /\
    m_start m = p + length pre /\
    m_end m = p + length pre + length u /\
    m_text m = u /\
    forall pre' u' post',
      s = pre' ++ u' ++ post' -> length pre' < length pre ->
      ~ matches r ((p =? 0) && bool_decide (pre' = []))
          (last_char pv pre') u' post'.
Proof.
  induction s as [|x s IH]; intros p pv m H; simpl in H.
  - destruct (match_at r (Cursor p pv [])) as [m'|] eqn:E; [|discriminate].
    inversion H; subst m'; clear H.
    apply match_at_sound in E. simpl in E.
    destruct E as (u & after & Hr & Hm & Hs & He & Ht).
    exists [], u, after. simpl. rewrite andb_true_r, Nat.add_0_r.
    repeat split; auto. intros; lia.
  - destruct (match_at r (Cursor p pv (x :: s))) as [m'|] eqn:E.
    + inversion H; subst m'; clear H.
      apply match_at_sound in E. simpl in E.
      destruct E as (u & after & Hr & Hm & Hs & He & Ht).
      exists [], u, after. simpl. rewrite andb_true_r, Nat.add_0_r.
      repeat split; auto. intros; lia.
    + apply IH in H.
      destruct H as (pre & u & post & Hs & Hm & Hst & He & Ht & Hleft).
      exists (x :: pre), u, post. simpl.
      rewrite andb_false_r. simpl in Hm.
      rewrite last_char_cons.
      repeat split; auto; try lia.
      * rewrite Hs. reflexivity.
      * intros pre' u' post' Hs' Hlen Hm'.
        destruct pre' as [|y pre'].
        -- simpl in Hs', Hm'. rewrite andb_true_r in Hm'.
           assert (is_Some (match_at r (Cursor p pv (x :: s)))) as [? Hy].
           { eapply match_at_complete; simpl; eauto. }
           congruence.
        -- simpl in Hs'. inversion Hs'; subst y.
           apply (Hleft pre' u' post'); auto.
           ++ simpl in Hlen. lia.
           ++ simpl. rewrite andb_false_r in Hm'.
              rewrite last_char_cons in Hm'. exact Hm'.
Qed.

Lemma search_from_none r s : forall p pv,
  search_from r p pv s = None ->
  forall pre u post,
    s = pre ++ u ++ post ->
    ~ matches r ((p =? 0) && bool_decide (pre = [])) (last_char pv pre) u post.
Proof.
  induction s as [|x s IH]; intros p pv H pre u post Hs Hm; simpl in H;
    destruct (match_at r (Cursor p pv _)) as [m'|] eqn:E; try discriminate.
  - destruct pre; [|discriminate]. simpl in Hs, Hm.
    rewrite andb_true_r in Hm.
    assert (is_Some (match_at r (Cursor p pv []))) as [? Hy]
      by (eapply match_at_complete; simpl; eauto).
    congruence.
  - destruct pre as [|y pre].
    + simpl in Hs, Hm. rewrite andb_true_r in Hm.
      assert (is_Some (match_at r (Cursor p pv (x :: s)))) as [? Hy]
        by (eapply match_at_complete; simpl; eauto).
      congruence.
    + simpl in Hs. inversion Hs; subst y.
      apply (IH (S p) (Some x) H pre u post); auto.
      simpl. rewrite andb_false_r in Hm. rewrite last_char_cons in Hm.
      exact Hm.
Qed.

(** [re.search] finds a match exactly when the pattern occurs. *)
Theorem search_occurs r s : is_Some (search r s) <-> occurs r s.
Proof.
  unfold search, occurs. split.
  - intros [m H]. apply search_from_sound in H.
    destruct H as (pre & u & post & Hs & Hm & _).
    exists pre, u, post. auto.
  - intros (pre & u & post & Hs & Hm).
    destruct (search_from r 0 None s) eqn:E; [eexists; reflexivity|].
    exfalso. eapply search_from_none; eauto.
Qed.

Lemma matches_alt rs first pv u after :
  matches (alt rs) first pv u after <->
  exists r, In r rs /\ matches r first pv u after.
Proof.
  induction rs as [|r rs IH]; simpl.
  - split.
    + intros H. inversion H; subst. discriminate.
    + intros (r & [] & _).
  - destruct rs as [|r' rs].
    + split.
      * intros H. exists r. auto.
      * intros (r0 & [<-|[]] & H). exact H.
    + split.
      * intros H. inversion H as [| | | | | |? ? ? ? ? ? Hl|? ? ? ? ? ? Hr| | |]; subst.
        -- exists r. auto.
        -- apply IH in Hr. destruct Hr as (r0 & Hin & Hm). exists r0. auto.
      * intros (r0 & [<-|Hin] & Hm).
        -- apply M_alt_l. exact Hm.
        -- apply M_alt_r. apply IH. exists r0. auto.
Qed.

Theorem occurs_alt rs s :
  occurs (alt rs) s <-> exists r, In r rs /\ occurs r s.
Proof.
  unfold occurs. split.
  - intros (pre & u & post & Hs & Hm). apply matches_alt in Hm.
    destruct Hm as (r & Hin & Hm). exists r. split; auto.
    exists pre, u, post. auto.
  - intros (r & Hin & pre & u & post & Hs & Hm).
    exists pre, u, post. split; auto. apply matches_alt. exists r. auto.
Qed.

End ReFacts.

Module StrFacts.
Import Str.

Lemma eqc_true a b : eqc a b = true <-> a = b.
Proof. unfold eqc. apply Ascii.eqb_eq. Qed.

Lemma eqc_refl a : eqc a a = true.
Proof. apply eqc_true. reflexivity. Qed.

Lemma isword_lower c : isword (lower_char c) = isword c.
Proof.
  destruct c as [[] [] [] [] [] [] [] []]; vm_compute; reflexivity.
Qed.

Lemma startswith_app p s : startswith p (p ++ s) = true.
Proof. induction p; simpl; auto. rewrite eqc_refl. auto. Qed.

Lemma startswith_true p s :
  startswith p s = true <-> exists post, s = p ++ post.
Proof.
  split.
  - revert s. induction p as [|a p IH]; intros s H.
    + exists s. reflexivity.
    + destruct s as [|b s]; simpl in H; [discriminate|].
      apply andb_true_iff in H. destruct H as [Hab H].
      apply eqc_true in Hab. subst b.
      destruct (IH _ H) as [post ->]. exists post. reflexivity.
  - intros [post ->]. apply startswith_app.
Qed.

(** [sub in s] holds exactly when [s] is [pre ++ sub ++ post]. *)
Lemma contains_true sub s :
  contains sub s = true <-> exists pre post, s = pre ++ sub ++ post.
Proof.
  split.
  - induction s as [|x s IH]; simpl; intros H.
    + rewrite orb_false_r in H. apply startswith_true in H.
      destruct H as [post H]. exists [], post. exact H.
    + apply orb_true_iff in H. destruct H as [H|H].
      * apply startswith_true in H. destruct H as [post H].
        exists [], post. exact H.
      * destruct (IH H) as (pre & post & ->). exists (x :: pre), post.
        reflexivity.
  - intros (pre & post & ->). induction pre as [|x pre IH].
    + simpl app. pose proof (startswith_app sub post) as H.
      destruct (sub ++ post); simpl; rewrite H; reflexivity.
    + simpl. rewrite IH. apply orb_true_r.
Qed.

Lemma contains_nil s : contains [] s = true.
Proof. destruct s; reflexivity. Qed.

End StrFacts.

Module PatternFacts.
Import Re ReFacts StrFacts.

Lemma matches_seq_cons r rs first pv (u1 u2 after : str) :
  matches r first pv u1 (u2 ++ after) ->
  matches (seq rs) (first && bool_decide (u1 = [])) (last_char pv u1) u2 after ->
  matches (seq (r :: rs)) first pv (u1 ++ u2) after.
Proof.
  intros H1 H2. destruct rs as [|r' rs].
  - simpl in *. inversion H2; subst. rewrite app_nil_r. exact H1.
  - change (seq (r :: r' :: rs)) with (Cat r (seq (r' :: rs))).
    constructor; assumption.
Qed.

Lemma matches_seq_inv r rs first pv (u after : str) :
  matches (seq (r :: rs)) first pv u after ->
  exists u1 u2,
    u = u1 ++ u2 /\
    matches r first pv u1 (u2 ++ after) /\
    matches (seq rs) (first && bool_decide (u1 = [])) (last_char pv u1) u2 after.
Proof.
  destruct rs as [|r' rs].
  - simpl. intros H. exists u, []. rewrite app_nil_r. repeat split; auto.
    constructor.
  - change (seq (r :: r' :: rs)) with (Cat r (seq (r' :: rs))).
    intros H. inversion H; subst. eauto.
Qed.

Lemma matches_chr p first pv (u after : str) :
  matches (Chr p) first pv u after <-> exists x, u = [x] /\ p x = true.
Proof.
  split.
  - intros H. inversion H; subst. eauto.
  - intros (x & -> & H). constructor. exact H.
Qed.

(** A literal under IGNORECASE matches the texts equal to it up to
    case. *)
Lemma matches_text_i (w : str) : forall first pv (u after : str),
  Str.lower u = Str.lower w ->
  matches (text_i w) first pv u after.
Proof.
  unfold text_i. induction w as [|a w IH]; intros first pv u after H.
  - destruct u; [|discriminate]. constructor.
  - destruct u as [|b u]; [discriminate|]. simpl in H.
    injection H as Hb Hu.
    change (b :: u) with ([b] ++ u). simpl map.
    apply matches_seq_cons.
    + constructor. rewrite Hb. apply eqc_refl.
    + apply IH. exact Hu.
Qed.

Lemma text_i_inv (w : str) : forall first pv (u after : str),
  matches (text_i w) first pv u after -> Str.lower u = Str.lower w.
Proof.
  unfold text_i. induction w as [|a w IH]; intros first pv u after H.
  - simpl in H. inversion H; subst. reflexivity.
  - simpl map in H. apply matches_seq_inv in H.
    destruct H as (u1 & u2 & -> & H1 & H2).
    apply matches_chr in H1. destruct H1 as (x & -> & Hx).
    apply eqc_true in Hx. simpl. rewrite Hx. f_equal. eapply IH; eauto.
Qed.

Lemma isword_head_lower (u w : str) :
  Str.lower u = Str.lower w ->
  isword_opt (head u) = isword_opt (head w).
Proof.
  destruct u as [|a u], w as [|b w]; simpl; try discriminate; auto.
  intros H. injection H as Hab _.
  rewrite <- (isword_lower a), <- (isword_lower b), Hab. reflexivity.
Qed.

Lemma isword_last_lower pv (u w : str) :
  Str.lower u = Str.lower w ->
  isword_opt (last_char pv u) = isword_opt (last_char pv w).
Proof.
  intros H. unfold last_char.
  assert (Hr : Str.lower (rev u) = Str.lower (rev w)).
  { unfold Str.lower in *. rewrite !map_rev, H. reflexivity. }
  destruct (rev u) as [|a u'], (rev w) as [|b w']; simpl in *;
    try discriminate; auto.
  injection Hr as Hab _.
  rewrite <- (isword_lower a), <- (isword_lower b), Hab. reflexivity.
Qed.

(** [\b(...|w|...)\b] finds a whole word [w] whose first and last
    characters are word characters. *)
Lemma words_whole_word (ws : list string) (w : string) (name : str) :
  In w ws ->
  isword_opt (head (py w)) = true ->
  isword_opt (last_char None (py w)) = true ->
  whole_word w name ->
  occurs (words ws) name.
Proof.
  intros Hin Hh Hl (pre & u & post & -> & Hu & Hpre & Hpost).
  exists pre, u, post. split; [reflexivity|].
  unfold words.
  assert (Hne : u <> []).
  { intros ->. destruct (py w); [discriminate Hh|discriminate Hu]. }
  change u with ([] ++ u).
  apply matches_seq_cons.
  { constructor. unfold at_boundary. rewrite Hpre.
    replace (head (u ++ post)) with (head u) by (destruct u; [congruence|reflexivity]).
    rewrite (isword_head_lower u w Hu), Hh. reflexivity. }
  simpl last_char. rewrite <- (app_nil_r u).
  apply matches_seq_cons.
  { apply matches_alt. exists (text_i w). split.
    - apply (in_map (fun w : string => text_i w)). exact Hin.
    - apply matches_text_i. exact Hu. }
  simpl. constructor. unfold at_boundary. rewrite last_char_nil.
  assert (Hlast : isword_opt (last_char (last_char None pre) u) = true).
  { unfold last_char at 1. destruct (rev u) eqn:E.
    - apply (f_equal (@rev _)) in E. rewrite rev_involutive in E.
      simpl in E. congruence.
    - pose proof (isword_last_lower None u w Hu) as H.
      unfold last_char in H at 1. rewrite E in H. rewrite H. exact Hl. }
  rewrite Hlast, Hpost. reflexivity.
Qed.

Lemma text_i_contains (w : string) (name : str) :
  contains_nocase w name -> occurs (text_i w) name.
Proof.
  intros (pre & u & post & -> & Hu).
  exists pre, u, post. split; [reflexivity|]. apply matches_text_i. exact Hu.
Qed.

Lemma occurs_digit (name : str) :
  occurs digit name <-> exists c, In c name /\ Str.isdecimal c = true.
Proof.
  split.
  - intros (pre & u & post & -> & H). apply matches_chr in H.
    destruct H as (x & -> & Hx). exists x. split; auto.
    apply in_or_app. right. left. reflexivity.
  - intros (c & Hin & Hc). apply in_split in Hin.
    destruct Hin as (pre & post & ->). exists pre, [c], post.
    split; [reflexivity|]. constructor. exact Hc.
Qed.

End PatternFacts.

Module ClassifierFacts.
Import Re ReFacts StrFacts PatternFacts.

Lemma has_cue_search (name : str) :
  has_cue name <-> is_Some (search (alt company_patterns) name).
Proof. unfold has_cue. rewrite search_occurs, occurs_alt. reflexivity. Qed.

Lemma indicators_structure (name : str) :
  any (company_indicators name) = true <-> has_structure name.
Proof.
  unfold any, company_indicators, has_structure, id. simpl.
  rewrite !orb_true_iff, !Nat.ltb_lt, bool_decide_eq_true.
  rewrite search_occurs, occurs_digit. intuition discriminate.
Qed.

(** The classifier is the disjunction of the signals. *)
Lemma is_company_true (name : str) :
  is_company name = true <-> has_cue name \/ has_structure name.
Proof.
  unfold is_company. rewrite has_cue_search, <- indicators_structure.
  destruct (bool_decide (is_Some (search (alt company_patterns) name))) eqn:E.
  - apply bool_decide_eq_true in E. tauto.
  - apply bool_decide_eq_false in E. tauto.
Qed.

Lemma is_company_false (name : str) :
  is_company name = false <-> ~ has_cue name /\ ~ has_structure name.
Proof.
  rewrite <- not_true_iff_false, is_company_true. tauto.
Qed.

Lemma cue_llc_inc (w : string) (name : str) :
  In w ["llc"; "inc"; "corp"; "ltd"; "llp"; "lp"; "plc"]%string ->
  whole_word w name -> has_cue name.
Proof.
  intros Hin Hw. eexists. split; [left; reflexivity|].
  apply (words_whole_word _ w); auto;
    simpl in Hin; intuition (subst; reflexivity).
Qed.

Lemma cue_bank (name : str) : whole_word "bank"%string name -> has_cue name.
Proof.
  intros Hw. eexists. split; [do 6 right; left; reflexivity|].
  apply (words_whole_word _ "bank"%string); auto. left; reflexivity.
Qed.

Lemma cue_john_doe (name : str) :
  contains_nocase "john doe"%string name -> has_cue name.
Proof.
  intros Hc. exists (text_i "john doe"%string). split.
  - unfold company_patterns. do 30 right. left. reflexivity.
  - apply text_i_contains. exact Hc.
Qed.

Lemma whole_word_case (w w' name : str) :
  Str.lower w = Str.lower w' -> whole_word w name -> whole_word w' name.
Proof.
  intros H (pre & u & post & ? & Hu & ? & ?).
  exists pre, u, post. rewrite <- H. auto.
Qed.

Lemma contains_nocase_case (w w' name : str) :
  Str.lower w = Str.lower w' -> contains_nocase w name -> contains_nocase w' name.
Proof.
  intros H (pre & u & post & ? & Hu).
  exists pre, u, post. rewrite <- H. auto.
Qed.

End ClassifierFacts.

Import Re ReFacts StrFacts PatternFacts ClassifierFacts.

(** C2 (amended). [is_company] holds exactly when a cue of the catalogue
    occurs in the name, case apart, or one of the four structural
    heuristics holds, and fails otherwise.  A name holding LLC, Inc or
    Bank as a whole word, or John Doe anywhere, or more than four
    words, is an organization; a name of two words with no digit,
    ampersand or comma and no cue is an individual. *)
Theorem is_company_signals (name : str) :
  (is_company name = true <-> has_cue name \/ has_structure name) /\
  (is_company name = false <-> ~ has_cue name /\ ~ has_structure name) /\
  (whole_word "LLC"%string name \/ whole_word "Inc"%string name \/
   whole_word "Bank"%string name \/ contains_nocase "John Doe"%string name \/
   4 < length (Str.split_ws name) ->
   is_company name = true) /\
  (length (Str.split_ws name) = 2 ->
   (forall c, In c name -> Str.isdecimal c = false) ->
   Str.count "&" name = 0 -> Str.count "," name = 0 ->
   ~ has_cue name ->
   is_company name = false).
Proof.
  split; [apply is_company_true|]. split; [apply is_company_false|]. split.
  - intros H. apply is_company_true.
    destruct H as [H|[H|[H|[H|H]]]].
    + left. apply (cue_llc_inc "llc"%string); [simpl; auto|].
      revert H. apply whole_word_case. reflexivity.
    + left. apply (cue_llc_inc "inc"%string); [simpl; auto|].
      revert H. apply whole_word_case. reflexivity.
    + left. apply cue_bank. revert H. apply whole_word_case. reflexivity.
    + left. apply cue_john_doe. revert H. apply contains_nocase_case. reflexivity.
    + right. unfold has_structure. tauto.
  - intros Hw Hd Ha Hc Hcue. apply is_company_false. split; [exact Hcue|].
    unfold has_structure. intros [H|[H|[(c & Hin & Hdc)|H]]]; try lia.
    rewrite (Hd c Hin) in Hdc. discriminate.
Qed.

Module CaseFacts.
Import Re ReFacts StrFacts PatternFacts.

Lemma matches_plain r first pv u after :
  matches r first pv u after ->
  plain r = true ->
  forall first' pv' after', matches r first' pv' u after'.
Proof.
  induction 1; simpl; intros Hp first' pv' after';
    try discriminate; try (apply andb_true_iff in Hp; destruct Hp);
    try solve [econstructor; eauto].
Qed.

Lemma advance_cons c d (r ds after : str) :
  advance (Cursor (S (pos c)) (Some d) r) ds after = advance c (d :: ds) after.
Proof.
  unfold advance. simpl. rewrite (last_char_cons (prev c)). f_equal. lia.
Qed.

Lemma star_loop_S {A : Type} body (k : cursor -> caps -> option A) n c g :
  star_loop body k (S n) c g =
  match
    body c g
      (fun c' g' => if pos c <? pos c' then star_loop body k n c' g' else None)
  with
  | Some x => Some x
  | None => k c g
  end.
Proof. reflexivity. Qed.

Lemma run_chr {A : Type} p c g (k : cursor -> caps -> option A) :
  run (Chr p) c g k =
  match rest c with
  | x :: tl => if p x then k (Cursor (S (pos c)) (Some x) tl) g else None
  | [] => None
  end.
Proof. reflexivity. Qed.

(** The greedy loop over a class of characters runs to the end of
    the run of such characters when what follows matches there. *)
Lemma star_chr_greedy {A : Type} (p : ascii -> bool)
    (k : cursor -> caps -> option A) (after : str) (x : A) :
  (forall a, head after = Some a -> p a = false) ->
  forall (ds : str) n c g,
    rest c = ds ++ after ->
    Forall (fun a => p a = true) ds ->
    k (advance c ds after) g = Some x ->
    length ds <= n ->
    star_loop (run (Chr p)) k n c g = Some x.
Proof.
  intros Hafter ds. induction ds as [|d ds IH]; intros n c g Hr Hds Hk Hn.
  - simpl in Hr. rewrite <- Hr, advance_nil in Hk.
    destruct n; simpl; [exact Hk|].
    rewrite Hr in *. destruct after as [|a after']; [exact Hk|].
    rewrite (Hafter a eq_refl). exact Hk.
  - destruct n as [|n]; [simpl in Hn; lia|].
    inversion Hds as [|? ? Hd Hds']; subst.
    assert (E : star_loop (run (Chr p)) k n
                  (Cursor (S (pos c)) (Some d) (ds ++ after)) g = Some x).
    { apply IH; auto.
      - rewrite advance_cons. exact Hk.
      - simpl in Hn. lia. }
    rewrite star_loop_S, run_chr, Hr. cbn [app]. cbv iota. rewrite Hd. cbn [pos].
    replace (pos c <? S (pos c)) with true by (symmetry; apply Nat.ltb_lt; lia).
    rewrite E. reflexivity.
Qed.

Lemma at_eol_cases (after : str) :
  at_eol after = true <-> after = [] \/ after = [Str.newline].
Proof.
  destruct after as [|a [|b after]]; simpl.
  - tauto.
  - rewrite eqc_true. split; [intros ->; auto | intros [H|H]; congruence].
  - split; [discriminate | intros [H|H]; discriminate].
Qed.

Lemma firstn_length_app {X : Type} (n : nat) (l l' : list X) :
  n = length l -> firstn n (l ++ l') = l.
Proof.
  intros ->. rewrite firstn_app, Nat.sub_diag, firstn_all. simpl.
  apply app_nil_r.
Qed.

(** What [re.match] returns on a text of the shape of a case number. *)
Lemma case_match_shape y1 y2 t1 t2 d (ds after : str) :
  Str.isdecimal y1 = true -> Str.isdecimal y2 = true ->
  Str.isupper_ascii t1 = true -> Str.isupper_ascii t2 = true ->
  Str.isdecimal d = true -> Forall (fun c => Str.isdecimal c = true) ds ->
  at_eol after = true ->
  exists m,
    re_match case_pattern (y1 :: y2 :: t1 :: t2 :: d :: ds ++ after) = Some m /\
    group m 1 = [y1; y2] /\ group m 2 = [t1; t2] /\ group m 3 = d :: ds.
Proof.
  intros Hy1 Hy2 Ht1 Ht2 Hd Hds Heol.
  eexists. split.
  - unfold re_match, match_at, case_pattern, start, Plus, digit.
    cbn [seq Rep run rest pos prev Nat.eqb].
    rewrite Hy1, Hy2, Ht1, Ht2, Hd. cbn [rest pos prev].
    eapply star_chr_greedy with (ds := ds) (after := after).
    + intros a Ha. apply at_eol_cases in Heol.
      destruct Heol as [->| ->]; simpl in Ha; [discriminate|].
      inversion Ha; subst a. reflexivity.
    + reflexivity.
    + exact Hds.
    + cbn [run advance rest pos prev]. rewrite Heol. reflexivity.
    + simpl. rewrite length_app. lia.
  - cbn [group m_caps lookup_cap Nat.eqb default from_option pos rest Nat.sub].
    repeat split.
    + apply (firstn_length_app _ (d :: ds)). simpl. lia.
Qed.

Lemma matches_cat_inv r1 r2 first pv (u after : str) :
  matches (Cat r1 r2) first pv u after ->
  exists u1 u2,
    u = u1 ++ u2 /\
    matches r1 first pv u1 (u2 ++ after) /\
    matches r2 (first && bool_decide (u1 = [])) (last_char pv u1) u2 after.
Proof. intros H. inversion H; subst. eauto. Qed.

Lemma matches_group_inv i r first pv (u after : str) :
  matches (Group i r) first pv u after -> matches r first pv u after.
Proof. intros H. inversion H; subst. auto. Qed.

Lemma matches_eps_inv first pv (u after : str) :
  matches Eps first pv u after -> u = [].
Proof. intros H. inversion H; subst. auto. Qed.

Lemma matches_bol_inv first pv (u after : str) :
  matches Bol first pv u after -> u = [] /\ first = true.
Proof. intros H. inversion H; subst. auto. Qed.

Lemma matches_eol_inv first pv (u after : str) :
  matches Eol first pv u after -> u = [] /\ at_eol after = true.
Proof. intros H. inversion H; subst. auto. Qed.

Lemma matches_star_chr p first pv (u after : str) :
  matches (Star (Chr p)) first pv u after ->
  Forall (fun c => p c = true) u.
Proof.
  intros H. remember (Star (Chr p)) as r eqn:Hr.
  induction H; try discriminate; inversion Hr; subst.
  - constructor.
  - apply Forall_app. split; auto.
    match goal with H : matches (Chr p) _ _ _ _ |- _ =>
      apply matches_chr in H; destruct H as (x & -> & Hx) end.
    repeat constructor. exact Hx.
Qed.

Lemma star_chr_matches p first pv (u after : str) :
  Forall (fun c => p c = true) u ->
  matches (Star (Chr p)) first pv u after.
Proof.
  intros H. revert first pv. induction H as [|x u Hx Hu IH]; intros first pv.
  - constructor.
  - change (x :: u) with ([x] ++ u). apply M_star_cons.
    + discriminate.
    + constructor. exact Hx.
    + apply IH.
Qed.

(** What the case pattern denotes. *)
Lemma case_pattern_inv first pv (u after : str) :
  matches case_pattern first pv u after ->
  exists y1 y2 t1 t2 d ds,
    u = y1 :: y2 :: t1 :: t2 :: d :: ds /\
    Str.isdecimal y1 = true /\ Str.isdecimal y2 = true /\
    Str.isupper_ascii t1 = true /\ Str.isupper_ascii t2 = true /\
    Str.isdecimal d = true /\ Forall (fun c => Str.isdecimal c = true) ds /\
    at_eol after = true.
Proof.
  unfold case_pattern. intros H.
  apply matches_seq_inv in H. destruct H as (u0 & r0 & -> & H0 & H).
  apply matches_bol_inv in H0. destruct H0 as [-> _].
  apply matches_seq_inv in H. destruct H as (u1 & r1 & -> & H1 & H).
  apply matches_seq_inv in H. destruct H as (u2 & r2 & -> & H2 & H).
  apply matches_seq_inv in H. destruct H as (u3 & r3 & -> & H3 & H).
  simpl in H. apply matches_eol_inv in H. destruct H as [-> Heol].
  apply matches_group_inv in H1, H2, H3.
  simpl in H1, H2. unfold Plus in H3.
  apply matches_cat_inv in H1. destruct H1 as (a1 & b1 & -> & Ha1 & H1).
  apply matches_cat_inv in H1. destruct H1 as (a2 & b2 & -> & Ha2 & H1).
  apply matches_eps_inv in H1. subst b2.
  apply matches_cat_inv in H2. destruct H2 as (c1 & e1 & -> & Hc1 & H2).
  apply matches_cat_inv in H2. destruct H2 as (c2 & e2 & -> & Hc2 & H2).
  apply matches_eps_inv in H2. subst e2.
  apply matches_cat_inv in H3. destruct H3 as (d1 & ds & -> & Hd1 & H3).
  apply matches_star_chr in H3.
  apply matches_chr in Ha1, Ha2, Hc1, Hc2, Hd1.
  destruct Ha1 as (y1 & -> & Hy1), Ha2 as (y2 & -> & Hy2).
  destruct Hc1 as (t1 & -> & Ht1), Hc2 as (t2 & -> & Ht2).
  destruct Hd1 as (d & -> & Hd).
  exists y1, y2, t1, t2, d, ds. simpl. rewrite !app_nil_r.
  repeat split; auto.
Qed.

(** [re.match] with the case pattern succeeds on the texts of the
    shape of a case number, a final newline apart, and on no other. *)
Lemma case_match_inv (l : str) m :
  re_match case_pattern l = Some m ->
  exists y1 y2 t1 t2 d ds after,
    l = y1 :: y2 :: t1 :: t2 :: d :: ds ++ after /\
    Str.isdecimal y1 = true /\ Str.isdecimal y2 = true /\
    Str.isupper_ascii t1 = true /\ Str.isupper_ascii t2 = true /\
    Str.isdecimal d = true /\ Forall (fun c => Str.isdecimal c = true) ds /\
    at_eol after = true.
Proof.
  unfold re_match. intros H. apply match_at_sound in H.
  destruct H as (u & after & Hr & Hm & _). simpl in Hr, Hm.
  apply case_pattern_inv in Hm.
  destruct Hm as (y1 & y2 & t1 & t2 & d & ds & -> & ?).
  exists y1, y2, t1, t2, d, ds, after. split; [exact Hr|assumption].
Qed.

Lemma ends_in_space_cons x (l : str) :
  ends_in_space (x :: l) =
  match l with
  | [] => Str.isspace x
  | _ => ends_in_space l
  end.
Proof.
  unfold ends_in_space. rewrite last_char_cons.
  destruct l as [|y l]; [reflexivity|].
  rewrite (last_char_cons (Some x)), (last_char_cons None). reflexivity.
Qed.

Lemma lstrip_head p (s : str) x :
  head (Str.lstrip_by p s) = Some x -> p x = false.
Proof.
  induction s as [|a s IH]; simpl; [discriminate|].
  destruct (p a) eqn:E; auto. simpl. intros H. inversion H; subst. exact E.
Qed.

Lemma strip_ends (s : str) : ends_in_space (Str.strip s) = false.
Proof.
  unfold ends_in_space, Str.strip, Str.rstrip_by, last_char.
  rewrite rev_involutive.
  destruct (Str.lstrip_by Str.isspace (rev _)) as [|x l] eqn:E; [reflexivity|].
  apply (lstrip_head Str.isspace (rev (Str.lstrip_by Str.isspace s))).
  rewrite E. reflexivity.
Qed.

Lemma bracket_nonempty first pv (u after : str) :
  matches bracket_pattern first pv u after -> u <> [].
Proof.
  unfold bracket_pattern. intros H.
  apply matches_seq_inv in H. destruct H as (u1 & r1 & -> & _ & H).
  apply matches_seq_inv in H. destruct H as (u2 & r2 & -> & H2 & _).
  apply matches_chr in H2. destruct H2 as (x & -> & _).
  intros E. apply app_eq_nil in E. destruct E as [_ E]. discriminate.
Qed.

(** White space before a bracket belongs to the match. *)
Lemma bracket_shift first pv (u after : str) x first' pv' :
  Str.isspace x = true ->
  matches bracket_pattern first pv u after ->
  matches bracket_pattern first' pv' (x :: u) after.
Proof.
  unfold bracket_pattern. intros Hx H.
  apply matches_seq_inv in H. destruct H as (u1 & r1 & -> & H1 & H).
  apply matches_star_chr in H1.
  change (x :: u1 ++ r1) with ((x :: u1) ++ r1).
  apply matches_seq_cons.
  - apply star_chr_matches. constructor; assumption.
  - eapply matches_plain; [exact H | reflexivity].
Qed.

Lemma sub_keeps_end (t : str) : forall skip p pv,
  ends_in_space t = false ->
  ends_in_space (sub_from bracket_pattern [] skip p pv t) = false.
Proof.
  induction t as [|x t IH]; intros skip p pv Ht.
  - destruct skip; cbn [sub_from]; [|reflexivity].
    destruct (match_at bracket_pattern (Cursor p pv [])); reflexivity.
  - assert (Ht' : ends_in_space t = false).
    { rewrite ends_in_space_cons in Ht. destruct t; [reflexivity|exact Ht]. }
    destruct skip as [|k]; [|cbn [sub_from]; apply IH; exact Ht'].
    cbn [sub_from].
    destruct (match_at bracket_pattern (Cursor p pv (x :: t))) as [m|] eqn:E.
    + cbn [app]. destruct (m_end m - m_start m) as [|k] eqn:Elen; [|apply IH; exact Ht'].
      exfalso. apply match_at_sound in E.
      destruct E as (u & after & _ & Hm & Hs & He & _).
      apply bracket_nonempty in Hm. destruct u; [congruence|].
      simpl in Hs, He. lia.
    + rewrite ends_in_space_cons.
      destruct (sub_from bracket_pattern [] 0 (S p) (Some x) t) as [|y out] eqn:Eout.
      * destruct (Str.isspace x) eqn:Hx; [|reflexivity]. exfalso.
        destruct t as [|y t'].
        -- rewrite ends_in_space_cons in Ht. congruence.
        -- cbn [sub_from] in Eout.
           destruct (match_at bracket_pattern (Cursor (S p) (Some x) (y :: t')))
             as [m|] eqn:E'; [|discriminate].
           apply match_at_sound in E'.
           destruct E' as (u & after & Hr & Hm & _). simpl in Hr, Hm.
           assert (is_Some (match_at bracket_pattern (Cursor p pv (x :: y :: t'))))
             as [m' Hm'].
           { apply (match_at_complete _ _ (x :: u) after).
             - simpl. rewrite Hr. reflexivity.
             - eapply bracket_shift; eauto. }
           congruence.
      * rewrite <- Eout. apply IH. exact Ht'.
Qed.

Lemma clean_case_end (s : str) : ends_in_space (clean_case s) = false.
Proof. unfold clean_case, sub. apply sub_keeps_end, strip_ends. Qed.

End CaseFacts.

Import Re ReFacts StrFacts PatternFacts CaseFacts.

(** C7. On a string that, brackets removed, is two digits, two capital
    letters and one digit or more, [parse_case_number] returns the
    two digits as the year, the two letters as the case type and the
    remaining digits padded with zeros to seven; on every other
    string it returns [None]. *)
Theorem parse_case_number_spec (s : str) :
  (forall y t ds,
      case_shape (clean_case s) y t ds ->
      parse_case_number s =
      Some {| year := y; case_type := t; sequence := Str.zfill 7 ds;
              original := s |}) /\
  ((forall y t ds, ~ case_shape (clean_case s) y t ds) ->
   parse_case_number s = None).
Proof.
  split.
  - intros y t ds (Hl & Hy & Hyd & Ht & Htu & Hne & Hds).
    destruct y as [|y1 [|y2 [|]]]; try discriminate.
    destruct t as [|t1 [|t2 [|]]]; try discriminate.
    destruct ds as [|d ds]; [congruence|].
    inversion Hyd as [|? ? Hy1 Hyd']; subst. inversion Hyd' as [|? ? Hy2 _]; subst.
    inversion Htu as [|? ? Ht1 Htu']; subst. inversion Htu' as [|? ? Ht2 _]; subst.
    inversion Hds as [|? ? Hd Hds']; subst.
    destruct (case_match_shape y1 y2 t1 t2 d ds [] Hy1 Hy2 Ht1 Ht2 Hd Hds' eq_refl)
      as (m & Hm & G1 & G2 & G3).
    rewrite app_nil_r in Hm. simpl in Hl.
    unfold parse_case_number.
    destruct s as [|c s']; [discriminate Hl|].
    rewrite Hl, Hm, G1, G2, G3. reflexivity.
  - intros Hno. unfold parse_case_number.
    destruct s as [|c s']; [reflexivity|].
    destruct (re_match case_pattern (clean_case (c :: s'))) as [m|] eqn:E;
      [|reflexivity].
    exfalso. apply case_match_inv in E.
    destruct E as (y1 & y2 & t1 & t2 & d & ds & after & Hl & ? & ? & ? & ? & ? & ? & Heol).
    apply at_eol_cases in Heol. destruct Heol as [->| ->].
    + apply (Hno [y1; y2] [t1; t2] (d :: ds)).
      rewrite app_nil_r in Hl. unfold case_shape. rewrite Hl.
      repeat split; auto; discriminate.
    + pose proof (clean_case_end (c :: s')) as Hend. rewrite Hl in Hend.
      change (y1 :: y2 :: t1 :: t2 :: d :: ds ++ [Str.newline])
        with ((y1 :: y2 :: t1 :: t2 :: d :: ds) ++ [Str.newline]) in Hend.
      unfold ends_in_space in Hend. rewrite last_char_snoc in Hend.
      discriminate Hend.
Qed.

Module ProjectorFacts.
Import Re ReFacts StrFacts PatternFacts CaseFacts.

Lemma address_lines_pieces (s : str) :
  address_lines s = pieces line_break_or_bar s.
Proof.
  unfold address_lines, Str.replace_char, line_break_or_bar.
  cbn [py list_ascii_of_string].
  induction s as [|x s IH]; [reflexivity|].
  simpl. destruct (Str.eqc x Str.newline) eqn:E; simpl.
  - rewrite IH. reflexivity.
  - rewrite IH. reflexivity.
Qed.

Lemma pieces_no_bar (s : str) :
  Str.count "|" s = 0 -> pieces line_break_or_bar s = lines_of s.
Proof.
  unfold lines_of, Str.count, line_break_or_bar.
  induction s as [|x s IH]; [reflexivity|].
  simpl. destruct (Str.eqc x "|") eqn:E; simpl; intros H; [discriminate H|].
  rewrite orb_false_r, IH by exact H. reflexivity.
Qed.

Lemma matches_opt_chr p first pv (u after : str) :
  matches (Opt (Chr p)) first pv u after <->
  u = [] \/ exists x, u = [x] /\ p x = true.
Proof.
  unfold Opt. split.
  - intros H. inversion H; subst.
    + right. eapply (proj1 (matches_chr _ _ _ _ _)). eassumption.
    + left. eapply matches_eps_inv. eassumption.
  - intros [->|H].
    + apply M_alt_r. constructor.
    + apply M_alt_l. apply matches_chr. exact H.
Qed.

Lemma matches_rep_chr p n : forall first pv (u after : str),
  matches (Rep n (Chr p)) first pv u after <->
  length u = n /\ Forall (fun c => p c = true) u.
Proof.
  induction n as [|n IH]; intros first pv u after; simpl.
  - split.
    + intros H. apply matches_eps_inv in H. subst. split; auto.
    + intros [H _]. destruct u; [constructor|discriminate].
  - split.
    + intros H. apply matches_cat_inv in H.
      destruct H as (u1 & u2 & -> & H1 & H2).
      apply matches_chr in H1. destruct H1 as (x & -> & Hx).
      apply IH in H2. destruct H2 as [Hl Hf]. simpl. split; auto.
    + intros [Hl Hf]. destruct u as [|x u]; [discriminate|].
      inversion Hf; subst. change (x :: u) with ([x] ++ u).
      constructor.
      * constructor. assumption.
      * apply IH. simpl in Hl. split; auto.
Qed.

Lemma separator_class x :
  (Str.eqc x "-" || Str.eqc x "." || Str.isspace x) = true <->
  x = "-"%char \/ x = "."%char \/ Str.isspace x = true.
Proof. rewrite !orb_true_iff, !eqc_true. tauto. Qed.

Lemma matches_separator first pv (u after : str) :
  matches (Opt phone_separator) first pv u after <-> separator u.
Proof.
  unfold phone_separator, separator. rewrite matches_opt_chr.
  split; (intros [H|(x & Hu & Hx)]; [left; exact H|right; exists x]);
    (split; [exact Hu|apply separator_class; exact Hx]).
Qed.

Lemma matches_paren c first pv (u after : str) :
  matches (Opt (lit c)) first pv u after <-> u = [] \/ u = [c].
Proof.
  unfold lit. rewrite matches_opt_chr. split.
  - intros [H|(x & -> & Hx)]; auto. apply eqc_true in Hx. subst. auto.
  - intros [H|H]; auto. right. exists c. split; auto. apply eqc_refl.
Qed.

(** The phone pattern denotes the telephone numbers. *)
Theorem phone_pattern_shape first pv (u after : str) :
  matches phone_pattern first pv u after <-> phone_shape u.
Proof.
  unfold phone_pattern, phone_shape, digits, digit. split.
  - intros H.
    apply matches_seq_inv in H. destruct H as (o & r0 & -> & H0 & H).
    apply matches_seq_inv in H. destruct H as (a & r1 & -> & H1 & H).
    apply matches_seq_inv in H. destruct H as (c & r2 & -> & H2 & H).
    apply matches_seq_inv in H. destruct H as (s1 & r3 & -> & H3 & H).
    apply matches_seq_inv in H. destruct H as (b & r4 & -> & H4 & H).
    apply matches_seq_inv in H. destruct H as (s2 & r5 & -> & H5 & H).
    cbn [seq] in H.
    apply matches_paren in H0, H2. apply matches_separator in H3, H5.
    apply matches_rep_chr in H1, H4, H.
    exists o, a, c, s1, b, s2, r5. repeat split; tauto.
  - intros (o & a & c & s1 & b & s2 & e & -> & Ho & Ha & Hc & Hs1 & Hb & Hs2 & He).
    apply matches_seq_cons; [apply matches_paren; exact Ho|].
    apply matches_seq_cons; [apply matches_rep_chr; exact Ha|].
    apply matches_seq_cons; [apply matches_paren; exact Hc|].
    apply matches_seq_cons; [apply matches_separator; exact Hs1|].
    apply matches_seq_cons; [apply matches_rep_chr; exact Hb|].
    apply matches_seq_cons; [apply matches_separator; exact Hs2|].
    cbn [seq]. apply matches_rep_chr. exact He.
Qed.

Lemma pieces_cons p (s : str) : exists first others, pieces p s = first :: others.
Proof.
  destruct s as [|x s]; simpl; [eauto|].
  destruct (p x); [eauto|]. destruct (pieces p s); eauto.
Qed.

(** The phone the projector keeps is a telephone number standing at
    the leftmost place of the block where one stands. *)
Lemma search_phone (addr : str) :
  match search phone_pattern addr with
  | Some m =>
      exists pre post,
        addr = pre ++ group m 0 ++ post /\ phone_shape (group m 0) /\
        forall pre' u' post',
          addr = pre' ++ u' ++ post' -> length pre' < length pre ->
          ~ phone_shape u'
  | None => forall pre u post, addr = pre ++ u ++ post -> ~ phone_shape u
  end.
Proof.
  unfold search. destruct (search_from phone_pattern 0 None addr) as [m|] eqn:E.
  - apply search_from_sound in E.
    destruct E as (pre & u & post & Hs & Hm & _ & _ & Ht & Hleft).
    exists pre, post. simpl. rewrite Ht. split; [exact Hs|]. split.
    + eapply phone_pattern_shape. exact Hm.
    + intros pre' u' post' Hs' Hlen Hu'.
      apply (Hleft pre' u' post' Hs' Hlen).
      apply phone_pattern_shape. exact Hu'.
  - intros pre u post Hs Hu.
    apply (search_from_none _ _ _ _ E pre u post Hs).
    apply phone_pattern_shape. exact Hu.
Qed.

End ProjectorFacts.

Import Re ReFacts StrFacts PatternFacts CaseFacts ProjectorFacts.

(** C8 (amended). With a non-empty [service_attorney_address], the
    block is cut at every line break and every vertical bar (these
    are its lines when it holds no bar); the firm is the first piece
    and the address the other pieces joined by one space, each with
    the white space around it removed; the phone is a telephone number
    standing at the leftmost place of the block where one stands, and
    is empty when none stands anywhere. *)
Theorem project_attorney_block (defendants : list str) (main : str)
    (d : ServiceRecord) :
  get d "service_attorney_address"%string <> [] ->
  (exists first others,
      pieces line_break_or_bar (get d "service_attorney_address"%string)
      = first :: others /\
      (Str.count "|" (get d "service_attorney_address"%string) = 0 ->
       lines_of (get d "service_attorney_address"%string) = first :: others) /\
      attorney_firm (project_service main d (fresh defendants main))
      = Str.strip first /\
      attorney_address (project_service main d (fresh defendants main))
      = match others with
        | [] => []
        | _ => Str.strip (Str.join " "%string others)
        end) /\
  ((exists pre post,
       get d "service_attorney_address"%string
       = pre ++ attorney_phone (project_service main d (fresh defendants main))
             ++ post /\
       phone_shape (attorney_phone (project_service main d (fresh defendants main))) /\
       forall pre' u' post',
         get d "service_attorney_address"%string = pre' ++ u' ++ post' ->
         length pre' < length pre -> ~ phone_shape u') \/
   (attorney_phone (project_service main d (fresh defendants main)) = [] /\
    forall pre u post,
      get d "service_attorney_address"%string = pre ++ u ++ post ->
      ~ phone_shape u)).
Proof.
  intros Hne. unfold project_service. cbn [attorney_firm attorney_address attorney_phone].
  rewrite (bool_decide_eq_false_2 _ Hne). cbn [negb].
  rewrite address_lines_pieces.
  destruct (pieces_cons line_break_or_bar (get d "service_attorney_address"%string))
    as (first & others & Hp).
  split.
  - exists first, others. rewrite Hp. split; [reflexivity|]. split.
    + intros Hbar. rewrite <- pieces_no_bar by exact Hbar. exact Hp.
    + split; [reflexivity|]. destruct others; reflexivity.
  - pose proof (search_phone (get d "service_attorney_address"%string)) as H.
    destruct (search phone_pattern (get d "service_attorney_address"%string)) as [m|].
    + left. exact H.
    + right. split; [reflexivity|exact H].
Qed.

Module MonadFacts.

Lemma total_ret {S A : Type} (a : A) : total (ret (S := S) a).
Proof. intros s. exists a, s. reflexivity. Qed.

Lemma total_bind {S A B : Type} (m : M S A) (f : A -> M S B) :
  total m -> (forall a, total (f a)) -> total (bind m f).
Proof.
  intros Hm Hf s. unfold bind. destruct (Hm s) as (a & s' & ->). apply Hf.
Qed.

Lemma total_try {S A : Type} (m : M S A) (h : str -> M S A) :
  (forall e, total (h e)) -> total (try_except m h).
Proof.
  intros Hh s. unfold try_except. destruct (m s) as [[a|e] s'].
  - exists a, s'. reflexivity.
  - apply Hh.
Qed.

Lemma total_with_local {S L A : Type} (init : L) (m : M (S * L) A) :
  total m -> total (with_local init m).
Proof.
  intros Hm s. unfold with_local.
  destruct (Hm (s, init)) as (a & [s' l] & ->). exists a, s'. reflexivity.
Qed.

Lemma total_get_local {S L : Type} : total (@get_local S L).
Proof. intros s. exists (snd s), s. reflexivity. Qed.

Lemma total_modify_local {S L : Type} (f : L -> L) :
  total (@modify_local S L f).
Proof. intros s. eexists _, _. reflexivity. Qed.

Lemma total_lift {S L A : Type} (m : M S A) :
  total m -> total (lift (L := L) m).
Proof.
  intros Hm [s l]. unfold lift. simpl.
  destruct (Hm s) as (a & s' & ->). eexists _, _. reflexivity.
Qed.

End MonadFacts.

Section ResolverFacts.

Import MonadFacts.
Context {D W : Type} (driver : WebDriver D W).

Lemma extract_total row service_type :
  total (extract_service_details_fast driver row service_type).
Proof.
  unfold extract_service_details_fast. apply total_try.
  intros e. apply total_ret.
Qed.

(** A cycle that raises gives no record. *)
Lemma extract_fault row service_type d e d' :
  expand_read_collapse driver row service_type d = (Raised e, d') ->
  extract_service_details_fast driver row service_type d = (Ok None, d').
Proof.
  intros H. unfold extract_service_details_fast, try_except.
  rewrite H. reflexivity.
Qed.

Lemma extract_ok row service_type d o d' :
  expand_read_collapse driver row service_type d = (Ok o, d') ->
  extract_service_details_fast driver row service_type d = (Ok o, d').
Proof.
  intros H. unfold extract_service_details_fast, try_except.
  rewrite H. reflexivity.
Qed.

(** The record read from a candidate is never empty: it holds the
    delivery method at least. *)
Lemma read_rows_nonempty rows : forall acc d r d',
  acc <> ∅ ->
  read_detail_rows driver rows acc d = (Ok r, d') -> r <> ∅.
Proof.
  induction rows as [|row rows IH]; intros acc d r d' Hacc; cbn [read_detail_rows].
  - intros H. inversion H; subst. exact Hacc.
  - unfold bind at 1.
    destruct (el_find_elements driver row TAG_NAME _ d) as [[cells|e] d1];
      [|discriminate].
    destruct cells as [|c0 [|c1 cells]]; try (apply IH; exact Hacc).
    unfold bind at 1. destruct (el_text driver c0 d1) as [[t0|e] d2]; [|discriminate].
    unfold bind at 1. destruct (el_text driver c1 d2) as [[t1|e] d3]; [|discriminate].
    destruct (Str.replace_char _ _ _); apply IH; [exact Hacc|].
    apply insert_non_empty.
Qed.

Lemma extract_nonempty row service_type d found d' :
  extract_service_details_fast driver row service_type d = (Ok (Some found), d') ->
  found <> ∅.
Proof.
  unfold extract_service_details_fast, try_except, expand_read_collapse.
  unfold bind at 1.
  destruct (el_find_element driver row XPATH _ d) as [[img|e] d1];
    [|discriminate].
  unfold bind at 1.
  destruct (el_get_attribute driver img _ d1) as [[doc_id|e] d2]; [|discriminate].
  unfold bind at 1.
  destruct (doc_num_of doc_id d2) as [[doc_num|e] d3]; [|discriminate].
  unfold bind at 1.
  destruct (el_click driver img d3) as [[[]|e] d4]; [|discriminate].
  unfold bind at 1, sleep at 1.
  unfold bind at 1.
  destruct (wait_presence driver 3 ID _ _) as [[table|e] d5]; [|discriminate].
  unfold bind at 1.
  destruct (el_find_elements driver table TAG_NAME _ d5) as [[rows|e] d6];
    [|discriminate].
  unfold bind at 1.
  destruct (read_detail_rows driver rows _ d6) as [[r|e] d7] eqn:E; [|discriminate].
  apply read_rows_nonempty in E; [|apply insert_non_empty].
  unfold bind at 1.
  destruct (el_click driver img d7) as [[[]|e] d8]; [|discriminate].
  unfold bind at 1, sleep at 1, ret.
  intros H. inversion H; subst. exact E.
Qed.

Lemma usable_extracted row service_type d o d' :
  extract_service_details_fast driver row service_type d = (Ok o, d') ->
  usable o = o.
Proof.
  intros H. destruct o as [found|]; [|reflexivity].
  apply extract_nonempty in H. unfold usable, truthy.
  rewrite bool_decide_eq_true_2 by exact H. reflexivity.
Qed.

Lemma main_scan_cons row rows service_type main d :
  main_defendant_scan driver (row :: rows) service_type main d =
  match extract_service_details_fast driver row service_type d with
  | (Ok o, d') =>
      match hit (primary_test main) o with
      | Some found => (Ok (Some found), d')
      | None => main_defendant_scan driver rows service_type main d'
      end
  | (Raised _, d') => main_defendant_scan driver rows service_type main d'
  end.
Proof.
  cbn [main_defendant_scan]. unfold bind at 1. unfold try_except at 1.
  unfold bind at 1.
  destruct (extract_service_details_fast driver row service_type d)
    as [[o|e] d']; [|reflexivity].
  unfold hit, primary_test. destruct (usable o) as [rec|]; [|reflexivity].
  destruct (names_match main (get rec "service_name"%string)); reflexivity.
Qed.

Lemma human_scan_cons row rows service_type d :
  human_defendant_scan driver (row :: rows) service_type d =
  match extract_service_details_fast driver row service_type d with
  | (Ok o, d') =>
      match hit fallback_test o with
      | Some found => (Ok (Some found), d')
      | None => human_defendant_scan driver rows service_type d'
      end
  | (Raised _, d') => human_defendant_scan driver rows service_type d'
  end.
Proof.
  cbn [human_defendant_scan]. unfold bind at 1. unfold try_except at 1.
  unfold bind at 1.
  destruct (extract_service_details_fast driver row service_type d)
    as [[o|e] d']; [|reflexivity].
  unfold hit, fallback_test. destruct (usable o) as [rec|]; [|reflexivity].
  destruct (get rec "service_name"%string) as [|c n] eqn:E; [reflexivity|].
  rewrite bool_decide_eq_false_2 by discriminate. cbn [negb andb].
  destruct (negb (is_company (c :: n))); reflexivity.
Qed.

Lemma main_scan_total rows st main :
  total (main_defendant_scan driver rows st main).
Proof.
  induction rows as [|row rows IH]; intros d.
  - exists None, d. reflexivity.
  - rewrite main_scan_cons.
    destruct (extract_total row st d) as (o & d1 & ->).
    destruct (hit (primary_test main) o); [eexists _, _; reflexivity|apply IH].
Qed.

Lemma human_scan_total rows st :
  total (human_defendant_scan driver rows st).
Proof.
  induction rows as [|row rows IH]; intros d.
  - exists None, d. reflexivity.
  - rewrite human_scan_cons.
    destruct (extract_total row st d) as (o & d1 & ->).
    destruct (hit fallback_test o); [eexists _, _; reflexivity|apply IH].
Qed.

Lemma hit_unusable test o : usable o = None -> hit test o = None.
Proof. unfold hit. intros ->. reflexivity. Qed.

Section OneScan.

Variable scan : list W -> M D (option ServiceRecord).
Variable test : ServiceRecord -> bool.
Variable service_type : str.

Hypothesis scan_nil : forall d, scan [] d = (Ok None, d).
Hypothesis scan_cons : forall row rows d,
  scan (row :: rows) d =
  match extract_service_details_fast driver row service_type d with
  | (Ok o, d') =>
      match hit test o with
      | Some found => (Ok (Some found), d')
      | None => scan rows d'
      end
  | (Raised _, d') => scan rows d'
  end.

Lemma scan_misses rows d d' :
  misses driver test service_type rows d d' -> scan rows d = (Ok None, d').
Proof.
  induction 1 as [d|row rows d d1 d2 o He Hh _ IH].
  - apply scan_nil.
  - rewrite scan_cons, He, Hh. exact IH.
Qed.

Lemma scan_first_hit rows d found d' :
  first_hit driver test service_type rows d found d' ->
  scan rows d = (Ok (Some found), d').
Proof.
  intros (before & row & after & d1 & o & -> & Hm & He & Hh).
  induction Hm as [d|r rs d d1 d2 o' He' Hh' _ IH].
  - simpl. rewrite scan_cons, He, Hh. reflexivity.
  - simpl. rewrite scan_cons, He', Hh'. apply IH. exact He.
Qed.

Lemma scan_found rows : forall d found d',
  scan rows d = (Ok (Some found), d') -> found <> ∅.
Proof.
  induction rows as [|row rows IH]; intros d found d'.
  - rewrite scan_nil. discriminate.
  - rewrite scan_cons.
    destruct (extract_service_details_fast driver row service_type d)
      as [[o|e] d1] eqn:E; [|apply IH].
    destruct (hit test o) as [f|] eqn:Hh; [|apply IH].
    intros H. inversion H; subst.
    unfold hit in Hh. rewrite (usable_extracted _ _ _ _ _ E) in Hh.
    destruct o as [f|]; [|discriminate].
    destruct (test f); [|discriminate]. inversion Hh; subst.
    eapply extract_nonempty; eauto.
Qed.

End OneScan.

(** A scan misses every candidate or has a first hit. *)
Lemma scan_cases test service_type rows : forall d,
  (exists d', misses driver test service_type rows d d') \/
  (exists found d', first_hit driver test service_type rows d found d').
Proof.
  induction rows as [|row rows IH]; intros d.
  - left. exists d. constructor.
  - destruct (extract_total row service_type d) as (o & d1 & He).
    destruct (hit test o) as [found|] eqn:Hh.
    + right. exists found, d1, [], row, rows, d, o.
      repeat split; auto. constructor.
    + destruct (IH d1) as [(d' & Hm)|(found & d' & Hf)].
      * left. exists d'. econstructor; eauto.
      * right. exists found, d'.
        destruct Hf as (before & r & after & d2 & o' & -> & Hm & He' & Hh').
        exists (row :: before), r, after, d2, o'. repeat split; auto.
        econstructor; eauto.
Qed.

Lemma main_scan_misses rows st main d d' :
  misses driver (primary_test main) st rows d d' ->
  main_defendant_scan driver rows st main d = (Ok None, d').
Proof.
  apply (scan_misses (fun rows => main_defendant_scan driver rows st main)).
  - reflexivity.
  - intros. apply main_scan_cons.
Qed.

Lemma main_scan_first_hit rows st main d found d' :
  first_hit driver (primary_test main) st rows d found d' ->
  main_defendant_scan driver rows st main d = (Ok (Some found), d').
Proof.
  apply (scan_first_hit (fun rows => main_defendant_scan driver rows st main)).
  intros. apply main_scan_cons.
Qed.

Lemma human_scan_misses rows st d d' :
  misses driver fallback_test st rows d d' ->
  human_defendant_scan driver rows st d = (Ok None, d').
Proof.
  apply (scan_misses (fun rows => human_defendant_scan driver rows st)).
  - reflexivity.
  - intros. apply human_scan_cons.
Qed.

Lemma human_scan_first_hit rows st d found d' :
  first_hit driver fallback_test st rows d found d' ->
  human_defendant_scan driver rows st d = (Ok (Some found), d').
Proof.
  apply (scan_first_hit (fun rows => human_defendant_scan driver rows st)).
  intros. apply human_scan_cons.
Qed.

Lemma search_types_cons st types main d :
  search_service_types driver (st :: types) main d =
  match find_elements driver XPATH (service_xpath st) d with
  | (Ok rows, d0) =>
      match rows with
      | [] => search_service_types driver types main d0
      | _ =>
          match main_defendant_scan driver (firstn 5 rows) st main d0 with
          | (Ok (Some found), d1) => (Ok (Some found), d1)
          | (Ok None, d1) =>
              match human_defendant_scan driver (firstn 5 rows) st d1 with
              | (Ok (Some found), d2) => (Ok (Some found), d2)
              | (Ok None, d2) => search_service_types driver types main d2
              | (Raised e, d2) => (Raised e, d2)
              end
          | (Raised e, d1) => (Raised e, d1)
          end
      end
  | (Raised e, d0) => (Raised e, d0)
  end.
Proof.
  cbn [search_service_types]. unfold bind at 1.
  destruct (find_elements driver XPATH (service_xpath st) d) as [[rows|e] d0];
    [|reflexivity].
  destruct rows as [|r rows]; [reflexivity|].
  unfold bind at 1.
  destruct (main_defendant_scan driver _ st main d0) as [[[found|]|e] d1];
    try reflexivity.
  unfold bind at 1.
  destruct (human_defendant_scan driver _ st d1) as [[[found|]|e] d2];
    reflexivity.
Qed.

Lemma misses_nil_inv test st d d' :
  misses driver test st [] d d' -> d' = d.
Proof. intros H. inversion H; subst. reflexivity. Qed.

Lemma first_hit_nil test st d found d' :
  ~ first_hit driver test st [] d found d'.
Proof.
  intros (before & row & after & d1 & o & H & _).
  destruct before; discriminate.
Qed.

Lemma search_primary_hit st types main d rows d0 found d1 :
  find_elements driver XPATH (service_xpath st) d = (Ok rows, d0) ->
  first_hit driver (primary_test main) st (firstn 5 rows) d0 found d1 ->
  search_service_types driver (st :: types) main d = (Ok (Some found), d1).
Proof.
  intros Hf Hh. rewrite search_types_cons, Hf.
  destruct rows as [|r rows]; [destruct (first_hit_nil _ _ _ _ _ Hh)|].
  rewrite (main_scan_first_hit _ _ _ _ _ _ Hh). reflexivity.
Qed.

Lemma search_fallback_hit st types main d rows d0 d1 found d2 :
  find_elements driver XPATH (service_xpath st) d = (Ok rows, d0) ->
  misses driver (primary_test main) st (firstn 5 rows) d0 d1 ->
  first_hit driver fallback_test st (firstn 5 rows) d1 found d2 ->
  search_service_types driver (st :: types) main d = (Ok (Some found), d2).
Proof.
  intros Hf Hm Hh. rewrite search_types_cons, Hf.
  destruct rows as [|r rows]; [destruct (first_hit_nil _ _ _ _ _ Hh)|].
  rewrite (main_scan_misses _ _ _ _ _ Hm).
  rewrite (human_scan_first_hit _ _ _ _ _ Hh). reflexivity.
Qed.

Lemma search_both_miss st types main d rows d0 d1 d2 :
  find_elements driver XPATH (service_xpath st) d = (Ok rows, d0) ->
  misses driver (primary_test main) st (firstn 5 rows) d0 d1 ->
  misses driver fallback_test st (firstn 5 rows) d1 d2 ->
  search_service_types driver (st :: types) main d =
  search_service_types driver types main d2.
Proof.
  intros Hf Hm1 Hm2. rewrite search_types_cons, Hf.
  destruct rows as [|r rows].
  - apply misses_nil_inv in Hm1, Hm2. subst. reflexivity.
  - rewrite (main_scan_misses _ _ _ _ _ Hm1).
    rewrite (human_scan_misses _ _ _ _ Hm2). reflexivity.
Qed.

Lemma search_found types main : forall d found d',
  search_service_types driver types main d = (Ok (Some found), d') ->
  found <> ∅.
Proof.
  induction types as [|st types IH]; intros d found d'.
  - discriminate.
  - rewrite search_types_cons.
    destruct (find_elements driver XPATH (service_xpath st) d) as [[rows|e] d0];
      [|discriminate].
    destruct rows as [|r rows]; [apply IH|].
    destruct (main_defendant_scan driver _ st main d0) as [[[f|]|e] d1] eqn:E1;
      [| |discriminate].
    + intros H. inversion H; subst.
      apply (scan_found (fun rows => main_defendant_scan driver rows st main)
               (primary_test main) st (fun _ => eq_refl)
               (fun row rows d => main_scan_cons row rows st main d) _ _ _ _ E1).
    + destruct (human_defendant_scan driver _ st d1) as [[[f|]|e] d2] eqn:E2;
        [|apply IH|discriminate].
      intros H. inversion H; subst.
      apply (scan_found (fun rows => human_defendant_scan driver rows st)
               fallback_test st (fun _ => eq_refl)
               (fun row rows d => human_scan_cons row rows st d) _ _ _ _ E2).
Qed.

(** The resolver returns a record that passes [if service_details:]. *)
Lemma resolver_found main d found d' :
  find_proof_of_service_fast driver main d = (Ok (Some found), d') ->
  found <> ∅.
Proof.
  unfold find_proof_of_service_fast, try_except. unfold bind at 1.
  destruct (implicitly_wait driver 2 d) as [[[]|e] d1]; [|discriminate].
  unfold bind at 1.
  destruct (open_docket driver d1) as [[[]|e] d2]; [|discriminate].
  destruct (search_service_types driver service_types main d2)
    as [[r|e] d3] eqn:E; [|discriminate].
  intros H. inversion H; subst. eapply search_found; eauto.
Qed.

Lemma usable_resolved main d r d' :
  find_proof_of_service_fast driver main d = (Ok r, d') -> usable r = r.
Proof.
  intros H. destruct r as [found|]; [|reflexivity].
  apply resolver_found in H. unfold usable, truthy.
  rewrite bool_decide_eq_true_2 by exact H. reflexivity.
Qed.

Lemma resolver_total main : total (find_proof_of_service_fast driver main).
Proof.
  unfold find_proof_of_service_fast. apply total_try.
  intros e. apply total_ret.
Qed.

Lemma open_docket_total : total (open_docket driver).
Proof. unfold open_docket. apply total_try. intros e. apply total_ret. Qed.

Lemma resolver_run main d d1 d2 :
  implicitly_wait driver 2 d = (Ok tt, d1) ->
  open_docket driver d1 = (Ok tt, d2) ->
  find_proof_of_service_fast driver main d =
  match search_service_types driver service_types main d2 with
  | (Ok r, d') => (Ok r, d')
  | (Raised _, d') => (Ok None, d')
  end.
Proof.
  intros H1 H2. unfold find_proof_of_service_fast, try_except, bind.
  rewrite H1, H2. reflexivity.
Qed.

End ResolverFacts.

Import MonadFacts StrFacts.

(** C1. In each delivery-method category the resolver searches in two
    phases over the first five rows in page order.  The primary phase
    returns at once the record of the first candidate whose
    [service_name] and the main defendant contain one another, case
    apart; when it has none, the fallback phase reads the same
    candidates again and returns the first record whose [service_name]
    is not empty and is classified as an individual; when both phases
    of both categories have none, the resolver returns [None].  The
    first clauses state the two tests and the search of one category;
    the last ones state what [find_proof_of_service_fast] itself
    returns: the record of the hit of either phase of either category,
    whatever the search returns, and [None] when all four phases
    miss. *)
Theorem two_phase_search {D W : Type} (driver : WebDriver D W) (main : str) :
  (forall found,
      primary_test main found = true <->
      (exists pre post,
          Str.lower (get found "service_name"%string)
          = pre ++ Str.lower main ++ post) \/
      (exists pre post,
          Str.lower main
          = pre ++ Str.lower (get found "service_name"%string) ++ post)) /\
  (forall found,
      fallback_test found = true <->
      get found "service_name"%string <> [] /\
      is_company (get found "service_name"%string) = false) /\
  (forall st types d rows d0,
      find_elements driver XPATH (service_xpath st) d = (Ok rows, d0) ->
      (forall found d1,
          first_hit driver (primary_test main) st (firstn 5 rows) d0 found d1 ->
          search_service_types driver (st :: types) main d
          = (Ok (Some found), d1)) /\
      (forall d1 found d2,
          misses driver (primary_test main) st (firstn 5 rows) d0 d1 ->
          first_hit driver fallback_test st (firstn 5 rows) d1 found d2 ->
          search_service_types driver (st :: types) main d
          = (Ok (Some found), d2)) /\
      (forall d1 d2,
          misses driver (primary_test main) st (firstn 5 rows) d0 d1 ->
          misses driver fallback_test st (firstn 5 rows) d1 d2 ->
          search_service_types driver (st :: types) main d
          = search_service_types driver types main d2) /\
      ((exists found d1,
           first_hit driver (primary_test main) st (firstn 5 rows) d0 found d1) \/
       (exists d1,
           misses driver (primary_test main) st (firstn 5 rows) d0 d1 /\
           ((exists found d2,
                first_hit driver fallback_test st (firstn 5 rows) d1 found d2) \/
            (exists d2,
                misses driver fallback_test st (firstn 5 rows) d1 d2))))) /\
  (forall d d1 d2 rows1 d3 d4 d5 rows2 d6 d7 d8,
      implicitly_wait driver 2 d = (Ok tt, d1) ->
      open_docket driver d1 = (Ok tt, d2) ->
      find_elements driver XPATH (service_xpath "CERTIFIED MAIL"%string) d2
      = (Ok rows1, d3) ->
      misses driver (primary_test main) "CERTIFIED MAIL"%string (firstn 5 rows1) d3 d4 ->
      misses driver fallback_test "CERTIFIED MAIL"%string (firstn 5 rows1) d4 d5 ->
      find_elements driver XPATH (service_xpath "PROCESS SERVER"%string) d5
      = (Ok rows2, d6) ->
      misses driver (primary_test main) "PROCESS SERVER"%string (firstn 5 rows2) d6 d7 ->
      misses driver fallback_test "PROCESS SERVER"%string (firstn 5 rows2) d7 d8 ->
      find_proof_of_service_fast driver main d = (Ok None, d8)) /\
  (forall d d1 d2 found d3,
      implicitly_wait driver 2 d = (Ok tt, d1) ->
      open_docket driver d1 = (Ok tt, d2) ->
      search_service_types driver service_types main d2 = (Ok found, d3) ->
      find_proof_of_service_fast driver main d = (Ok found, d3)) /\
  (forall d d1 d2 rows1 d3,
      implicitly_wait driver 2 d = (Ok tt, d1) ->
      open_docket driver d1 = (Ok tt, d2) ->
      find_elements driver XPATH (service_xpath "CERTIFIED MAIL"%string) d2
      = (Ok rows1, d3) ->
      (forall found d4,
          first_hit driver (primary_test main) "CERTIFIED MAIL"%string
            (firstn 5 rows1) d3 found d4 ->
          find_proof_of_service_fast driver main d = (Ok (Some found), d4)) /\
      (forall d4 found d5,
          misses driver (primary_test main) "CERTIFIED MAIL"%string
            (firstn 5 rows1) d3 d4 ->
          first_hit driver fallback_test "CERTIFIED MAIL"%string
            (firstn 5 rows1) d4 found d5 ->
          find_proof_of_service_fast driver main d = (Ok (Some found), d5)) /\
      (forall d4 d5 rows2 d6,
          misses driver (primary_test main) "CERTIFIED MAIL"%string
            (firstn 5 rows1) d3 d4 ->
          misses driver fallback_test "CERTIFIED MAIL"%string
            (firstn 5 rows1) d4 d5 ->
          find_elements driver XPATH (service_xpath "PROCESS SERVER"%string) d5
          = (Ok rows2, d6) ->
          (forall found d7,
              first_hit driver (primary_test main) "PROCESS SERVER"%string
                (firstn 5 rows2) d6 found d7 ->
              find_proof_of_service_fast driver main d = (Ok (Some found), d7)) /\
          (forall d7 found d8,
              misses driver (primary_test main) "PROCESS SERVER"%string
                (firstn 5 rows2) d6 d7 ->
              first_hit driver fallback_test "PROCESS SERVER"%string
                (firstn 5 rows2) d7 found d8 ->
              find_proof_of_service_fast driver main d = (Ok (Some found), d8)))).
Proof.
  split; [|split; [|split; [|split; [|split]]]].
  - intros found. unfold primary_test, names_match.
    rewrite orb_true_iff, !contains_true. reflexivity.
  - intros found. unfold fallback_test.
    rewrite andb_true_iff, !negb_true_iff, bool_decide_eq_false. reflexivity.
  - intros st types d rows d0 Hf. repeat split.
    + intros found d1. apply search_primary_hit. exact Hf.
    + intros d1 found d2. apply search_fallback_hit. exact Hf.
    + intros d1 d2. apply search_both_miss. exact Hf.
    + destruct (scan_cases driver (primary_test main) st (firstn 5 rows) d0)
        as [(d1 & Hm)|Hh]; [|left; exact Hh].
      right. exists d1. split; [exact Hm|].
      destruct (scan_cases driver fallback_test st (firstn 5 rows) d1)
        as [Hm2|Hh2]; [right; exact Hm2|left; exact Hh2].
  - intros d d1 d2 rows1 d3 d4 d5 rows2 d6 d7 d8 Hw Ho Hf1 Hp1 Hq1 Hf2 Hp2 Hq2.
    rewrite (resolver_run driver main d d1 d2 Hw Ho). unfold service_types.
    rewrite (search_both_miss driver _ _ _ _ _ _ _ _ Hf1 Hp1 Hq1).
    rewrite (search_both_miss driver _ _ _ _ _ _ _ _ Hf2 Hp2 Hq2).
    reflexivity.
  - intros d d1 d2 found d3 Hw Ho Hs.
    rewrite (resolver_run driver main d d1 d2 Hw Ho), Hs. reflexivity.
  - intros d d1 d2 rows1 d3 Hw Ho Hf1.
    rewrite (resolver_run driver main d d1 d2 Hw Ho). unfold service_types.
    split; [|split].
    + intros found d4 Hh.
      rewrite (search_primary_hit driver _ _ _ _ _ _ _ _ Hf1 Hh). reflexivity.
    + intros d4 found d5 Hm Hh.
      rewrite (search_fallback_hit driver _ _ _ _ _ _ _ _ _ Hf1 Hm Hh).
      reflexivity.
    + intros d4 d5 rows2 d6 Hm1 Hm2 Hf2.
      rewrite (search_both_miss driver _ _ _ _ _ _ _ _ Hf1 Hm1 Hm2).
      split.
      * intros found d7 Hh.
        rewrite (search_primary_hit driver _ _ _ _ _ _ _ _ Hf2 Hh). reflexivity.
      * intros d7 found d8 Hm Hh.
        rewrite (search_fallback_hit driver _ _ _ _ _ _ _ _ _ Hf2 Hm Hh).
        reflexivity.
Qed.

Section ExtractionFacts.

Import MonadFacts.
Context {D W : Type} (driver : WebDriver D W).

(** [extract_attorney_data], call by call. *)
Lemma extract_attorney_data_run d :
  extract_attorney_data driver d =
  let '(t0, d1) := time_time driver d in
  let '(t1, d2) := time_time driver d1 in
  if Qgtb (t1 - t0) TIMEOUT_SECONDS
  then (Ok (set_extraction_status "Timeout - Overall Process"%string
              initial_attorney_data), d2)
  else
    match extract_all_defendants_fast driver d2 with
    | (Raised e, d3) =>
        let '(_, d4) := time_time driver d3 in
        (Ok (set_extraction_status (py "Error: " ++ e) initial_attorney_data), d4)
    | (Ok defendants, d3) =>
        let '(t2, d4) := time_time driver d3 in
        if Qgtb (t2 - t0) TIMEOUT_SECONDS
        then (Ok (set_extraction_status "Timeout - After Defendants"%string
                    initial_attorney_data), d4)
        else
          match defendants with
          | [] =>
              (Ok (set_extraction_status "No Defendants Found"%string
                     initial_attorney_data), d4)
          | _ =>
              let main := find_main_defendant defendants in
              if bool_decide (main = no_defendants_found)
              then (Ok (set_extraction_status "No Defendants Found"%string
                          (fresh defendants main)), d4)
              else
                let '(t3, d5) := time_time driver d4 in
                if Qgtb (t3 - t0) TIMEOUT_SECONDS
                then (Ok (set_extraction_status
                            "Timeout - Before Service Search"%string
                            (fresh defendants main)), d5)
                else
                  match find_proof_of_service_fast driver main d5 with
                  | (Raised e, d6) =>
                      let '(_, d7) := time_time driver d6 in
                      (Ok (set_extraction_status (py "Error: " ++ e)
                             (fresh defendants main)), d7)
                  | (Ok r, d6) =>
                      let '(_, d7) := time_time driver d6 in
                      match usable r with
                      | Some found =>
                          (Ok (project_service main found
                                 (fresh defendants main)), d7)
                      | None =>
                          (Ok (set_extraction_status
                                 "No Service Records Found"%string
                                 (fresh defendants main)), d7)
                      end
                  end
          end
    end.
Proof.
  unfold extract_attorney_data, extract_attorney_steps, timed_out, status,
    now, with_local, try_except, bind, lift, modify_local, get_local, ret, fresh.
  cbn [fst snd].
  destruct (time_time driver d) as [t0 d1]. cbn [fst snd].
  destruct (time_time driver d1) as [t1 d2]. cbn [fst snd].
  destruct (Qgtb (t1 - t0) TIMEOUT_SECONDS); cbn [fst snd]; [reflexivity|].
  destruct (extract_all_defendants_fast driver d2) as [[defendants|e] d3];
    cbn [fst snd].
  2: { destruct (time_time driver d3) as [t d4]. reflexivity. }
  destruct (time_time driver d3) as [t2 d4]. cbn [fst snd].
  destruct (Qgtb (t2 - t0) TIMEOUT_SECONDS); cbn [fst snd]; [reflexivity|].
  destruct defendants as [|name names]; cbn [fst snd]; [reflexivity|].
  destruct (bool_decide (find_main_defendant (name :: names) = no_defendants_found));
    cbn [fst snd]; [reflexivity|].
  destruct (time_time driver d4) as [t3 d5]. cbn [fst snd].
  destruct (Qgtb (t3 - t0) TIMEOUT_SECONDS); cbn [fst snd]; [reflexivity|].
  destruct (find_proof_of_service_fast driver _ d5) as [[r|e] d6]; cbn [fst snd].
  2: { destruct (time_time driver d6) as [t d7]. reflexivity. }
  destruct (usable r) as [found|]; cbn [fst snd];
    destruct (time_time driver d6) as [t d7]; reflexivity.
Qed.

Lemma defendants_total : total (extract_all_defendants_fast driver).
Proof.
  unfold extract_all_defendants_fast.
  apply total_with_local, total_bind.
  - apply total_try. intros e. apply total_ret.
  - intros _. apply total_get_local.
Qed.

Lemma extraction_total : total (extract_attorney_data driver).
Proof.
  intros d. rewrite extract_attorney_data_run.
  destruct (time_time driver d) as [t0 d1].
  destruct (time_time driver d1) as [t1 d2].
  destruct (Qgtb (t1 - t0) TIMEOUT_SECONDS); [eexists _, _; reflexivity|].
  destruct (extract_all_defendants_fast driver d2) as [[defendants|e] d3].
  2: { destruct (time_time driver d3). eexists _, _; reflexivity. }
  destruct (time_time driver d3) as [t2 d4].
  destruct (Qgtb (t2 - t0) TIMEOUT_SECONDS); [eexists _, _; reflexivity|].
  destruct defendants as [|name names]; [eexists _, _; reflexivity|].
  cbv zeta.
  destruct (bool_decide _); [eexists _, _; reflexivity|].
  destruct (time_time driver d4) as [t3 d5].
  destruct (Qgtb (t3 - t0) TIMEOUT_SECONDS); [eexists _, _; reflexivity|].
  destruct (find_proof_of_service_fast driver _ d5) as [[r|e] d6].
  2: { destruct (time_time driver d6). eexists _, _; reflexivity. }
  destruct (time_time driver d6). destruct (usable r); eexists _, _; reflexivity.
Qed.

Lemma fill_search_form_total y t q : total (fill_search_form driver y t q).
Proof. unfold fill_search_form. apply total_try. intros e. apply total_ret. Qed.

Lemma now_total : total (now driver).
Proof.
  intros d. unfold now. destruct (time_time driver d) as [t d'].
  exists t, d'. reflexivity.
Qed.

Lemma process_case_total parsed : total (process_case driver parsed).
Proof.
  unfold process_case. apply total_bind; [apply now_total|].
  intros t. apply total_try. intros e.
  apply total_bind; [apply now_total|]. intros _. apply total_ret.
Qed.

Lemma usable_some r found :
  usable r = Some found <-> r = Some found /\ found <> ∅.
Proof.
  unfold usable, truthy. destruct r as [rec|].
  - destruct (bool_decide (rec ≠ ∅)) eqn:E.
    + apply bool_decide_eq_true in E. split.
      * intros H. inversion H; subst. auto.
      * intros [H _]. exact H.
    + apply bool_decide_eq_false in E. split; [discriminate|].
      intros [H Hne]. inversion H; subst. contradiction.
  - split; [discriminate|]. intros [H _]. discriminate.
Qed.

Lemma usable_none r : usable r = None <-> r = None \/ r = Some ∅.
Proof.
  unfold usable, truthy. destruct r as [rec|].
  - destruct (bool_decide (rec ≠ ∅)) eqn:E.
    + apply bool_decide_eq_true in E. split; [discriminate|].
      intros [H|H]; [discriminate|]. inversion H; subst. contradiction.
    + apply bool_decide_eq_false in E. split; [|reflexivity].
      intros _. right. f_equal. destruct (decide (rec = ∅)); [assumption|contradiction].
  - split; auto.
Qed.

(** The run of [extract_attorney_data] that reaches the service
    search and what it returns there. *)
Lemma search_reached d defendants d5 r d6 :
  reaches_search driver d defendants d5 ->
  find_proof_of_service_fast driver (find_main_defendant defendants) d5 = (Ok r, d6) ->
  exists d7,
    extract_attorney_data driver d =
    (Ok (match r with
         | Some found =>
             project_service (find_main_defendant defendants) found
               (fresh defendants (find_main_defendant defendants))
         | None =>
             set_extraction_status "No Service Records Found"%string
               (fresh defendants (find_main_defendant defendants))
         end), d7).
Proof.
  intros (t0 & d1 & t1 & d2 & d3 & t2 & d4 & t3 & H1 & H2 & H3 & H4 & H5 & H6
          & H7 & H8 & H9 & H10) Hr.
  rewrite extract_attorney_data_run, H1, H2, H3, H4, H5, H6.
  destruct defendants as [|name names]; [congruence|].
  cbv zeta. rewrite (bool_decide_eq_false_2 _ H8), H9, H10, Hr.
  rewrite (usable_resolved driver _ _ _ _ Hr).
  destruct (time_time driver d6) as [t d7]. exists d7.
  destruct r; reflexivity.
Qed.

(** Every other run ends in a status of its own. *)
Lemma search_not_reached d :
  (exists defendants d5, reaches_search driver d defendants d5) \/
  (exists a d',
      extract_attorney_data driver d = (Ok a, d') /\
      service_match a = [] /\
      In (extraction_status a)
        [ py "Timeout - Overall Process"; py "Timeout - After Defendants";
          py "No Defendants Found"; py "Timeout - Before Service Search" ]).
Proof.
  rewrite extract_attorney_data_run.
  destruct (time_time driver d) as [t0 d1] eqn:E0.
  destruct (time_time driver d1) as [t1 d2] eqn:E1.
  destruct (Qgtb (t1 - t0) TIMEOUT_SECONDS) eqn:Q1.
  { right. eexists _, _. split; [reflexivity|]. split; [reflexivity|]. simpl. tauto. }
  destruct (defendants_total d2) as (defendants & d3 & E2). rewrite E2.
  destruct (time_time driver d3) as [t2 d4] eqn:E3.
  destruct (Qgtb (t2 - t0) TIMEOUT_SECONDS) eqn:Q2.
  { right. eexists _, _. split; [reflexivity|]. split; [reflexivity|]. simpl. tauto. }
  destruct defendants as [|name names] eqn:Edef.
  { right. eexists _, _. split; [reflexivity|]. split; [reflexivity|]. simpl. tauto. }
  cbv zeta.
  destruct (bool_decide (find_main_defendant (name :: names) = no_defendants_found)) eqn:B.
  { right. eexists _, _. split; [reflexivity|]. split; [reflexivity|]. simpl. tauto. }
  destruct (time_time driver d4) as [t3 d5] eqn:E4.
  destruct (Qgtb (t3 - t0) TIMEOUT_SECONDS) eqn:Q3.
  { right. eexists _, _. split; [reflexivity|]. split; [reflexivity|]. simpl. tauto. }
  left. exists (name :: names), d5.
  exists t0, d1, t1, d2, d3, t2, d4, t3.
  apply bool_decide_eq_false in B. repeat split; auto.
Qed.

Lemma reached_result d defendants d5 r d6 a d' :
  reaches_search driver d defendants d5 ->
  find_proof_of_service_fast driver (find_main_defendant defendants) d5 = (Ok r, d6) ->
  extract_attorney_data driver d = (Ok a, d') ->
  a = match r with
      | Some found =>
          project_service (find_main_defendant defendants) found
            (fresh defendants (find_main_defendant defendants))
      | None =>
          set_extraction_status "No Service Records Found"%string
            (fresh defendants (find_main_defendant defendants))
      end.
Proof.
  intros Hr Hf Ha. destruct (search_reached _ _ _ _ _ Hr Hf) as (d7 & H).
  rewrite H in Ha. inversion Ha. reflexivity.
Qed.

(** How a run of [extract_attorney_data] ends. *)
Lemma extraction_cases d a d' :
  extract_attorney_data driver d = (Ok a, d') ->
  (exists defendants d5 r d6,
      reaches_search driver d defendants d5 /\
      find_proof_of_service_fast driver (find_main_defendant defendants) d5
      = (Ok r, d6) /\
      a = match r with
          | Some found =>
              project_service (find_main_defendant defendants) found
                (fresh defendants (find_main_defendant defendants))
          | None =>
              set_extraction_status "No Service Records Found"%string
                (fresh defendants (find_main_defendant defendants))
          end) \/
  (service_match a = [] /\
   In (extraction_status a)
     [ py "Timeout - Overall Process"; py "Timeout - After Defendants";
       py "No Defendants Found"; py "Timeout - Before Service Search" ]).
Proof.
  intros Ha. destruct (search_not_reached d) as [(defendants & d5 & Hr)|H].
  - left.
    destruct (resolver_total driver (find_main_defendant defendants) d5)
      as (r & d6 & Hf).
    exists defendants, d5, r, d6. repeat split; auto.
    eapply reached_result; eauto.
  - right. destruct H as (a0 & d0 & H0 & Hs & Hin).
    rewrite H0 in Ha. inversion Ha; subst. auto.
Qed.

Lemma process_case_cases parsed d c d' :
  process_case driver parsed d = (Ok c, d') ->
  (exists v, c = StatusOnly v /\ v <> py "Found") \/
  (exists a d1 d2, c = Full a /\ extract_attorney_data driver d1 = (Ok a, d2)).
Proof.
  unfold process_case, bind, try_except, now, raise, ret.
  destruct (time_time driver d) as [t0 d1].
  destruct (time_time driver d1) as [t1 d2].
  destruct (Qgtb (t1 - t0) MAX_CASE_TIME).
  - destruct (time_time driver d2) as [t d3]. intros H. inversion H; subst.
    left. eexists. split; [reflexivity|]. discriminate.
  - destruct (fill_search_form_total (year parsed) (case_type parsed)
                (sequence parsed) d2) as (filled & d3 & ->).
    destruct filled.
    + destruct (extraction_total d3) as (a & d4 & E). rewrite E.
      destruct (time_time driver d4) as [t d5]. intros H. inversion H; subst.
      right. eauto.
    + intros H. inversion H; subst. left. eexists. split; [reflexivity|].
      discriminate.
Qed.

End ExtractionFacts.

Import MonadFacts.

Ltac other_status H :=
  simpl in H; destruct H as [H|[H|[H|[H|[]]]]]; discriminate H.

(** C5 (amended). [extract_attorney_data] never raises.  Its status is
    "Found" exactly when the service search was reached and returned
    a record, whether or not the record has a [service_attorney_name]
    (the attorney name is what [get] gives: empty when the field is
    absent); it is "No Service Records Found" exactly when the search
    was reached and returned nothing, and then the four attorney
    fields are empty. *)
Theorem found_and_absent {D W : Type} (driver : WebDriver D W) (d : D) :
  exists a d',
    extract_attorney_data driver d = (Ok a, d') /\
    (extraction_status a = py "Found" <->
     exists defendants d5 found d6,
       reaches_search driver d defendants d5 /\
       find_proof_of_service_fast driver (find_main_defendant defendants) d5
       = (Ok (Some found), d6)) /\
    (forall defendants d5 found d6,
        reaches_search driver d defendants d5 ->
        find_proof_of_service_fast driver (find_main_defendant defendants) d5
        = (Ok (Some found), d6) ->
        attorney_name a = get found "service_attorney_name"%string) /\
    (extraction_status a = py "No Service Records Found" <->
     exists defendants d5 d6,
       reaches_search driver d defendants d5 /\
       find_proof_of_service_fast driver (find_main_defendant defendants) d5
       = (Ok None, d6)) /\
    (extraction_status a = py "No Service Records Found" ->
     attorney_name a = [] /\ attorney_firm a = [] /\
     attorney_address a = [] /\ attorney_phone a = []).
Proof.
  destruct (extraction_total driver d) as (a & d' & Ha).
  exists a, d'. split; [exact Ha|].
  destruct (extraction_cases driver d a d' Ha)
    as [(defendants & d5 & r & d6 & Hr & Hf & ->)|[Hs Hin]].
  - destruct r as [found|].
    + split; [|split; [|split]].
      * split; [|reflexivity]. intros _. exists defendants, d5, found, d6. auto.
      * intros defendants' d5' found' d6' Hr' Hf'.
        pose proof (reached_result driver _ _ _ _ _ _ _ Hr' Hf' Ha) as E.
        rewrite E. reflexivity.
      * split; [discriminate|].
        intros (defendants' & d5' & d6' & Hr' & Hf').
        pose proof (reached_result driver _ _ _ _ _ _ _ Hr' Hf' Ha) as E.
        apply (f_equal extraction_status) in E. discriminate E.
      * discriminate.
    + split; [|split; [|split]].
      * split; [discriminate|].
        intros (defendants' & d5' & found' & d6' & Hr' & Hf').
        pose proof (reached_result driver _ _ _ _ _ _ _ Hr' Hf' Ha) as E.
        apply (f_equal extraction_status) in E. discriminate E.
      * intros defendants' d5' found' d6' Hr' Hf'.
        pose proof (reached_result driver _ _ _ _ _ _ _ Hr' Hf' Ha) as E.
        apply (f_equal extraction_status) in E. discriminate E.
      * split; [|reflexivity]. intros _. exists defendants, d5, d6. auto.
      * intros _. repeat split; reflexivity.
  - split; [|split; [|split]].
    + split; [intros E; rewrite E in Hin; other_status Hin|].
      intros (defendants' & d5' & found' & d6' & Hr' & Hf').
      pose proof (reached_result driver _ _ _ _ _ _ _ Hr' Hf' Ha) as E.
      subst a. other_status Hin.
    + intros defendants' d5' found' d6' Hr' Hf'.
      pose proof (reached_result driver _ _ _ _ _ _ _ Hr' Hf' Ha) as E.
      subst a. other_status Hin.
    + split; [intros E; rewrite E in Hin; other_status Hin|].
      intros (defendants' & d5' & d6' & Hr' & Hf').
      pose proof (reached_result driver _ _ _ _ _ _ _ Hr' Hf' Ha) as E.
      subst a. other_status Hin.
    + intros E. rewrite E in Hin. other_status Hin.
Qed.

(** C6 (amended). When the status is "Found", [service_match] is
    "Main Defendant" if the served name holds the main defendant's or
    the main defendant's holds the served name, both in lower case,
    and "Other Human Defendant" if neither holds the other;
    [service_match] is empty under every other status, also in the
    row written for a case whose form or processing failed. *)
Theorem service_match_label {D W : Type} (driver : WebDriver D W) (d : D)
    (a : AttorneyData) (d' : D) :
  extract_attorney_data driver d = (Ok a, d') ->
  (extraction_status a = py "Found" ->
   ((exists pre post,
        Str.lower (defendant_name a) = pre ++ Str.lower (main_defendant a) ++ post) \/
    (exists pre post,
        Str.lower (main_defendant a) = pre ++ Str.lower (defendant_name a) ++ post) ->
    service_match a = py "Main Defendant") /\
   (~ (exists pre post,
          Str.lower (defendant_name a) = pre ++ Str.lower (main_defendant a) ++ post) ->
    ~ (exists pre post,
          Str.lower (main_defendant a) = pre ++ Str.lower (defendant_name a) ++ post) ->
    service_match a = py "Other Human Defendant")) /\
  (service_match a <> [] -> extraction_status a = py "Found") /\
  (forall parsed_case d0 c d1,
      process_case driver parsed_case d0 = (Ok c, d1) ->
      column_service_match c <> [] ->
      column_extraction_status c = py "Found").
Proof.
  intros Ha. split; [|split].
  - destruct (extraction_cases driver d a d' Ha)
      as [(defendants & d5 & r & d6 & Hr & Hf & ->)|[Hs Hin]].
    + destruct r as [found|]; [|discriminate].
      intros _. unfold project_service, fresh, set_defendants.
      cbn [service_match main_defendant defendant_name].
      destruct (names_match (find_main_defendant defendants)
                  (get found "service_name"%string)) eqn:E;
        unfold names_match in E;
        [apply orb_true_iff in E|apply orb_false_iff in E];
        rewrite <- !StrFacts.contains_true.
      * split; [reflexivity|]. intros N1 N2.
        destruct E as [E|E]; [destruct (N1 E)|destruct (N2 E)].
      * destruct E as [E1 E2]. split; [|reflexivity].
        intros [E|E]; congruence.
    + intros E. rewrite E in Hin. other_status Hin.
  - destruct (extraction_cases driver d a d' Ha)
      as [(defendants & d5 & r & d6 & Hr & Hf & ->)|[Hs Hin]].
    + destruct r as [found|]; [reflexivity|].
      intros H. exfalso. apply H. reflexivity.
    + intros H. contradiction.
  - intros parsed_case d0 c d1 Hc Hm.
    destruct (process_case_cases driver _ _ _ _ Hc)
      as [(v & -> & _)|(a0 & d2 & d3 & -> & Ha0)].
    + exfalso. apply Hm. reflexivity.
    + simpl in *.
      destruct (extraction_cases driver d2 a0 d3 Ha0)
        as [(defendants & d5 & r & d6 & Hr & Hf & ->)|[Hs Hin]].
      * destruct r as [found|]; [reflexivity|].
        exfalso. apply Hm. reflexivity.
      * contradiction.
Qed.

Import MonadFacts StrFacts.

(** C9. Reading a candidate never raises: a fault in the cycle that
    expands, reads and collapses the detail gives no record; a
    candidate without a record is skipped and both scans go on with
    the next one; the scans, the resolver and the extraction of a
    case never raise. *)
Theorem candidate_fault_is_skipped {D W : Type} (driver : WebDriver D W)
    (row : W) (rows : list W) (st main : str) (d : D) :
  (exists o d1, extract_service_details_fast driver row st d = (Ok o, d1)) /\
  (forall e d1,
      expand_read_collapse driver row st d = (Raised e, d1) ->
      extract_service_details_fast driver row st d = (Ok None, d1)) /\
  (forall d1,
      extract_service_details_fast driver row st d = (Ok None, d1) ->
      main_defendant_scan driver (row :: rows) st main d
      = main_defendant_scan driver rows st main d1 /\
      human_defendant_scan driver (row :: rows) st d
      = human_defendant_scan driver rows st d1) /\
  total (main_defendant_scan driver (row :: rows) st main) /\
  total (human_defendant_scan driver (row :: rows) st) /\
  total (find_proof_of_service_fast driver main) /\
  total (extract_attorney_data driver) /\
  (forall parsed_case, total (process_case driver parsed_case)).
Proof.
  split; [apply extract_total|]. split; [apply extract_fault|].
  split; [|split; [apply main_scan_total|split; [apply human_scan_total|
           split; [apply resolver_total|
           split; [apply extraction_total|apply process_case_total]]]]].
  intros d1 He. rewrite main_scan_cons, human_scan_cons, He.
  split; reflexivity.
Qed.

(** C10. A record whose [service_name] is absent or empty passes the
    test of the primary phase whatever the main defendant; reached by
    the scan, it is returned whatever rows follow it; and it is
    labelled "Main Defendant". *)
Theorem empty_served_name_wins {D W : Type} (driver : WebDriver D W)
    (main : str) :
  (forall found : ServiceRecord,
      found !! py "service_name" = None \/ found !! py "service_name" = Some [] ->
      primary_test main found = true) /\
  (forall st before row after d d1 found d2,
      misses driver (primary_test main) st before d d1 ->
      extract_service_details_fast driver row st d1 = (Ok (Some found), d2) ->
      found !! py "service_name" = None \/ found !! py "service_name" = Some [] ->
      main_defendant_scan driver (before ++ row :: after) st main d
      = (Ok (Some found), d2)) /\
  (forall (found : ServiceRecord) a,
      found !! py "service_name" = None \/ found !! py "service_name" = Some [] ->
      service_match (project_service main found a) = py "Main Defendant").
Proof.
  assert (Hempty : forall found : ServiceRecord,
             found !! py "service_name" = None \/
             found !! py "service_name" = Some [] ->
             get found "service_name"%string = []).
  { intros found [H|H]; unfold get; rewrite H; reflexivity. }
  assert (Htest : forall served, served = [] -> names_match main served = true).
  { intros served ->. unfold names_match. cbn [Str.lower map].
    rewrite (contains_nil (Str.lower main)). apply orb_true_r. }
  split; [|split].
  - intros found H. unfold primary_test. apply Htest, Hempty, H.
  - intros st before row after d d1 found d2 Hm He H.
    apply main_scan_first_hit.
    exists before, row, after, d1, (Some found). repeat split; auto.
    unfold hit. rewrite (usable_extracted driver _ _ _ _ _ He).
    unfold primary_test. rewrite (Htest _ (Hempty _ H)). reflexivity.
  - intros found a H. unfold project_service. cbn [service_match].
    rewrite (Htest _ (Hempty _ H)). reflexivity.
Qed.

Module LogFacts.

Section Follows.
Context {D L : Type}.

Lemma follows_ret {A : Type} (a : A) :
  follows (ret (S := D * L) a) (ret a).
Proof. intros d l. split; reflexivity. Qed.

Lemma follows_raise {A : Type} e :
  follows (raise (S := D * L) (A := A) e) (raise e).
Proof. intros d l. split; reflexivity. Qed.

Lemma follows_lift {A : Type} (m : M D A) : follows (lift (L := L) m) m.
Proof. intros d l. unfold lift. simpl. destruct (m d). split; reflexivity. Qed.

Lemma follows_bind {A B : Type} (m' : M (D * L) A) (m : M D A)
    (f' : A -> M (D * L) B) (f : A -> M D B) :
  follows m' m -> (forall a, follows (f' a) (f a)) ->
  follows (bind m' f') (bind m f).
Proof.
  intros Hm Hf d l. unfold bind. specialize (Hm d l).
  destruct (m' (d, l)) as [o' [d1' l']], (m d) as [o d1].
  simpl in Hm. destruct Hm as [-> ->].
  destruct o as [a|e]; [apply Hf|split; reflexivity].
Qed.

Lemma follows_try {A : Type} (m' : M (D * L) A) (m : M D A)
    (h' : str -> M (D * L) A) (h : str -> M D A) :
  follows m' m -> (forall e, follows (h' e) (h e)) ->
  follows (try_except m' h') (try_except m h).
Proof.
  intros Hm Hh d l. unfold try_except. specialize (Hm d l).
  destruct (m' (d, l)) as [o' [d1' l']], (m d) as [o d1].
  simpl in Hm. destruct Hm as [-> ->].
  destruct o as [a|e]; [split; reflexivity|apply Hh].
Qed.

Lemma follows_noting {A : Type} (g : L -> L) (m' : M (D * L) A) (m : M D A) :
  follows m' m -> follows (modify_local g ;;; m') m.
Proof. intros Hm d l. unfold bind, modify_local. simpl. apply Hm. Qed.

Lemma follows_noted {A : Type} (g : A -> L -> L) (m' : M (D * L) A) (m : M D A) :
  follows m' m ->
  follows (a <- m' ;; modify_local (g a) ;;; ret a) m.
Proof.
  intros Hm d l. unfold bind, modify_local, ret. specialize (Hm d l).
  destruct (m' (d, l)) as [o' [d1' l']], (m d) as [o d1].
  simpl in Hm. destruct Hm as [-> ->].
  destruct o; split; reflexivity.
Qed.

End Follows.

Section Quiet.
Context {D E : Type}.

Lemma silent_ret {A : Type} (a : A) : silent (ret (S := D * list E) a).
Proof. intros s. reflexivity. Qed.

Lemma silent_raise {A : Type} e : silent (raise (S := D * list E) (A := A) e).
Proof. intros s. reflexivity. Qed.

Lemma silent_lift {A : Type} (m : M D A) : silent (lift (L := list E) m).
Proof. intros [d l]. unfold lift. simpl. destruct (m d). reflexivity. Qed.

Lemma silent_bind {A B : Type} (m : M (D * list E) A) (f : A -> M (D * list E) B) :
  silent m -> (forall a, silent (f a)) -> silent (bind m f).
Proof.
  intros Hm Hf s. unfold bind. specialize (Hm s).
  destruct (m s) as [[a|e] s']; simpl in *; [|exact Hm].
  rewrite Hf. exact Hm.
Qed.

Lemma silent_try {A : Type} (m : M (D * list E) A) h :
  silent m -> (forall e, silent (h e)) -> silent (try_except m h).
Proof.
  intros Hm Hh s. unfold try_except. specialize (Hm s).
  destruct (m s) as [[a|e] s']; simpl in *; [exact Hm|].
  rewrite Hh. exact Hm.
Qed.

Lemma appends_bind {A B : Type} evs (m : M (D * list E) A)
    (f : A -> M (D * list E) B) :
  appends evs m -> (forall a, silent (f a)) -> appends evs (bind m f).
Proof.
  intros Hm Hf s. unfold bind. specialize (Hm s).
  destruct (m s) as [[a|e] s']; simpl in *; [|exact Hm].
  rewrite Hf. exact Hm.
Qed.

Lemma appends_try {A : Type} evs (m : M (D * list E) A) h :
  appends evs m -> (forall e, silent (h e)) -> appends evs (try_except m h).
Proof.
  intros Hm Hh s. unfold try_except. specialize (Hm s).
  destruct (m s) as [[a|e] s']; simpl in *; [exact Hm|].
  rewrite Hh. exact Hm.
Qed.

End Quiet.

Ltac follow :=
  repeat
    match goal with
    | |- follows (ret _) (ret _) => apply follows_ret
    | |- follows (raise _) (raise _) => apply follows_raise
    | |- follows (lift _) _ => apply follows_lift
    | |- follows (modify_local _ ;;; _) _ => apply follows_noting
    | |- follows (a <- _ ;; modify_local _ ;;; ret a) _ => apply follows_noted
    | |- follows (bind _ _) (bind _ _) => apply follows_bind; [|intros ?]
    | |- follows (try_except _ _) (try_except _ _) =>
        apply follows_try; [|intros ?]
    | |- follows (match ?x with _ => _ end) _ => destruct x
    end.

Ltac quiet :=
  repeat
    match goal with
    | |- silent (ret _) => apply silent_ret
    | |- silent (raise _) => apply silent_raise
    | |- silent (lift _) => apply silent_lift
    | |- silent (bind _ _) => apply silent_bind; [|intros ?]
    | |- silent (try_except _ _) => apply silent_try; [|intros ?]
    | |- silent (match ?x with _ => _ end) => destruct x
    end.

Section Logged.
Context {D W : Type} (driver : WebDriver D W).

Lemma sleep_follows q : follows (sleep (logged driver) q) (sleep driver q).
Proof. intros d l. split; reflexivity. Qed.

Lemma sleep_silent q : silent (sleep (logged driver) q).
Proof. intros s. reflexivity. Qed.

Lemma doc_num_follows o :
  follows (doc_num_of (D := D * list (event W)) o) (doc_num_of (D := D) o).
Proof. intros d l. destruct o; split; reflexivity. Qed.

Lemma doc_num_silent o : silent (doc_num_of (D := D * list (event W)) o).
Proof. intros s. destruct o; reflexivity. Qed.

Lemma read_rows_follows rows : forall acc,
  follows (read_detail_rows (logged driver) rows acc)
    (read_detail_rows driver rows acc).
Proof.
  induction rows as [|r rows IH]; intros acc; cbn [read_detail_rows].
  - follow.
  - simpl. follow; try apply IH.
Qed.

Lemma read_rows_silent rows : forall acc,
  silent (read_detail_rows (logged driver) rows acc).
Proof.
  induction rows as [|r rows IH]; intros acc; cbn [read_detail_rows].
  - quiet.
  - simpl. quiet; try apply IH.
Qed.

Lemma cycle_follows row st :
  follows (expand_read_collapse (logged driver) row st)
    (expand_read_collapse driver row st).
Proof.
  unfold expand_read_collapse. simpl. follow;
    first [apply sleep_follows | apply doc_num_follows | apply read_rows_follows].
Qed.

Lemma cycle_appends row st :
  appends [Inspected row] (expand_read_collapse (logged driver) row st).
Proof.
  unfold expand_read_collapse. simpl.
  apply appends_bind.
  - intros [d l]. unfold bind, modify_local, lift. simpl.
    destruct (el_find_element driver row XPATH _ d). reflexivity.
  - intros img. quiet;
      first [apply sleep_silent | apply doc_num_silent | apply read_rows_silent].
Qed.

Lemma extract_follows row st :
  follows (extract_service_details_fast (logged driver) row st)
    (extract_service_details_fast driver row st).
Proof.
  unfold extract_service_details_fast. follow. apply cycle_follows.
Qed.

Lemma extract_appends row st :
  appends [Inspected row] (extract_service_details_fast (logged driver) row st).
Proof.
  unfold extract_service_details_fast. apply appends_try.
  - apply cycle_appends.
  - intros e. apply silent_ret.
Qed.

Lemma main_scan_follows rows st main :
  follows (main_defendant_scan (logged driver) rows st main)
    (main_defendant_scan driver rows st main).
Proof.
  induction rows as [|row rows IH]; cbn [main_defendant_scan].
  - follow.
  - follow; first [apply extract_follows | apply IH].
Qed.

Lemma human_scan_follows rows st :
  follows (human_defendant_scan (logged driver) rows st)
    (human_defendant_scan driver rows st).
Proof.
  induction rows as [|row rows IH]; cbn [human_defendant_scan].
  - follow.
  - follow; first [apply extract_follows | apply IH].
Qed.

Lemma scan_touches (scan : list W -> M (D * list (event W)) (option ServiceRecord))
    test st :
  (forall s, scan [] s = (Ok None, s)) ->
  (forall row rows s,
      scan (row :: rows) s =
      match extract_service_details_fast (logged driver) row st s with
      | (Ok o, s') =>
          match hit test o with
          | Some found => (Ok (Some found), s')
          | None => scan rows s'
          end
      | (Raised _, s') => scan rows s'
      end) ->
  forall rows, touches rows (scan rows).
Proof.
  intros Hnil Hcons rows. induction rows as [|row rows IH]; intros s.
  - exists []. rewrite Hnil. simpl. rewrite app_nil_r. split; [reflexivity|].
    intros r [].
  - rewrite Hcons. pose proof (extract_appends row st s) as Ha.
    destruct (extract_service_details_fast (logged driver) row st s)
      as [o s'] eqn:E. simpl in Ha.
    assert (Hrest : exists touched,
               snd (snd (scan rows s')) = snd s ++ map Inspected touched /\
               forall r, In r touched -> In r (row :: rows)).
    { destruct (IH s') as (touched & Hl & Hin). exists (row :: touched).
      rewrite Hl, Ha, <- app_assoc. split; [reflexivity|].
      intros r [<-|Hr]; [left; reflexivity|right; apply Hin, Hr]. }
    destruct o as [o|e]; [|exact Hrest].
    destruct (hit test o); [|exact Hrest].
    exists [row]. simpl. split; [exact Ha|].
    intros r [<-|[]]. left. reflexivity.
Qed.

Lemma main_scan_touches rows st main :
  touches rows (main_defendant_scan (logged driver) rows st main).
Proof.
  apply (scan_touches (fun rows => main_defendant_scan (logged driver) rows st main)
           (primary_test main) st).
  - reflexivity.
  - intros. apply main_scan_cons.
Qed.

Lemma human_scan_touches rows st :
  touches rows (human_defendant_scan (logged driver) rows st).
Proof.
  apply (scan_touches (fun rows => human_defendant_scan (logged driver) rows st)
           fallback_test st).
  - reflexivity.
  - intros. apply human_scan_cons.
Qed.

Lemma search_follows types main :
  follows (search_service_types (logged driver) types main)
    (search_service_types driver types main).
Proof.
  induction types as [|st types IH]; cbn [search_service_types].
  - follow.
  - simpl. follow;
      first [apply main_scan_follows | apply human_scan_follows | apply IH].
Qed.

Lemma first_five (rows : list W) r :
  In r (firstn 5 rows) -> exists i, i < 5 /\ rows !! i = Some r.
Proof.
  generalize 5. intros n. revert rows.
  induction n as [|n IH]; intros rows; simpl; [intros []|].
  destruct rows as [|x rows]; simpl; [intros []|].
  intros [<-|H].
  - exists 0. split; [lia|reflexivity].
  - destruct (IH rows H) as (i & Hi & Hl). exists (S i). split; [lia|exact Hl].
Qed.

Lemma listing_logged xpath s :
  match find_elements driver XPATH xpath (fst s) with
  | (Ok rows, d0) =>
      find_elements (logged driver) XPATH xpath s
      = (Ok rows, (d0, snd s ++ [Queried xpath rows]))
  | (Raised e, d0) =>
      find_elements (logged driver) XPATH xpath s = (Raised e, (d0, snd s))
  end.
Proof.
  destruct s as [d l]. simpl. unfold bind, lift, modify_local, ret. simpl.
  destruct (find_elements driver XPATH xpath d) as [[rows|e] d0]; reflexivity.
Qed.

Lemma search_log types main : forall s,
  exists log,
    snd (snd (search_service_types (logged driver) types main s)) = snd s ++ log /\
    category_log types log.
Proof.
  induction types as [|st types IH]; intros s.
  - exists []. simpl. rewrite app_nil_r. split; [reflexivity|left; reflexivity].
  - rewrite search_types_cons.
    pose proof (listing_logged (service_xpath st) s) as Hq.
    destruct (find_elements driver XPATH (service_xpath st) (fst s))
      as [[rows|e] d0]; rewrite Hq; clear Hq.
    2: { exists []. simpl. rewrite app_nil_r. split; [reflexivity|left; reflexivity]. }
    set (s0 := (d0, snd s ++ [Queried (service_xpath st) rows])).
    assert (Hdone : forall touched (s1 : D * list (event W)),
               snd s1 = snd s0 ++ map Inspected touched ->
               (forall r, In r touched -> In r (firstn 5 rows)) ->
               exists log, snd s1 = snd s ++ log /\ category_log (st :: types) log).
    { intros touched s1 Hl Hin.
      exists (Queried (service_xpath st) rows :: map Inspected touched ++ []).
      split.
      - rewrite Hl. unfold s0. simpl. rewrite <- app_assoc, app_nil_r. reflexivity.
      - right. exists rows, touched, []. split; [reflexivity|]. split.
        + intros r Hr. apply first_five, Hin, Hr.
        + destruct types; left; reflexivity. }
    assert (Hnext : forall touched (s1 : D * list (event W)),
               snd s1 = snd s0 ++ map Inspected touched ->
               (forall r, In r touched -> In r (firstn 5 rows)) ->
               exists log,
                 snd (snd (search_service_types (logged driver) types main s1))
                 = snd s ++ log /\ category_log (st :: types) log).
    { intros touched s1 Hl Hin.
      destruct (IH s1) as (later & Hlater & Hcat).
      exists (Queried (service_xpath st) rows :: map Inspected touched ++ later).
      split.
      - rewrite Hlater, Hl. unfold s0. simpl. rewrite <- !app_assoc. reflexivity.
      - right. exists rows, touched, later. split; [reflexivity|]. split.
        + intros r Hr. apply first_five, Hin, Hr.
        + exact Hcat. }
    destruct rows as [|r0 rows'].
    { apply (Hnext [] s0); [simpl; rewrite app_nil_r; reflexivity|intros r []]. }
    set (rows := r0 :: rows') in *.
    destruct (main_scan_touches (firstn 5 rows) st main s0) as (t1 & Hl1 & Hin1).
    destruct (main_defendant_scan (logged driver) (firstn 5 rows) st main s0)
      as [[[found|]|e] s1]; simpl in Hl1.
    + apply (Hdone t1 s1); assumption.
    + destruct (human_scan_touches (firstn 5 rows) st s1) as (t2 & Hl2 & Hin2).
      assert (Hl12 : forall s2 : D * list (event W),
                 snd s2 = snd s1 ++ map Inspected t2 ->
                 snd s2 = snd s0 ++ map Inspected (t1 ++ t2)).
      { intros s2 H. rewrite H, Hl1, map_app, app_assoc. reflexivity. }
      assert (Hin12 : forall r, In r (t1 ++ t2) -> In r (firstn 5 rows)).
      { intros r Hr. apply in_app_or in Hr. destruct Hr; auto. }
      destruct (human_defendant_scan (logged driver) (firstn 5 rows) st s1)
        as [[[found|]|e] s2]; simpl in Hl2.
      * apply (Hdone (t1 ++ t2) s2); auto.
      * apply (Hnext (t1 ++ t2) s2); auto.
      * apply (Hdone (t1 ++ t2) s2); auto.
    + apply (Hdone t1 s1); assumption.
Qed.

Lemma open_docket_follows :
  follows (open_docket (logged driver)) (open_docket driver).
Proof.
  unfold open_docket. simpl. follow. apply sleep_follows.
Qed.

Lemma open_docket_log s o s' :
  open_docket (logged driver) s = (o, s') ->
  snd s' = snd s \/
  exists links, snd s' = snd s ++ [Queried docket_xpath links].
Proof.
  unfold open_docket, try_except. unfold bind at 1.
  pose proof (listing_logged docket_xpath s) as Hq.
  destruct (find_elements driver XPATH docket_xpath (fst s)) as [[links|e] d0];
    rewrite Hq; clear Hq.
  - intros H. right. exists links. destruct links as [|link links'].
    + inversion H; subst. reflexivity.
    + assert (Hs : silent (el_click (logged driver) link ;;; sleep (logged driver) 1)).
      { simpl. quiet. apply sleep_silent. }
      specialize (Hs (d0, snd s ++ [Queried docket_xpath (link :: links')])).
      destruct ((el_click (logged driver) link ;;; sleep (logged driver) 1) _)
        as [[[]|e] s'']; inversion H; subst; exact Hs.
  - intros H. inversion H; subst. left. reflexivity.
Qed.

Lemma resolver_follows main :
  follows (find_proof_of_service_fast (logged driver) main)
    (find_proof_of_service_fast driver main).
Proof.
  unfold find_proof_of_service_fast. cbn [logged implicitly_wait]. follow;
    first [apply open_docket_follows | apply search_follows].
Qed.

Lemma resolver_log main d :
  exists before log,
    snd (snd (find_proof_of_service_fast (logged driver) main (d, [])))
    = before ++ log /\
    (before = [] \/ exists links, before = [Queried docket_xpath links]) /\
    category_log service_types log.
Proof.
  unfold find_proof_of_service_fast, try_except, bind at 1.
  assert (Hw : silent (implicitly_wait (logged driver) 2))
    by (simpl; apply silent_lift).
  specialize (Hw (d, [])).
  destruct (implicitly_wait (logged driver) 2 (d, [])) as [[[]|e] s1];
    simpl in Hw.
  2: { exists [], []. simpl. split; [exact Hw|]. split; [left|left]; reflexivity. }
  unfold bind at 1.
  destruct (open_docket (logged driver) s1) as [o2 s2] eqn:Eo.
  pose proof (open_docket_log s1 o2 s2 Eo) as Ho. rewrite Hw in Ho. simpl in Ho.
  destruct o2 as [[]|e].
  2: { destruct Ho as [Ho|(links & Ho)].
       - exists [], []. simpl. split; [exact Ho|]. split; [left|left]; reflexivity.
       - exists [Queried docket_xpath links], []. simpl.
         split; [exact Ho|]. split; [right; eauto|left; reflexivity]. }
  destruct (search_log service_types main s2) as (log & Hl & Hcat).
  assert (Hend : exists before,
             snd (snd (search_service_types (logged driver) service_types main s2))
             = before ++ log /\
             (before = [] \/ exists links, before = [Queried docket_xpath links])).
  { destruct Ho as [Ho|(links & Ho)]; rewrite Ho in Hl.
    - exists []. split; [exact Hl|left; reflexivity].
    - exists [Queried docket_xpath links]. split; [exact Hl|right; eauto]. }
  destruct Hend as (before & Hb & Hpre).
  exists before, log.
  destruct (search_service_types (logged driver) service_types main s2)
    as [[r|e] s3]; simpl in *; auto.
Qed.

End Logged.

End LogFacts.

Import LogFacts.

(** C4. Run on a driver that keeps a log, the resolver returns what it
    returns without the log, and the log shows: at most the listing of
    the docket links, then the listing of the CERTIFIED MAIL rows and
    touches of rows among its first five, then, if reached, the
    listing of the PROCESS SERVER rows and touches of rows among its
    first five; nothing else. *)
Theorem five_candidates_two_categories {D W : Type} (driver : WebDriver D W)
    (main : str) (d : D) :
  fst (find_proof_of_service_fast (logged driver) main (d, []))
  = fst (find_proof_of_service_fast driver main d) /\
  fst (snd (find_proof_of_service_fast (logged driver) main (d, [])))
  = snd (find_proof_of_service_fast driver main d) /\
  exists before log,
    snd (snd (find_proof_of_service_fast (logged driver) main (d, [])))
    = before ++ log /\
    (before = [] \/ exists links, before = [Queried docket_xpath links]) /\
    category_log [py "CERTIFIED MAIL"; py "PROCESS SERVER"] log.
Proof.
  destruct (resolver_follows driver main d []) as [H1 H2].
  split; [exact H1|]. split; [exact H2|]. apply resolver_log.
Qed.

Import Examples.

(** C3. [find_main_defendant] returns the first name of the list that
    is not a company; the first name when every name is a company;
    the text "No defendants found" on the empty list; so its result is
    a name of the list or that text. *)
Theorem find_main_defendant_first_individual (defendants : list str) :
  (defendants = [] -> find_main_defendant defendants = no_defendants_found) /\
  (forall before name after,
      defendants = before ++ name :: after ->
      Forall (fun n => is_company n = true) before ->
      is_company name = false ->
      find_main_defendant defendants = name) /\
  (forall first others,
      defendants = first :: others ->
      Forall (fun n => is_company n = true) defendants ->
      find_main_defendant defendants = first) /\
  (In (find_main_defendant defendants) defendants \/
   find_main_defendant defendants = no_defendants_found).
Proof.
  assert (Hfilter : forall before name after,
             Forall (fun n => is_company n = true) before ->
             is_company name = false ->
             List.filter (fun n => negb (is_company n)) (before ++ name :: after)
             = name :: List.filter (fun n => negb (is_company n)) after).
  { intros before name after Hb Hn. induction Hb as [|x before Hx _ IH]; simpl.
    - rewrite Hn. reflexivity.
    - rewrite Hx. simpl. exact IH. }
  assert (Hnone : forall l,
             Forall (fun n => is_company n = true) l ->
             List.filter (fun n => negb (is_company n)) l = []).
  { intros l Hl. induction Hl as [|x l Hx _ IH]; simpl; [reflexivity|].
    rewrite Hx. simpl. exact IH. }
  split; [|split; [|split]].
  - intros ->. reflexivity.
  - intros before name after -> Hb Hn. unfold find_main_defendant.
    rewrite (Hfilter before name after Hb Hn).
    destruct before; reflexivity.
  - intros first others -> Hall. unfold find_main_defendant.
    rewrite (Hnone _ Hall). reflexivity.
  - destruct defendants as [|first others]; [right; reflexivity|].
    left. unfold find_main_defendant.
    destruct (List.filter _ (first :: others)) as [|ind l] eqn:E.
    + left. reflexivity.
    + assert (Hin : In ind (List.filter (fun n => negb (is_company n)) (first :: others)))
        by (rewrite E; left; reflexivity).
      apply filter_In in Hin. tauto.
Qed.

Lemma main_defendant_of_example :
  find_main_defendant (map py defendants) = py "Jane Smith".
Proof.
  apply (proj1 (proj2 (find_main_defendant_first_individual (map py defendants)))
           [py "ABC Bank"] (py "Jane Smith") [py "XYZ LLC"]).
  - reflexivity.
  - repeat constructor.
  - vm_compute. reflexivity.
Defined.

Lemma case_number_of_example :
  case_shape (clean_case (py "23CV5681 (12844)")) (py "23") (py "CV") (py "5681") /\
  parse_case_number (py "23CV5681 (12844)")
  = Some {| year := py "23"; case_type := py "CV"; sequence := py "0005681";
            original := py "23CV5681 (12844)" |}.
Proof.
  assert (H : case_shape (clean_case (py "23CV5681 (12844)"))
                (py "23") (py "CV") (py "5681")).
  { unfold case_shape. repeat split; try (vm_compute; reflexivity);
      try discriminate; repeat constructor. }
  split; [exact H|].
  exact (proj1 (parse_case_number_spec (py "23CV5681 (12844)")) _ _ _ H).
Defined.

Lemma company_of_example :
  whole_word (py "LLC") (py "XYZ LLC") /\ is_company (py "XYZ LLC") = true.
Proof.
  assert (H : whole_word (py "LLC") (py "XYZ LLC")).
  { exists (py "XYZ "), (py "LLC"), []. repeat split; vm_compute; reflexivity. }
  split; [exact H|].
  apply (proj1 (proj2 (proj2 (is_company_signals (py "XYZ LLC"))))).
  left. exact H.
Defined.

Lemma substring_is_not_a_cue :
  Str.contains (py "Bank") (py "Tyra Banks") = true /\
  is_company (py "Tyra Banks") = false /\
  Str.contains (Str.lower (py "Inc")) (Str.lower (py "Vince Lombardi")) = true /\
  is_company (py "Vince Lombardi") = false.
Proof. vm_compute. repeat split; reflexivity. Qed.

Lemma block_of_example :
  get jane_record "service_attorney_address"%string <> [] /\
  exists first others,
    pieces line_break_or_bar (get jane_record "service_attorney_address"%string)
    = first :: others /\
    (Str.count "|" (get jane_record "service_attorney_address"%string) = 0 ->
     lines_of (get jane_record "service_attorney_address"%string) = first :: others) /\
    attorney_firm (project_service (py "Jane Smith") jane_record
                     (fresh (map py defendants) (py "Jane Smith")))
    = Str.strip first /\
    attorney_address (project_service (py "Jane Smith") jane_record
                        (fresh (map py defendants) (py "Jane Smith")))
    = match others with
      | [] => []
      | _ => Str.strip (Str.join " "%string others)
      end.
Proof.
  assert (H : get jane_record "service_attorney_address"%string <> [])
    by (vm_compute; discriminate).
  split; [exact H|].
  exact (proj1 (project_attorney_block (map py defendants) (py "Jane Smith")
                  jane_record H)).
Defined.

Lemma barred_first_line :
  lines_of (get barred_record "service_attorney_address"%string)
  = [py "Doe | Smith"; py "12 Main St"] /\
  attorney_firm (project_service (py "Jane Smith") barred_record
                   (fresh (map py defendants) (py "Jane Smith")))
  = py "Doe" /\
  attorney_address (project_service (py "Jane Smith") barred_record
                      (fresh (map py defendants) (py "Jane Smith")))
  = py "Smith 12 Main St".
Proof. repeat split; reflexivity. Qed.

Lemma search_on_example_page :
  first_hit Page.driver (primary_test (py "Jane Smith")) (py "CERTIFIED MAIL")
    (firstn 5 [bank_row; jane_row]) jane_page jane_record jane_page /\
  search_service_types Page.driver service_types (py "Jane Smith") jane_page
  = (Ok (Some jane_record), jane_page) /\
  find_proof_of_service_fast Page.driver (py "Jane Smith") jane_page
  = (Ok (Some jane_record), jane_page).
Proof.
  assert (Hhit : first_hit Page.driver (primary_test (py "Jane Smith"))
                   (py "CERTIFIED MAIL") (firstn 5 [bank_row; jane_row])
                   jane_page jane_record jane_page).
  { exists [bank_row], jane_row, [], jane_page, (Some jane_record).
    split; [reflexivity|]. split; [|split].
    - apply (misses_cons Page.driver _ _ bank_row [] jane_page jane_page jane_page
               (Some bank_record)).
      + reflexivity.
      + reflexivity.
      + constructor.
    - reflexivity.
    - reflexivity. }
  split; [exact Hhit|].
  assert (Hrows : find_elements Page.driver XPATH (service_xpath (py "CERTIFIED MAIL"))
                    jane_page = (Ok [bank_row; jane_row], jane_page))
    by reflexivity.
  pose proof (two_phase_search Page.driver (py "Jane Smith"))
    as (_ & _ & Hsearch & _ & _ & Hresolver).
  split.
  - exact (proj1 (Hsearch (py "CERTIFIED MAIL") [py "PROCESS SERVER"] jane_page
                    [bank_row; jane_row] jane_page Hrows)
             jane_record jane_page Hhit).
  - exact (proj1 (Hresolver jane_page jane_page jane_page [bank_row; jane_row]
                    jane_page eq_refl eq_refl Hrows)
             jane_record jane_page Hhit).
Defined.

Lemma crowded_page_log :
  primary_test (py "Jane Smith") jane_record = true /\
  find_proof_of_service_fast Page.driver (py "Jane Smith") crowded_page
  = (Ok None, crowded_page) /\
  exists before log,
    snd (snd (find_proof_of_service_fast (logged Page.driver) (py "Jane Smith")
                (crowded_page, [])))
    = before ++ log /\
    (before = [] \/ exists links, before = [Queried docket_xpath links]) /\
    category_log [py "CERTIFIED MAIL"; py "PROCESS SERVER"] log.
Proof.
  split; [reflexivity|]. split; [reflexivity|].
  exact (proj2 (proj2 (five_candidates_two_categories Page.driver (py "Jane Smith")
                         crowded_page))).
Defined.

Lemma empty_page_is_absent :
  exists a d',
    extract_attorney_data Page.driver empty_page = (Ok a, d') /\
    (extraction_status a = py "No Service Records Found" ->
     attorney_name a = [] /\ attorney_firm a = [] /\
     attorney_address a = [] /\ attorney_phone a = []).
Proof.
  destruct (found_and_absent Page.driver empty_page) as (a & d' & H & _ & _ & _ & H4).
  exists a, d'. split; [exact H|exact H4].
Defined.

Lemma found_without_attorney_field :
  find_proof_of_service_fast Page.driver (py "Jane Smith") bare_page
  = (Ok (Some bare_record), bare_page) /\
  bare_record !! py "service_attorney_name" = None /\
  extract_attorney_data Page.driver bare_page = (Ok bare_data, bare_page) /\
  extraction_status bare_data = py "Found".
Proof. repeat split; reflexivity. Qed.

Lemma label_on_example_page :
  extract_attorney_data Page.driver jane_page = (Ok jane_data, jane_page) /\
  extraction_status jane_data = py "Found" /\
  Str.lower (defendant_name jane_data)
  = [] ++ Str.lower (main_defendant jane_data) ++ [] /\
  service_match jane_data = py "Main Defendant".
Proof.
  assert (H : extract_attorney_data Page.driver jane_page = (Ok jane_data, jane_page))
    by reflexivity.
  assert (E : Str.lower (defendant_name jane_data)
              = [] ++ Str.lower (main_defendant jane_data) ++ [])
    by reflexivity.
  split; [exact H|]. split; [reflexivity|]. split; [exact E|].
  apply (proj1 (proj1 (service_match_label Page.driver jane_page jane_data
                         jane_page H) eq_refl)).
  left. exists [], []. exact E.
Defined.

Lemma longer_served_name_is_main :
  extract_attorney_data Page.driver junior_page = (Ok junior_data, junior_page) /\
  extraction_status junior_data = py "Found" /\
  main_defendant junior_data = py "Jane Smith" /\
  defendant_name junior_data = py "JANE SMITH JR" /\
  service_match junior_data = py "Main Defendant" /\
  ~ (exists pre post,
        Str.lower (main_defendant junior_data)
        = pre ++ Str.lower (defendant_name junior_data) ++ post).
Proof.
  split; [reflexivity|]. repeat (split; [reflexivity|]).
  intros (pre & post & E). apply (f_equal (@length ascii)) in E.
  rewrite !length_app in E. simpl in E. lia.
Qed.

Lemma broken_row_is_skipped :
  extract_service_details_fast Page.driver (Page.broken "CERTIFIED MAIL")
    (py "CERTIFIED MAIL") faulty_page = (Ok None, faulty_page) /\
  main_defendant_scan Page.driver [Page.broken "CERTIFIED MAIL"; jane_row]
    (py "CERTIFIED MAIL") (py "Jane Smith") faulty_page
  = main_defendant_scan Page.driver [jane_row]
      (py "CERTIFIED MAIL") (py "Jane Smith") faulty_page.
Proof.
  assert (H : extract_service_details_fast Page.driver (Page.broken "CERTIFIED MAIL")
                (py "CERTIFIED MAIL") faulty_page = (Ok None, faulty_page))
    by reflexivity.
  split; [exact H|].
  exact (proj1 (proj1 (proj2 (proj2
           (candidate_fault_is_skipped Page.driver (Page.broken "CERTIFIED MAIL")
              [jane_row] (py "CERTIFIED MAIL") (py "Jane Smith") faulty_page)))
           faulty_page H)).
Defined.

Lemma nameless_row_wins :
  nameless_record !! py "service_name" = None /\
  main_defendant_scan Page.driver ([] ++ nameless_row :: [jane_row])
    (py "CERTIFIED MAIL") (py "Jane Smith") nameless_page
  = (Ok (Some nameless_record), nameless_page) /\
  service_match (project_service (py "Jane Smith") nameless_record
                   (fresh (map py defendants) (py "Jane Smith")))
  = py "Main Defendant".
Proof.
  assert (H : nameless_record !! py "service_name" = None)
    by reflexivity.
  split; [exact H|]. split.
  - apply (proj1 (proj2 (empty_served_name_wins Page.driver (py "Jane Smith")))
             (py "CERTIFIED MAIL") [] nameless_row [jane_row]
             nameless_page nameless_page nameless_record nameless_page).
    + constructor.
    + reflexivity.
    + left. exact H.
  - apply (proj2 (proj2 (empty_served_name_wins Page.driver (py "Jane Smith")))).
    left. exact H.
Defined.

Module CaseNumberFacts.
Import Re ReFacts StrFacts PatternFacts CaseFacts.

(** A successful parse, read back. *)
Lemma parse_some (s : str) (c : CaseNumber) :
  parse_case_number s = Some c ->
  exists y1 y2 t1 t2 d ds,
    clean_case s = y1 :: y2 :: t1 :: t2 :: d :: ds /\
    Str.isdecimal y1 = true /\ Str.isdecimal y2 = true /\
    Str.isupper_ascii t1 = true /\ Str.isupper_ascii t2 = true /\
    Forall (fun c => Str.isdecimal c = true) (d :: ds) /\
    c = {| year := [y1; y2]; case_type := [t1; t2];
           sequence := Str.zfill 7 (d :: ds); original := s |}.
Proof.
  unfold parse_case_number. destruct s as [|c0 s']; [discriminate|].
  destruct (re_match case_pattern (clean_case (c0 :: s'))) as [m|] eqn:E;
    [|discriminate].
  intros H. injection H as <-.
  pose proof (case_match_inv _ _ E)
    as (y1 & y2 & t1 & t2 & d & ds & after & Hl & Hy1 & Hy2 & Ht1 & Ht2 & Hd & Hds & Heol).
  assert (after = []) as ->.
  { apply at_eol_cases in Heol. destruct Heol as [->| ->]; [reflexivity|].
    pose proof (clean_case_end (c0 :: s')) as Hend. rewrite Hl in Hend.
    change (y1 :: y2 :: t1 :: t2 :: d :: ds ++ [Str.newline])
      with ((y1 :: y2 :: t1 :: t2 :: d :: ds) ++ [Str.newline]) in Hend.
    unfold ends_in_space in Hend. rewrite last_char_snoc in Hend.
    discriminate Hend. }
  rewrite app_nil_r in Hl.
  destruct (case_match_shape y1 y2 t1 t2 d ds [] Hy1 Hy2 Ht1 Ht2 Hd Hds eq_refl)
    as (m' & Hm' & G1 & G2 & G3).
  rewrite app_nil_r, <- Hl, E in Hm'.
  assert (m' = m) by congruence. subst m'.
  exists y1, y2, t1, t2, d, ds. unfold group in G1, G2, G3.
  rewrite G1, G2, G3.
  repeat split; auto.
Qed.

(** The parse of a text whose cleaned form has the shape. *)
Lemma parse_shaped (s : str) y1 y2 t1 t2 d (ds : str) :
  clean_case s = y1 :: y2 :: t1 :: t2 :: d :: ds ->
  Str.isdecimal y1 = true -> Str.isdecimal y2 = true ->
  Str.isupper_ascii t1 = true -> Str.isupper_ascii t2 = true ->
  Forall (fun c => Str.isdecimal c = true) (d :: ds) ->
  parse_case_number s
  = Some {| year := [y1; y2]; case_type := [t1; t2];
            sequence := Str.zfill 7 (d :: ds); original := s |}.
Proof.
  intros Hl Hy1 Hy2 Ht1 Ht2 Hds. inversion Hds as [|? ? Hd Hds']; subst.
  destruct (case_match_shape y1 y2 t1 t2 d ds [] Hy1 Hy2 Ht1 Ht2 Hd Hds' eq_refl)
    as (m & Hm & G1 & G2 & G3).
  rewrite app_nil_r in Hm. unfold parse_case_number.
  destruct s as [|c s']; [discriminate Hl|].
  rewrite Hl, Hm, G1, G2, G3. reflexivity.
Qed.

Lemma lstrip_id p (s : str) :
  Forall (fun c => p c = false) s -> Str.lstrip_by p s = s.
Proof. destruct 1 as [|x s Hx _]; simpl; [reflexivity|]. rewrite Hx. reflexivity. Qed.

Lemma strip_id (s : str) :
  Forall (fun c => Str.isspace c = false) s -> Str.strip s = s.
Proof.
  intros H. unfold Str.strip, Str.rstrip_by. rewrite (lstrip_id _ s H).
  rewrite lstrip_id; [apply rev_involutive|].
  apply List.Forall_forall. intros x Hx. apply in_rev in Hx.
  rewrite List.Forall_forall in H. auto.
Qed.

Lemma last_char_in (s : str) x : last_char None s = Some x -> In x s.
Proof.
  unfold last_char. destruct (rev s) as [|y l] eqn:E; [discriminate|].
  intros H. injection H as ->. apply in_rev. rewrite E. left. reflexivity.
Qed.

(** A text with no blank at either end is its own [strip]. *)
Lemma strip_ends_id (s : str) :
  (forall x, head s = Some x -> Str.isspace x = false) ->
  (forall x, last_char None s = Some x -> Str.isspace x = false) ->
  Str.strip s = s.
Proof.
  intros Hh Hl. unfold Str.strip, Str.rstrip_by.
  assert (E : Str.lstrip_by Str.isspace s = s).
  { destruct s as [|x s]; [reflexivity|]. simpl.
    rewrite (Hh x eq_refl). reflexivity. }
  rewrite E. unfold last_char in Hl.
  destruct (rev s) as [|y l] eqn:Er.
  - simpl. rewrite <- (rev_involutive s), Er. reflexivity.
  - simpl. rewrite (Hl y eq_refl). rewrite <- Er. apply rev_involutive.
Qed.

(** A bracket group holds an opening bracket. *)
Lemma bracket_opens first pv (u after : str) :
  matches bracket_pattern first pv u after ->
  exists u1 u3,
    u = u1 ++ "("%char :: u3 ++ [")"%char] /\
    Forall (fun c => Str.isspace c = true) u1 /\
    Forall (fun c => c <> ")"%char) u3.
Proof.
  unfold bracket_pattern. intros H.
  apply matches_seq_inv in H. destruct H as (u1 & r1 & -> & H1 & H).
  apply matches_seq_inv in H. destruct H as (u2 & r2 & -> & H2 & H).
  apply matches_seq_inv in H. destruct H as (u3 & r3 & -> & H3 & H).
  apply matches_star_chr in H1. apply matches_star_chr in H3.
  apply matches_chr in H2. destruct H2 as (x & -> & Hx).
  apply eqc_true in Hx. subst x.
  cbn [seq] in H. apply matches_chr in H. destruct H as (z & -> & Hz).
  apply eqc_true in Hz. subst z.
  exists u1, u3. split; [reflexivity|]. split; [exact H1|].
  eapply List.Forall_impl; [|exact H3]. cbn beta. intros a Ha ->.
  discriminate Ha.
Qed.

(** Text with no blank first and no bracket is copied by the
    substitution. *)
Lemma sub_copies (t : str) : forall p pv (e : str),
  Forall (fun c => Str.isspace c = false /\ c <> "("%char) t ->
  sub_from bracket_pattern [] 0 p pv (t ++ e)
  = t ++ sub_from bracket_pattern [] 0 (p + length t)
           (last_char pv t) e.
Proof.
  induction t as [|x t IH]; intros p pv e Ht.
  - simpl. rewrite Nat.add_0_r. reflexivity.
  - inversion Ht as [|? ? [Hx1 Hx2] Ht']; subst.
    cbn [app sub_from].
    destruct (match_at bracket_pattern (Cursor p pv (x :: t ++ e))) as [m|] eqn:E.
    + exfalso. apply match_at_sound in E.
      destruct E as (u & after & Hr & Hm & _). cbn [rest] in Hr.
      apply bracket_opens in Hm. destruct Hm as (u1 & u3 & -> & H1 & _).
      destruct u1 as [|a u1]; simpl in Hr; injection Hr as Hr _.
      * congruence.
      * subst a. inversion H1; subst. congruence.
    + rewrite IH by exact Ht'. rewrite last_char_cons.
      cbn [length]. rewrite <- Nat.add_succ_comm. reflexivity.
Qed.

Lemma sub_skips r (u : str) : forall p pv (e : str),
  sub_from r [] (length u) p pv (u ++ e)
  = sub_from r [] 0 (p + length u) (last_char pv u) e.
Proof.
  induction u as [|x u IH]; intros p pv e.
  - simpl. rewrite Nat.add_0_r. reflexivity.
  - cbn [length app sub_from]. rewrite IH, last_char_cons.
    rewrite <- Nat.add_succ_comm. reflexivity.
Qed.

(** A match that is dropped. *)
Lemma sub_drops r (u e : str) p pv m :
  u <> [] ->
  match_at r (Cursor p pv (u ++ e)) = Some m ->
  m_end m - m_start m = length u ->
  sub_from r [] 0 p pv (u ++ e)
  = sub_from r [] 0 (p + length u) (last_char pv u) e.
Proof.
  intros Hne Hm Hlen. destruct u as [|x b]; [congruence|].
  cbn [app sub_from]. cbn [app] in Hm. rewrite Hm, Hlen.
  cbn [length app]. rewrite (sub_skips r b), last_char_cons.
  rewrite <- Nat.add_succ_comm. reflexivity.
Qed.

Lemma bracketed_matches (g : str * str) first pv (after : str) :
  well_bracketed g ->
  matches bracket_pattern first pv (bracketed g) after.
Proof.
  intros [H1 H3]. unfold bracket_pattern, bracketed.
  apply matches_seq_cons; [apply star_chr_matches; exact H1|].
  change ("("%char :: snd g ++ [")"%char])
    with (["("%char] ++ snd g ++ [")"%char]).
  apply matches_seq_cons; [constructor; apply eqc_refl|].
  apply matches_seq_cons.
  - apply star_chr_matches. eapply List.Forall_impl; [|exact H3].
    cbn beta. intros a Ha. destruct (Str.eqc a ")") eqn:E; [|reflexivity].
    apply eqc_true in E. contradiction.
  - cbn [seq]. constructor. apply eqc_refl.
Qed.

(** Where a group starts, the match is that group. *)
Lemma bracketed_unique (g : str * str) (e u after : str) first pv :
  well_bracketed g ->
  bracketed g ++ e = u ++ after ->
  matches bracket_pattern first pv u after ->
  u = bracketed g.
Proof.
  intros [H1 H3] Heq Hm. apply bracket_opens in Hm.
  destruct Hm as (u1 & u3 & -> & Hu1 & Hu3). unfold bracketed in *.
  destruct g as [w inner]. cbn [fst snd] in *.
  assert (Hw : forall (a b : str) (ra rb : str),
             Forall (fun c => Str.isspace c = true) a ->
             Forall (fun c => Str.isspace c = true) b ->
             a ++ "("%char :: ra = b ++ "("%char :: rb -> a = b /\ ra = rb).
  { induction a as [|x a IHa]; intros b ra rb Ha Hb E.
    - destruct b as [|y b]; simpl in E.
      + injection E as ->. auto.
      + injection E as <- _. inversion Hb; subst. discriminate.
    - destruct b as [|y b]; simpl in E.
      + injection E as -> _. inversion Ha; subst. discriminate.
      + injection E as -> E. inversion Ha; inversion Hb; subst.
        destruct (IHa b ra rb) as [-> ->]; auto. }
  assert (Hi : forall (a b : str) (ra rb : str),
             Forall (fun c => c <> ")"%char) a ->
             Forall (fun c => c <> ")"%char) b ->
             a ++ ")"%char :: ra = b ++ ")"%char :: rb -> a = b /\ ra = rb).
  { induction a as [|x a IHa]; intros b ra rb Ha Hb E.
    - destruct b as [|y b]; simpl in E.
      + injection E as ->. auto.
      + injection E as <- _. inversion Hb; subst. congruence.
    - destruct b as [|y b]; simpl in E.
      + injection E as -> _. inversion Ha; subst. congruence.
      + injection E as -> E. inversion Ha; inversion Hb; subst.
        destruct (IHa b ra rb) as [-> ->]; auto. }
  rewrite <- !app_assoc in Heq. cbn [app] in Heq.
  rewrite <- !app_assoc in Heq. cbn [app] in Heq.
  destruct (Hw _ _ _ _ H1 Hu1 Heq) as [-> Heq'].
  destruct (Hi _ _ _ _ H3 Hu3 Heq') as [-> _]. reflexivity.
Qed.

(** Bracket groups written one after the other all go. *)
Lemma sub_groups (gs : list (str * str)) : forall p pv,
  Forall well_bracketed gs ->
  sub_from bracket_pattern [] 0 p pv (concat (map bracketed gs)) = [].
Proof.
  induction gs as [|g gs IH]; intros p pv Hgs.
  - cbn [map concat sub_from].
    destruct (match_at bracket_pattern (Cursor p pv [])) as [m|] eqn:E;
      [|reflexivity].
    exfalso. apply match_at_sound in E.
    destruct E as (u & after & Hr & Hm & _). cbn [rest] in Hr.
    apply bracket_nonempty in Hm. destruct u; [congruence|discriminate].
  - inversion Hgs as [|? ? Hg Hgs']; subst. cbn [map concat].
    set (e := concat (map bracketed gs)).
    destruct (match_at_complete bracket_pattern
                (Cursor p pv (bracketed g ++ e)) (bracketed g) e eq_refl
                (bracketed_matches g _ _ e Hg)) as [m Hm].
    pose proof (match_at_sound _ _ _ Hm) as (u & after & Hr & Hu & Hs & He & _).
    cbn [rest pos] in Hr, Hs, He.
    pose proof (bracketed_unique g e u after _ _ Hg Hr Hu) as ->.
    rewrite (sub_drops _ _ _ _ _ m); [apply IH; exact Hgs'| |exact Hm|lia].
    unfold bracketed. destruct (fst g); discriminate.
Qed.

(** The cleaned form of a case number followed by bracket groups. *)
Lemma clean_bracketed (core : str) (gs : list (str * str)) :
  core <> [] ->
  Forall (fun c => Str.isspace c = false /\ c <> "("%char) core ->
  Forall well_bracketed gs ->
  clean_case (core ++ concat (map bracketed gs)) = core.
Proof.
  intros Hne Hcore Hgs.
  assert (Hstrip : Str.strip (core ++ concat (map bracketed gs))
                   = core ++ concat (map bracketed gs)).
  { apply strip_ends_id.
    - destruct core as [|x core]; [congruence|].
      inversion Hcore as [|? ? [Hx _] _]; subst.
      intros a Ha. injection Ha as <-. exact Hx.
    - destruct gs as [|g gs _] using rev_ind.
      + cbn [map concat]. rewrite app_nil_r. intros a Ha.
        apply last_char_in in Ha. rewrite List.Forall_forall in Hcore.
        apply Hcore in Ha. tauto.
      + rewrite map_app, concat_app. cbn [map concat]. rewrite app_nil_r.
        unfold bracketed at 2.
        replace (core ++ concat (map bracketed gs)
                  ++ fst g ++ "("%char :: snd g ++ [")"%char])
          with ((core ++ concat (map bracketed gs)
                  ++ fst g ++ "("%char :: snd g) ++ [")"%char]).
        2:{ rewrite <- !app_assoc. reflexivity. }
        rewrite last_char_snoc. intros a Ha. injection Ha as <-.
        reflexivity. }
  unfold clean_case, sub. rewrite Hstrip, sub_copies by exact Hcore.
  rewrite sub_groups by exact Hgs. apply app_nil_r.
Qed.

Lemma digit_plain c : Str.isdecimal c = true ->
  Str.isspace c = false /\ c <> "("%char.
Proof.
  destruct c as [[] [] [] [] [] [] [] []]; intros H; try discriminate H;
    split; (reflexivity || discriminate).
Qed.

Lemma upper_plain c : Str.isupper_ascii c = true ->
  Str.isspace c = false /\ c <> "("%char.
Proof.
  destruct c as [[] [] [] [] [] [] [] []]; intros H; try discriminate H;
    split; (reflexivity || discriminate).
Qed.

Lemma zfill_digits n (ds : str) :
  Forall (fun c => Str.isdecimal c = true) ds ->
  Forall (fun c => Str.isdecimal c = true) (Str.zfill n ds).
Proof.
  intros H. unfold Str.zfill. apply List.Forall_app. split; [|exact H].
  apply List.Forall_forall. intros x Hx. apply repeat_spec in Hx. subst x.
  reflexivity.
Qed.

Lemma zfill_length n (ds : str) :
  length (Str.zfill n ds) = Nat.max n (length ds).
Proof. unfold Str.zfill. rewrite length_app, repeat_length. lia. Qed.

Lemma zfill_zfill n (ds : str) : Str.zfill n (Str.zfill n ds) = Str.zfill n ds.
Proof.
  unfold Str.zfill at 1. rewrite zfill_length.
  replace (n - Nat.max n (length ds)) with 0 by lia. reflexivity.
Qed.

End CaseNumberFacts.

Import Re ReFacts StrFacts PatternFacts CaseFacts CaseNumberFacts.

(** X1. A parsed case number is well formed: the year is two digits,
    the case type two capital letters, the sequence is seven digits
    or more, all decimal; the sequence is the digits of the cleaned
    text with zeros before them, never cut, and [original] is the
    text as given. *)
Theorem parsed_fields_well_formed (s : str) (c : CaseNumber) :
  parse_case_number s = Some c ->
  length (year c) = 2 /\ Forall (fun x => Str.isdecimal x = true) (year c) /\
  length (case_type c) = 2 /\
  Forall (fun x => Str.isupper_ascii x = true) (case_type c) /\
  7 <= length (sequence c) /\
  Forall (fun x => Str.isdecimal x = true) (sequence c) /\
  original c = s /\
  exists zeros ds,
    clean_case s = year c ++ case_type c ++ ds /\ ds <> [] /\
    sequence c = zeros ++ ds /\
    Forall (fun x => x = "0"%char) zeros /\
    length (sequence c) = Nat.max 7 (length ds).
Proof.
  intros H. apply parse_some in H.
  destruct H as (y1 & y2 & t1 & t2 & d & ds & Hl & Hy1 & Hy2 & Ht1 & Ht2 & Hds & ->).
  cbn [year case_type sequence original].
  split; [reflexivity|]. split; [repeat constructor; assumption|].
  split; [reflexivity|]. split; [repeat constructor; assumption|].
  split; [rewrite zfill_length; lia|].
  split; [apply zfill_digits; exact Hds|].
  split; [reflexivity|].
  exists (repeat "0"%char (7 - length (d :: ds))), (d :: ds).
  split; [exact Hl|]. split; [discriminate|]. split; [reflexivity|].
  split; [|apply zfill_length].
  apply List.Forall_forall. intros x Hx. apply repeat_spec in Hx. exact Hx.
Qed.

Lemma parsed_fields_of_example :
  parse_case_number (py "23CV5681 (12844)") = Some Cases.case_5681 /\
  7 <= length (sequence Cases.case_5681) /\
  Forall (fun x => Str.isdecimal x = true) (sequence Cases.case_5681).
Proof.
  split; [reflexivity|].
  pose proof (parsed_fields_well_formed (py "23CV5681 (12844)")
                Cases.case_5681 eq_refl)
    as (_ & _ & _ & _ & H1 & H2 & _).
  exact (conj H1 H2).
Defined.

(** X2. The normal form parses to itself: year, case type and padded
    sequence of a parsed case number, written one after the other,
    parse again to the same three fields. *)
Theorem parsed_number_parses_again (s : str) (c : CaseNumber) :
  parse_case_number s = Some c ->
  parse_case_number (year c ++ case_type c ++ sequence c)
  = Some {| year := year c; case_type := case_type c;
            sequence := sequence c;
            original := year c ++ case_type c ++ sequence c |}.
Proof.
  intros H. apply parse_some in H.
  destruct H as (y1 & y2 & t1 & t2 & d & ds & Hl & Hy1 & Hy2 & Ht1 & Ht2 & Hds & ->).
  cbn [year case_type sequence original].
  pose proof (zfill_digits 7 _ Hds) as Hz.
  pose proof (zfill_length 7 (d :: ds)) as Hlen.
  pose proof (zfill_zfill 7 (d :: ds)) as Hzz.
  destruct (Str.zfill 7 (d :: ds)) as [|z zs] eqn:Ez;
    [simpl in Hlen; lia|].
  cbn [app].
  assert (Hplain : Forall (fun c => Str.isspace c = false /\ c <> "("%char)
                     (y1 :: y2 :: t1 :: t2 :: z :: zs)).
  { repeat (apply List.Forall_cons; [first [apply digit_plain; assumption
                                     | apply upper_plain; assumption]|]).
    inversion Hz; subst.
    apply List.Forall_cons; [apply digit_plain; assumption|].
    eapply List.Forall_impl; [|eassumption]. intros a Ha. apply digit_plain. exact Ha. }
  pose proof (clean_bracketed (y1 :: y2 :: t1 :: t2 :: z :: zs) []
                ltac:(discriminate) Hplain (List.Forall_nil _)) as Hc.
  cbn [map concat] in Hc. rewrite app_nil_r in Hc.
  rewrite (parse_shaped _ y1 y2 t1 t2 z zs Hc Hy1 Hy2 Ht1 Ht2 Hz), Hzz.
  reflexivity.
Qed.

Lemma parsed_example_parses_again :
  parse_case_number (py "23CV5681 (12844)") = Some Cases.case_5681 /\
  parse_case_number (py "23CV0005681")
  = Some {| year := py "23"; case_type := py "CV"; sequence := py "0005681";
            original := py "23CV0005681" |}.
Proof.
  split; [reflexivity|].
  exact (parsed_number_parses_again (py "23CV5681 (12844)")
           Cases.case_5681 eq_refl).
Defined.

(** X3. Bracket groups written after a case number are ignored, how
    many they are and whatever stands between the brackets: the
    fields are those of the number alone. *)
Theorem bracket_groups_are_ignored (core : str) (gs : list (str * str))
    (c : CaseNumber) :
  Forall (fun x => Str.isspace x = false /\ x <> "("%char) core ->
  Forall well_bracketed gs ->
  parse_case_number core = Some c ->
  parse_case_number (core ++ concat (map bracketed gs))
  = Some {| year := year c; case_type := case_type c;
            sequence := sequence c;
            original := core ++ concat (map bracketed gs) |}.
Proof.
  intros Hcore Hgs H. apply parse_some in H.
  destruct H as (y1 & y2 & t1 & t2 & d & ds & Hl & Hy1 & Hy2 & Ht1 & Ht2 & Hds & ->).
  cbn [year case_type sequence original].
  assert (Hne : core <> []).
  { intros ->. discriminate Hl. }
  pose proof (clean_bracketed core [] Hne Hcore (List.Forall_nil _)) as Hc.
  cbn [map concat] in Hc. rewrite app_nil_r in Hc.
  apply parse_shaped; auto.
  rewrite clean_bracketed by assumption. congruence.
Qed.

Lemma bracket_groups_of_example :
  parse_case_number (py "23CV5681") = Some Cases.case_bare /\
  parse_case_number (py "23CV5681 (12844)  (a (b)")
  = Some {| year := py "23"; case_type := py "CV"; sequence := py "0005681";
            original := py "23CV5681 (12844)  (a (b)" |}.
Proof.
  split; [reflexivity|].
  refine (bracket_groups_are_ignored (py "23CV5681")
            [ (py " ", py "12844"); (py "  ", py "a (b") ]
            Cases.case_bare _ _ eq_refl).
  - repeat constructor; discriminate.
  - repeat constructor; discriminate.
Defined.

Module FoldFacts.
Import Re ReFacts StrFacts PatternFacts ClassifierFacts.

Ltac by_cases x := destruct x as [[] [] [] [] [] [] [] []]; reflexivity.

Ltac split_folds Hf :=
  let Hf1 := fresh "Hf1" in
  let Hf2 := fresh "Hf2" in
  cbn [folds] in Hf; apply andb_true_iff in Hf; destruct Hf as [Hf1 Hf2].

Lemma isspace_lower x : Str.isspace (Str.lower_char x) = Str.isspace x.
Proof. by_cases x. Qed.

Lemma isdecimal_lower x : Str.isdecimal (Str.lower_char x) = Str.isdecimal x.
Proof. by_cases x. Qed.

Lemma ampersand_lower x : Str.eqc (Str.lower_char x) "&" = Str.eqc x "&".
Proof. by_cases x. Qed.

Lemma comma_lower x : Str.eqc (Str.lower_char x) "," = Str.eqc x ",".
Proof. by_cases x. Qed.

Lemma newline_lower x :
  Str.eqc (Str.lower_char x) Str.newline = Str.eqc x Str.newline.
Proof. by_cases x. Qed.

Lemma lower_nil (u : str) : Str.lower u = [] <-> u = [].
Proof. destruct u; simpl; split; congruence. Qed.

Lemma lower_empty (u : str) :
  bool_decide (Str.lower u = []) = bool_decide (u = []).
Proof. apply bool_decide_ext, lower_nil. Qed.

Lemma last_char_lower pv (u : str) :
  last_char (option_map Str.lower_char pv) (Str.lower u)
  = option_map Str.lower_char (last_char pv u).
Proof.
  unfold last_char, Str.lower. rewrite <- map_rev.
  destruct (rev u); reflexivity.
Qed.

Lemma isword_opt_lower o :
  isword_opt (option_map Str.lower_char o) = isword_opt o.
Proof. destruct o; simpl; [apply isword_lower|reflexivity]. Qed.

Lemma at_boundary_lower pv (s : str) :
  at_boundary (option_map Str.lower_char pv) (Str.lower s) = at_boundary pv s.
Proof.
  unfold at_boundary. rewrite isword_opt_lower. f_equal.
  destruct s; simpl; [reflexivity|apply isword_lower].
Qed.

Lemma at_eol_lower (s : str) : at_eol (Str.lower s) = at_eol s.
Proof.
  destruct s as [|x [|y s]]; simpl; [reflexivity|apply newline_lower|reflexivity].
Qed.

Lemma folds_chr p x :
  folds (Chr p) = true -> p (Str.lower_char x) = p x.
Proof.
  cbn [folds]. intros H. rewrite List.forallb_forall in H.
  specialize (H (nat_of_ascii x)). rewrite ascii_nat_embedding in H.
  apply eqb_prop, H, in_seq. pose proof (nat_ascii_bounded x). lia.
Qed.

(** A match stays one when the subject is put in lower case. *)
Lemma matches_lower r first pv (u after : str) :
  matches r first pv u after ->
  folds r = true ->
  matches r first (option_map Str.lower_char pv) (Str.lower u)
    (Str.lower after).
Proof.
  induction 1; intros Hf;
    try match type of Hf with
        | folds (Cat _ _) = true => split_folds Hf
        | folds (Alt _ _) = true => split_folds Hf
        end.
  - constructor.
  - change (Str.lower [x]) with [Str.lower_char x].
    constructor. rewrite (folds_chr _ _ Hf). assumption.
  - constructor.
  - change (Str.lower []) with (@nil ascii).
    constructor. rewrite at_eol_lower. assumption.
  - change (Str.lower []) with (@nil ascii).
    constructor. rewrite at_boundary_lower. assumption.
  - unfold Str.lower at 1. rewrite map_app. fold (Str.lower u1) (Str.lower u2).
    constructor.
    + specialize (IHmatches1 Hf1). unfold Str.lower in IHmatches1 at 2.
      rewrite map_app in IHmatches1. exact IHmatches1.
    + rewrite lower_empty, last_char_lower. exact (IHmatches2 Hf2).
  - apply M_alt_l. exact (IHmatches Hf1).
  - apply M_alt_r. exact (IHmatches Hf2).
  - apply M_star_nil.
  - unfold Str.lower at 1. rewrite map_app. fold (Str.lower u1) (Str.lower u2).
    apply M_star_cons.
    + rewrite lower_nil. assumption.
    + specialize (IHmatches1 Hf). unfold Str.lower in IHmatches1 at 2.
      rewrite map_app in IHmatches1. exact IHmatches1.
    + rewrite last_char_lower. exact (IHmatches2 Hf).
  - constructor. exact (IHmatches Hf).
Qed.

(** And a match in the lowered subject is one in the subject. *)
Lemma matches_raised r first pv' (u' after' : str) :
  matches r first pv' u' after' ->
  folds r = true ->
  forall pv (u after : str),
    pv' = option_map Str.lower_char pv ->
    u' = Str.lower u -> after' = Str.lower after ->
    matches r first pv u after.
Proof.
  induction 1; intros Hf pv0 u0 after0 Hpv Hu Hafter;
    try match type of Hf with
        | folds (Cat _ _) = true => split_folds Hf
        | folds (Alt _ _) = true => split_folds Hf
        end.
  - symmetry in Hu. apply (proj1 (lower_nil _)) in Hu. subst. constructor.
  - destruct u0 as [|x0 [|? ?]]; try discriminate Hu.
    injection Hu as ->. constructor.
    rewrite <- (folds_chr _ _ Hf). assumption.
  - symmetry in Hu. apply (proj1 (lower_nil _)) in Hu. subst. constructor.
  - symmetry in Hu. apply (proj1 (lower_nil _)) in Hu. subst. constructor.
    rewrite <- at_eol_lower. assumption.
  - symmetry in Hu. apply (proj1 (lower_nil _)) in Hu. subst. constructor.
    rewrite <- at_boundary_lower. assumption.
  - symmetry in Hu. unfold Str.lower in Hu. apply map_eq_app in Hu.
    destruct Hu as (a & b & -> & <- & <-). subst.
    constructor.
    + apply IHmatches1; auto. unfold Str.lower. rewrite map_app. reflexivity.
    + fold (Str.lower a) in IHmatches2.
      rewrite lower_empty, last_char_lower in IHmatches2.
      apply IHmatches2; auto.
  - apply M_alt_l. eapply IHmatches; eauto.
  - apply M_alt_r. eapply IHmatches; eauto.
  - symmetry in Hu. apply (proj1 (lower_nil _)) in Hu. subst. apply M_star_nil.
  - symmetry in Hu. unfold Str.lower in Hu. apply map_eq_app in Hu.
    destruct Hu as (a & b & -> & <- & <-). subst.
    apply M_star_cons.
    + intros ->. apply H. reflexivity.
    + apply IHmatches1; auto. unfold Str.lower. rewrite map_app. reflexivity.
    + fold (Str.lower a) in IHmatches2.
      rewrite last_char_lower in IHmatches2.
      apply IHmatches2; auto.
  - constructor. eapply IHmatches; eauto.
Qed.

Lemma occurs_lower r (s : str) :
  folds r = true -> occurs r (Str.lower s) <-> occurs r s.
Proof.
  intros Hf. unfold occurs. split.
  - intros (pre & u & post & Hs & Hm).
    unfold Str.lower in Hs. apply map_eq_app in Hs.
    destruct Hs as (a & bc & -> & <- & Hbc).
    apply map_eq_app in Hbc. destruct Hbc as (b & c & -> & <- & <-).
    exists a, b, c. split; [reflexivity|].
    fold (Str.lower a) in Hm. rewrite lower_empty in Hm.
    eapply matches_raised; eauto.
    change None with (option_map Str.lower_char None).
    apply last_char_lower.
  - intros (pre & u & post & -> & Hm).
    exists (Str.lower pre), (Str.lower u), (Str.lower post).
    split; [unfold Str.lower; rewrite !map_app; reflexivity|].
    rewrite lower_empty.
    change None with (option_map Str.lower_char None).
    rewrite last_char_lower. apply matches_lower; assumption.
Qed.

Lemma lower_lower x : Str.lower_char (Str.lower_char x) = Str.lower_char x.
Proof. by_cases x. Qed.

Lemma folds_lit_i c : folds (lit_i c) = true.
Proof.
  unfold lit_i. cbn [folds]. apply List.forallb_forall. intros n _.
  rewrite lower_lower. apply eqb_reflx.
Qed.

Lemma folds_stop : folds (lit ".") = true.
Proof. vm_compute. reflexivity. Qed.

Lemma folds_seq rs : forallb folds rs = true -> folds (seq rs) = true.
Proof.
  induction rs as [|r [|r' rs] IH]; cbn [seq forallb folds]; intros H.
  - reflexivity.
  - rewrite andb_true_r in H. exact H.
  - apply andb_true_iff in H. destruct H as [-> H]. exact (IH H).
Qed.

Lemma folds_alt rs : forallb folds rs = true -> folds (alt rs) = true.
Proof.
  induction rs as [|r [|r' rs] IH]; cbn [alt forallb folds]; intros H.
  - vm_compute. reflexivity.
  - rewrite andb_true_r in H. exact H.
  - apply andb_true_iff in H. destruct H as [-> H]. exact (IH H).
Qed.

Lemma folds_text_i (w : str) : folds (text_i w) = true.
Proof.
  unfold text_i. apply folds_seq.
  apply List.forallb_forall. intros r Hr. apply in_map_iff in Hr.
  destruct Hr as (c & <- & _). apply folds_lit_i.
Qed.

Lemma folds_whole rs :
  forallb folds rs = true -> folds (seq [WordB; alt rs; WordB]) = true.
Proof.
  intros H. apply folds_seq. cbn [forallb folds].
  rewrite andb_true_r. apply folds_alt. exact H.
Qed.

Lemma folds_cat a b : folds a = true -> folds b = true -> folds (Cat a b) = true.
Proof. cbn [folds]. intros -> ->. reflexivity. Qed.

Lemma folds_opt a : folds a = true -> folds (Opt a) = true.
Proof. unfold Opt. cbn [folds]. intros ->. reflexivity. Qed.

Lemma folds_words (ws : list string) : folds (words ws) = true.
Proof.
  unfold words. apply folds_whole.
  apply List.forallb_forall. intros r Hr. apply in_map_iff in Hr.
  destruct Hr as (w & <- & _). apply folds_text_i.
Qed.

Lemma folds_dotted (letters : string) : folds (dotted letters) = true.
Proof.
  unfold dotted. apply folds_seq. rewrite !forallb_app.
  cbn [forallb folds]. rewrite andb_true_r.
  assert (H : forall l : str,
             forallb folds (flat_map (fun c => [lit_i c; Opt (lit ".")]) l)
             = true).
  { induction l as [|c l IH]; [reflexivity|].
    cbn [flat_map app forallb].
    rewrite folds_lit_i, IH, (folds_opt _ folds_stop). reflexivity. }
  rewrite H. reflexivity.
Qed.

Lemma patterns_fold : forallb folds company_patterns = true.
Proof.
  assert (Hi : folds (seq [ WordB;
                            alt [ Cat (text_i "investment"%string)
                                    (Opt (lit_i "s"));
                                  text_i "fund"%string;
                                  text_i "capital"%string;
                                  text_i "securities"%string;
                                  text_i "wealth"%string ];
                            WordB ]) = true).
  { apply folds_whole. apply List.forallb_forall. intros r Hr.
    repeat (destruct Hr as [<-|Hr];
            [lazymatch goal with
             | |- folds (text_i _) = true => apply folds_text_i
             | |- _ =>
                 apply folds_cat;
                 [apply folds_text_i|apply folds_opt, folds_lit_i]
             end|]).
    destruct Hr. }
  apply List.forallb_forall. intros r Hr. unfold company_patterns in Hr.
  repeat (destruct Hr as [<-|Hr];
          [lazymatch goal with
           | |- folds (words _) = true => apply folds_words
           | |- folds (dotted _) = true => apply folds_dotted
           | |- folds (text_i _) = true => apply folds_text_i
           | |- _ => exact Hi
           end|]).
  destruct Hr.
Qed.

Lemma has_cue_lower (name : str) : has_cue (Str.lower name) <-> has_cue name.
Proof.
  pose proof patterns_fold as Hp. rewrite List.forallb_forall in Hp.
  unfold has_cue. split; intros (cue & Hin & Ho); exists cue;
    (split; [exact Hin|]); apply (occurs_lower cue name (Hp cue Hin));
    exact Ho.
Qed.

Lemma count_lower c (s : str) :
  (forall x, Str.eqc (Str.lower_char x) c = Str.eqc x c) ->
  Str.count c (Str.lower s) = Str.count c s.
Proof.
  intros Hc. unfold Str.count, Str.lower.
  induction s as [|x s IH]; simpl; [reflexivity|].
  rewrite Hc. destruct (Str.eqc x c); simpl; rewrite IH; reflexivity.
Qed.

Lemma lower_rev (l : str) : Str.lower (rev l) = rev (Str.lower l).
Proof. apply map_rev. Qed.

Lemma split_ws_aux_lower (s : str) : forall cur : str,
  Str.split_ws_aux (Str.lower cur) (Str.lower s)
  = map Str.lower (Str.split_ws_aux cur s).
Proof.
  induction s as [|x s IH]; intros cur.
  - cbn [Str.lower map Str.split_ws_aux].
    destruct cur as [|c cur]; [reflexivity|].
    change (Str.lower (c :: cur)) with (Str.lower_char c :: Str.lower cur).
    cbn iota. cbn [map]. rewrite lower_rev. reflexivity.
  - change (Str.lower (x :: s)) with (Str.lower_char x :: Str.lower s).
    cbn [Str.split_ws_aux]. rewrite isspace_lower.
    destruct (Str.isspace x).
    + destruct cur as [|c cur].
      * change (Str.lower []) with (@nil ascii). cbn iota. apply (IH []).
      * change (Str.lower (c :: cur)) with (Str.lower_char c :: Str.lower cur).
        cbn iota. cbn [map]. rewrite lower_rev. f_equal. apply (IH []).
    + apply (IH (x :: cur)).
Qed.

Lemma split_ws_lower (s : str) :
  length (Str.split_ws (Str.lower s)) = length (Str.split_ws s).
Proof.
  unfold Str.split_ws.
  rewrite (split_ws_aux_lower s [] : Str.split_ws_aux [] (Str.lower s) = _).
  apply length_map.
Qed.

Lemma has_structure_lower (name : str) :
  has_structure (Str.lower name) <-> has_structure name.
Proof.
  unfold has_structure.
  rewrite (count_lower "&" name ampersand_lower).
  rewrite (count_lower "," name comma_lower).
  rewrite split_ws_lower.
  assert (Hd : (exists c, In c (Str.lower name) /\ Str.isdecimal c = true)
               <-> (exists c, In c name /\ Str.isdecimal c = true)).
  { split.
    - intros (c & Hin & Hc). unfold Str.lower in Hin.
      apply in_map_iff in Hin. destruct Hin as (x & <- & Hx).
      exists x. rewrite isdecimal_lower in Hc. auto.
    - intros (c & Hin & Hc). exists (Str.lower_char c).
      split; [apply in_map; exact Hin|].
      rewrite isdecimal_lower. exact Hc. }
  rewrite Hd. reflexivity.
Qed.

Lemma is_company_lower (name : str) :
  is_company (Str.lower name) = is_company name.
Proof.
  destruct (is_company name) eqn:E.
  - apply is_company_true. apply is_company_true in E.
    rewrite has_cue_lower, has_structure_lower. exact E.
  - apply is_company_false. apply is_company_false in E.
    rewrite has_cue_lower, has_structure_lower. exact E.
Qed.

Lemma lower_small (c : ascii) :
  Str.lower_char (small_ascii c) = Str.lower_char c.
Proof. destruct c as [[] [] [] [] [] [] [] []]; reflexivity. Qed.

Lemma lower_ascii_lower (s : str) :
  Str.lower (ascii_lower s) = Str.lower s.
Proof.
  unfold Str.lower, ascii_lower. rewrite map_map.
  apply map_ext. exact lower_small.
Qed.

End FoldFacts.

(** X4. The classifier does not look at the case of the letters A to
    Z: two names that differ only in the case of such letters are both
    organizations or both individuals. *)
Theorem is_company_ignores_ascii_case (a b : str) :
  ascii_lower a = ascii_lower b -> is_company a = is_company b.
Proof.
  intros H.
  rewrite <- (FoldFacts.is_company_lower a), <- (FoldFacts.is_company_lower b).
  rewrite <- (FoldFacts.lower_ascii_lower a), <- (FoldFacts.lower_ascii_lower b).
  rewrite H. reflexivity.
Qed.

Lemma is_company_ignores_ascii_case_of_example :
  ascii_lower (py "first national BANK") = ascii_lower (py "First National Bank") /\
  is_company (py "first national BANK") = is_company (py "First National Bank").
Proof.
  split; [reflexivity|].
  exact (is_company_ignores_ascii_case (py "first national BANK")
           (py "First National Bank") eq_refl).
Defined.

Module StripFacts.
Import Re ReFacts StrFacts CaseFacts CaseNumberFacts.

Lemma lstrip_suffix p (s : str) :
  exists pre, s = pre ++ Str.lstrip_by p s.
Proof.
  induction s as [|x s [pre IH]]; simpl.
  - exists []. reflexivity.
  - destruct (p x).
    + exists (x :: pre). simpl. f_equal. exact IH.
    + exists []. reflexivity.
Qed.

Lemma rstrip_prefix p (s : str) :
  exists post, s = Str.rstrip_by p s ++ post.
Proof.
  unfold Str.rstrip_by. destruct (lstrip_suffix p (rev s)) as [pre H].
  exists (rev pre). rewrite <- rev_app_distr, <- H. symmetry.
  apply rev_involutive.
Qed.

(** [strip] keeps a part of the text. *)
Lemma strip_infix (s : str) :
  exists pre post, s = pre ++ Str.strip s ++ post.
Proof.
  unfold Str.strip. destruct (lstrip_suffix Str.isspace s) as [pre H1].
  destruct (rstrip_prefix Str.isspace (Str.lstrip_by Str.isspace s))
    as [post H2].
  exists pre, post. rewrite <- H2. exact H1.
Qed.

Lemma strip_forall (Q : ascii -> Prop) (s : str) :
  Forall Q s -> Forall Q (Str.strip s).
Proof.
  intros H. destruct (strip_infix s) as (pre & post & E).
  rewrite E in H. apply List.Forall_app in H. destruct H as [_ H].
  apply List.Forall_app in H. tauto.
Qed.

Lemma strip_stripped (s : str) : stripped (Str.strip s).
Proof.
  unfold stripped. apply strip_ends_id.
  - intros x Hx. unfold Str.strip in Hx.
    destruct (rstrip_prefix Str.isspace (Str.lstrip_by Str.isspace s))
      as [post E].
    apply (lstrip_head Str.isspace s). rewrite E.
    destruct (Str.rstrip_by Str.isspace (Str.lstrip_by Str.isspace s));
      [discriminate Hx|exact Hx].
  - intros x Hx. pose proof (strip_ends s) as H.
    unfold ends_in_space in H. rewrite Hx in H. exact H.
Qed.

End StripFacts.

Section ScraperFacts.

Import MonadFacts StripFacts.
Context {D W : Type} (driver : WebDriver D W).

(** What the loop over the defendant rows adds is a name. *)
Lemma defendant_rows_names rows : forall d names,
  Forall (fun n => n <> [] /\ stripped n) names ->
  Forall (fun n => n <> [] /\ stripped n)
    (snd (snd (defendant_rows_loop driver rows (d, names)))).
Proof.
  induction rows as [|row rows IH]; intros d names Hn; [exact Hn|].
  cbn [defendant_rows_loop]. unfold bind at 1, try_except at 1.
  unfold bind at 1, lift at 1. cbn [fst snd].
  destruct (el_find_elements driver row TAG_NAME _ d) as [[cells|e] d1];
    cbn [fst snd ret]; [|apply IH; exact Hn].
  destruct cells as [|c0 [|c1 cells]]; cbn [ret]; try (apply IH; exact Hn).
  unfold bind at 1, lift at 1. cbn [fst snd].
  destruct (el_text driver c1 d1) as [[t|e] d2]; cbn [fst snd ret];
    [|apply IH; exact Hn].
  destruct (Str.strip t) as [|x name] eqn:E; cbn [ret]; [apply IH; exact Hn|].
  unfold modify_local. cbn [fst snd]. apply IH.
  apply List.Forall_app. split; [exact Hn|].
  constructor; [|constructor]. split; [discriminate|].
  rewrite <- E. apply strip_stripped.
Qed.

Lemma defendants_names d names d' :
  extract_all_defendants_fast driver d = (Ok names, d') ->
  Forall (fun n => n <> [] /\ stripped n) names.
Proof.
  unfold extract_all_defendants_fast, with_local.
  unfold bind at 1, try_except at 1.
  unfold bind at 1, lift at 1. cbn [fst snd].
  destruct (implicitly_wait driver 2 d) as [[[]|e] d1]; cbn [fst snd ret get_local].
  2: { intros H. injection H as <- _. constructor. }
  unfold bind at 1, lift at 1. cbn [fst snd].
  destruct (wait_presence driver 5 ID _ d1) as [[body|e] d2];
    cbn [fst snd ret get_local].
  2: { intros H. injection H as <- _. constructor. }
  unfold bind at 1, lift at 1. cbn [fst snd].
  destruct (el_find_elements driver body XPATH _ d2) as [[rows|e] d3];
    cbn [fst snd ret get_local].
  2: { intros H. injection H as <- _. constructor. }
  pose proof (defendant_rows_names rows d3 [] (List.Forall_nil _)) as Hl.
  destruct (defendant_rows_loop driver rows (d3, [])) as [[[]|e] [d4 l]];
    cbn [fst snd] in *; intros H; injection H as <- _; exact Hl.
Qed.

Lemma main_defendant_in (defendants : list str) :
  defendants <> [] -> In (find_main_defendant defendants) defendants.
Proof.
  destruct defendants as [|first others]; [congruence|]. intros _.
  unfold find_main_defendant.
  destruct (List.filter _ (first :: others)) as [|ind l] eqn:E.
  - left. reflexivity.
  - assert (H : In ind (List.filter (fun name => negb (is_company name))
                          (first :: others))).
    { rewrite E. left. reflexivity. }
    apply filter_In in H. tauto.
Qed.

(** What the label of a detail row becomes. *)
Lemma label_shape (u : str) :
  Forall (fun c => c <> " "%char /\ Str.isupper_ascii c = false)
    (Str.replace_char " " "_"%string (Str.lower u)).
Proof.
  unfold Str.replace_char, Str.lower.
  induction u as [|x u IH]; [constructor|].
  cbn [map flat_map]. apply List.Forall_app. split; [|exact IH].
  destruct x as [[] [] [] [] [] [] [] []];
    repeat constructor; discriminate.
Qed.

Lemma read_rows_fields service_type rows : forall acc d r d',
  read_detail_rows driver rows acc d = (Ok r, d') ->
  (forall k v, acc !! k = Some v -> field_ok service_type k v) ->
  forall k v, r !! k = Some v -> field_ok service_type k v.
Proof.
  induction rows as [|row rows IH]; intros acc d r d'; cbn [read_detail_rows].
  - intros H. injection H as <- _. auto.
  - unfold bind at 1.
    destruct (el_find_elements driver row TAG_NAME _ d) as [[cells|e] d1];
      [|discriminate].
    destruct cells as [|c0 [|c1 cells]]; try apply IH.
    unfold bind at 1. destruct (el_text driver c0 d1) as [[t0|e] d2]; [|discriminate].
    unfold bind at 1. destruct (el_text driver c1 d2) as [[t1|e] d3]; [|discriminate].
    pose proof (label_shape (Str.rstrip_char ":" (Str.strip t0))) as Hl.
    destruct (Str.replace_char _ _ _) as [|x label] eqn:E; [apply IH|].
    intros H Hacc. eapply IH; [exact H|].
    intros k v. destruct (decide (k = py "service_" ++ x :: label)) as [->|Hk].
    + rewrite lookup_insert_eq. intros Hv. injection Hv as <-.
      split; [|left; apply strip_stripped].
      exists (x :: label). split; [reflexivity|]. split; [discriminate|exact Hl].
    + rewrite lookup_insert_ne by congruence. apply Hacc.
Qed.

Lemma read_rows_keeps rows k : forall acc d r d',
  read_detail_rows driver rows acc d = (Ok r, d') ->
  is_Some (acc !! k) -> is_Some (r !! k).
Proof.
  induction rows as [|row rows IH]; intros acc d r d'; cbn [read_detail_rows].
  - intros H. injection H as <- _. auto.
  - unfold bind at 1.
    destruct (el_find_elements driver row TAG_NAME _ d) as [[cells|e] d1];
      [|discriminate].
    destruct cells as [|c0 [|c1 cells]]; try apply IH.
    unfold bind at 1. destruct (el_text driver c0 d1) as [[t0|e] d2]; [|discriminate].
    unfold bind at 1. destruct (el_text driver c1 d2) as [[t1|e] d3]; [|discriminate].
    destruct (Str.replace_char _ _ _) as [|x label] eqn:E; [apply IH|].
    intros H Hacc. eapply IH; [exact H|].
    destruct (decide (k = py "service_" ++ x :: label)) as [->|Hk].
    + rewrite lookup_insert_eq. eauto.
    + rewrite lookup_insert_ne by congruence. exact Hacc.
Qed.

(** The record of a candidate comes from the loop over its rows. *)
Lemma extract_reads row service_type d found d' :
  extract_service_details_fast driver row service_type d = (Ok (Some found), d') ->
  exists rows d1 d2,
    read_detail_rows driver rows
      {[ py "service_delivery_method" := service_type ]} d1 = (Ok found, d2).
Proof.
  unfold extract_service_details_fast, try_except, expand_read_collapse.
  unfold bind at 1.
  destruct (el_find_element driver row XPATH _ d) as [[img|e] d1];
    [|discriminate].
  unfold bind at 1.
  destruct (el_get_attribute driver img _ d1) as [[doc_id|e] d2]; [|discriminate].
  unfold bind at 1.
  destruct (doc_num_of doc_id d2) as [[doc_num|e] d3]; [|discriminate].
  unfold bind at 1.
  destruct (el_click driver img d3) as [[[]|e] d4]; [|discriminate].
  unfold bind at 1, sleep at 1.
  unfold bind at 1.
  destruct (wait_presence driver 3 ID _ _) as [[table|e] d5]; [|discriminate].
  unfold bind at 1.
  destruct (el_find_elements driver table TAG_NAME _ d5) as [[rows|e] d6];
    [|discriminate].
  unfold bind at 1.
  destruct (read_detail_rows driver rows _ d6) as [[r|e] d7] eqn:E; [|discriminate].
  unfold bind at 1.
  destruct (el_click driver img d7) as [[[]|e] d8]; [|discriminate].
  unfold bind at 1, sleep at 1, ret.
  intros H. injection H as <- _. eauto.
Qed.

Section OneScanPasses.

Variable scan : list W -> M D (option ServiceRecord).
Variable test : ServiceRecord -> bool.
Variable service_type : str.

Hypothesis scan_nil : forall d, scan [] d = (Ok None, d).
Hypothesis scan_cons : forall row rows d,
  scan (row :: rows) d =
  match extract_service_details_fast driver row service_type d with
  | (Ok o, d') =>
      match hit test o with
      | Some found => (Ok (Some found), d')
      | None => scan rows d'
      end
  | (Raised _, d') => scan rows d'
  end.

Lemma scan_passes rows : forall d found d',
  scan rows d = (Ok (Some found), d') -> test found = true.
Proof.
  induction rows as [|row rows IH]; intros d found d'.
  - rewrite scan_nil. discriminate.
  - rewrite scan_cons.
    destruct (extract_service_details_fast driver row service_type d)
      as [[o|e] d1] eqn:E; [|apply IH].
    destruct (hit test o) as [f|] eqn:Hh; [|apply IH].
    intros H. injection H as <- _.
    unfold hit in Hh. destruct (usable o) as [f'|]; [|discriminate].
    destruct (test f') eqn:Ht; [|discriminate].
    injection Hh as <-. exact Ht.
Qed.

End OneScanPasses.

Lemma search_passes types main : forall d found d',
  search_service_types driver types main d = (Ok (Some found), d') ->
  primary_test main found = true \/ fallback_test found = true.
Proof.
  induction types as [|st types IH]; intros d found d'.
  - discriminate.
  - rewrite search_types_cons.
    destruct (find_elements driver XPATH (service_xpath st) d) as [[rows|e] d0];
      [|discriminate].
    destruct rows as [|r rows]; [apply IH|].
    destruct (main_defendant_scan driver _ st main d0) as [[[f|]|e] d1] eqn:E1;
      [| |discriminate].
    + intros H. injection H as <- _. left.
      apply (scan_passes (fun rows => main_defendant_scan driver rows st main)
               (primary_test main) st (fun _ => eq_refl)
               (fun row rows d => main_scan_cons driver row rows st main d)
               _ _ _ _ E1).
    + destruct (human_defendant_scan driver _ st d1) as [[[f|]|e] d2] eqn:E2;
        [|apply IH|discriminate].
      intros H. injection H as <- _. right.
      apply (scan_passes (fun rows => human_defendant_scan driver rows st)
               fallback_test st (fun _ => eq_refl)
               (fun row rows d => human_scan_cons driver row rows st d)
               _ _ _ _ E2).
Qed.

(** The record the resolver returns passed one of the two tests. *)
Lemma resolver_passes main d found d' :
  find_proof_of_service_fast driver main d = (Ok (Some found), d') ->
  primary_test main found = true \/ fallback_test found = true.
Proof.
  unfold find_proof_of_service_fast, try_except. unfold bind at 1.
  destruct (implicitly_wait driver 2 d) as [[[]|e] d1]; [|discriminate].
  unfold bind at 1.
  destruct (open_docket driver d1) as [[[]|e] d2]; [|discriminate].
  destruct (search_service_types driver service_types main d2)
    as [[r|e] d3] eqn:E; [|discriminate].
  intros H. injection H as -> _. eapply search_passes; eauto.
Qed.

(** The dictionary at the end of a run of [extract_attorney_data]. *)
Lemma extraction_shape d a d' :
  extract_attorney_data driver d = (Ok a, d') ->
  (exists v,
      In v [ py "Timeout - Overall Process"; py "Timeout - After Defendants";
             py "No Defendants Found" ] /\
      a = set_extraction_status v initial_attorney_data) \/
  (exists defendants d2 d3,
      extract_all_defendants_fast driver d2 = (Ok defendants, d3) /\
      defendants <> [] /\
      ((exists v,
           In v [ py "No Defendants Found";
                  py "Timeout - Before Service Search";
                  py "No Service Records Found" ] /\
           a = set_extraction_status v
                 (fresh defendants (find_main_defendant defendants))) \/
       (exists found d5 d6,
           find_proof_of_service_fast driver
             (find_main_defendant defendants) d5 = (Ok (Some found), d6) /\
           a = project_service (find_main_defendant defendants) found
                 (fresh defendants (find_main_defendant defendants))))).
Proof.
  rewrite extract_attorney_data_run.
  destruct (time_time driver d) as [t0 d1].
  destruct (time_time driver d1) as [t1 d2].
  destruct (Qgtb (t1 - t0) TIMEOUT_SECONDS).
  { intros H. injection H as <- _. left. eexists. split; [|reflexivity].
    simpl. tauto. }
  destruct (defendants_total driver d2) as (defendants & d3 & E2).
  rewrite E2.
  destruct (time_time driver d3) as [t2 d4].
  destruct (Qgtb (t2 - t0) TIMEOUT_SECONDS).
  { intros H. injection H as <- _. left. eexists. split; [|reflexivity].
    simpl. tauto. }
  destruct defendants as [|name names].
  { intros H. injection H as <- _. left. eexists. split; [|reflexivity].
    simpl. tauto. }
  set (defendants := name :: names) in *.
  assert (Hne : defendants <> []) by discriminate.
  clearbody defendants. cbv zeta.
  destruct (bool_decide (find_main_defendant defendants = no_defendants_found)).
  { intros H. injection H as <- _. right. exists defendants, d2, d3.
    split; [exact E2|]. split; [exact Hne|]. left.
    eexists. split; [|reflexivity]. simpl. tauto. }
  destruct (time_time driver d4) as [t3 d5].
  destruct (Qgtb (t3 - t0) TIMEOUT_SECONDS).
  { intros H. injection H as <- _. right. exists defendants, d2, d3.
    split; [exact E2|]. split; [exact Hne|]. left.
    eexists. split; [|reflexivity]. simpl. tauto. }
  destruct (resolver_total driver (find_main_defendant defendants) d5)
    as (r & d6 & E5).
  rewrite E5. rewrite (usable_resolved driver _ _ _ _ E5).
  destruct (time_time driver d6) as [t d7].
  destruct r as [found|]; intros H; injection H as <- _;
    right; exists defendants, d2, d3;
    (split; [exact E2|]); (split; [exact Hne|]).
  - right. exists found, d5, d6. split; [exact E5|reflexivity].
  - left. eexists. split; [|reflexivity]. simpl. tauto.
Qed.

Lemma extraction_status_set d :
  exists a d',
    extract_attorney_data driver d = (Ok a, d') /\
    In (extraction_status a) extraction_statuses.
Proof.
  destruct (extraction_total driver d) as (a & d' & Ha).
  exists a, d'. split; [exact Ha|].
  apply extraction_shape in Ha. unfold extraction_statuses.
  destruct Ha as [(v & Hv & ->)|(defendants & d2 & d3 & _ & _ & [(v & Hv & ->)|H])].
  - simpl in *. intuition auto.
  - simpl in *. intuition auto.
  - destruct H as (found & d5 & d6 & _ & ->). simpl. tauto.
Qed.

End ScraperFacts.

Import MonadFacts StripFacts ProjectorFacts.
Import Page Examples.

(** X5. [extract_all_defendants_fast] never raises, and every name it
    returns is a cell text with the white space at its ends removed,
    and is not empty. *)
Theorem defendants_are_names {D W : Type} (driver : WebDriver D W) (d : D) :
  exists names d',
    extract_all_defendants_fast driver d = (Ok names, d') /\
    Forall (fun n => n <> [] /\ stripped n) names.
Proof.
  destruct (defendants_total driver d) as (names & d' & H).
  exists names, d'. split; [exact H|]. eapply defendants_names; eauto.
Qed.

(** X6. A record read from a docket row always holds
    [service_delivery_method]; each of its keys is [service_] and a
    label with no blank and no capital letter; each of its values is
    stripped, the category under [service_delivery_method] apart. *)
Theorem service_record_fields {D W : Type} (driver : WebDriver D W)
    (row : W) (service_type : str) (d : D) (found : ServiceRecord) (d' : D) :
  extract_service_details_fast driver row service_type d
  = (Ok (Some found), d') ->
  is_Some (found !! py "service_delivery_method") /\
  forall k v, found !! k = Some v -> field_ok service_type k v.
Proof.
  intros H. apply extract_reads in H. destruct H as (rows & d1 & d2 & H).
  split.
  - eapply read_rows_keeps; [exact H|]. rewrite lookup_singleton_eq. eauto.
  - eapply read_rows_fields; [exact H|].
    intros k v Hk. apply lookup_singleton_Some in Hk. destruct Hk as [<- <-].
    split; [|right; split; reflexivity].
    exists (py "delivery_method"). split; [reflexivity|].
    split; [discriminate|]. repeat constructor; discriminate.
Qed.

Lemma service_record_fields_of_example :
  extract_service_details_fast Page.driver jane_row (py "CERTIFIED MAIL")
    jane_page = (Ok (Some jane_record), jane_page) /\
  is_Some (jane_record !! py "service_delivery_method") /\
  forall k v, jane_record !! k = Some v -> field_ok (py "CERTIFIED MAIL") k v.
Proof.
  assert (H : extract_service_details_fast Page.driver jane_row
                (py "CERTIFIED MAIL") jane_page
              = (Ok (Some jane_record), jane_page)) by reflexivity.
  split; [exact H|].
  exact (service_record_fields Page.driver jane_row (py "CERTIFIED MAIL")
           jane_page jane_record jane_page H).
Defined.

(** X7. Under the status "Found" the served party is the main
    defendant, by the containment test, or bears a name that is not
    empty and is classified as an individual; under the label "Other
    Human Defendant" it is the second. *)
Theorem attorney_of_main_or_individual {D W : Type} (driver : WebDriver D W)
    (d : D) (a : AttorneyData) (d' : D) :
  extract_attorney_data driver d = (Ok a, d') ->
  extraction_status a = py "Found" ->
  (names_match (main_defendant a) (defendant_name a) = true \/
   (defendant_name a <> [] /\ is_company (defendant_name a) = false)) /\
  (service_match a = py "Other Human Defendant" ->
   defendant_name a <> [] /\ is_company (defendant_name a) = false).
Proof.
  intros Ha Hs.
  assert (Hor : names_match (main_defendant a) (defendant_name a) = true \/
                (defendant_name a <> [] /\ is_company (defendant_name a) = false)).
  { apply extraction_shape in Ha.
    destruct Ha as [(v & Hv & ->)|(defendants & d2 & d3 & _ & _ & [(v & Hv & ->)|H])].
    - simpl in Hv, Hs. subst v. intuition discriminate.
    - simpl in Hv, Hs. subst v. intuition discriminate.
    - destruct H as (found & d5 & d6 & Hf & ->).
      apply resolver_passes in Hf. cbn [main_defendant defendant_name
        project_service fresh set_defendants].
      destruct Hf as [Hp|Hb]; [left; exact Hp|right].
      unfold fallback_test in Hb. apply andb_true_iff in Hb.
      destruct Hb as [H1 H2]. apply negb_true_iff in H1, H2.
      apply bool_decide_eq_false in H1. auto. }
  split; [exact Hor|]. intros Hm.
  pose proof (extraction_shape driver d a d' Ha) as Hshape.
  destruct Hshape as [(v & Hv & ->)|(defendants & d2 & d3 & _ & _ & [(v & Hv & ->)|H])].
  - discriminate Hm.
  - discriminate Hm.
  - destruct H as (found & d5 & d6 & Hf & ->).
    cbn [main_defendant defendant_name service_match
           project_service fresh set_defendants] in *.
    destruct (names_match (find_main_defendant defendants)
                (get found "service_name"%string)); [discriminate Hm|].
    destruct Hor as [Hor|Hor]; [discriminate Hor|exact Hor].
Qed.

Lemma other_individual_on_example_page :
  extract_attorney_data Page.driver Cases.roe_page
  = (Ok Cases.roe_data, Cases.roe_page) /\
  defendant_name Cases.roe_data <> [] /\
  is_company (defendant_name Cases.roe_data) = false.
Proof.
  assert (H : extract_attorney_data Page.driver Cases.roe_page
              = (Ok Cases.roe_data, Cases.roe_page)) by reflexivity.
  split; [exact H|].
  exact (proj2 (attorney_of_main_or_individual Page.driver Cases.roe_page
                  Cases.roe_data Cases.roe_page H eq_refl) eq_refl).
Defined.

(** X8. [extract_attorney_data] never raises and ends with one of six
    statuses: the first status "Not Found" never comes out, and no
    status "Error: ..." either, since the calls it makes catch their
    own faults. *)
Theorem extraction_ends_with_status {D W : Type} (driver : WebDriver D W)
    (d : D) :
  exists a d',
    extract_attorney_data driver d = (Ok a, d') /\
    In (extraction_status a) extraction_statuses.
Proof. apply extraction_status_set. Qed.

(** X9. The columns [service_date], [certified_mail_no],
    [defendant_address] and [service_status] are never filled: they
    are empty in every dictionary [extract_attorney_data] returns, and
    in every row a case gives. *)
Theorem unused_columns_stay_empty {D W : Type} (driver : WebDriver D W) :
  (forall d a d',
      extract_attorney_data driver d = (Ok a, d') ->
      service_date a = [] /\ certified_mail_no a = [] /\
      defendant_address a = [] /\ service_status a = []) /\
  (forall parsed_case d c d',
      process_case driver parsed_case d = (Ok c, d') ->
      dict_get (py "service_date") (dict c) = Text [] /\
      dict_get (py "certified_mail_no") (dict c) = Text [] /\
      dict_get (py "defendant_address") (dict c) = Text [] /\
      dict_get (py "service_status") (dict c) = Text []).
Proof.
  assert (H1 : forall d a d',
             extract_attorney_data driver d = (Ok a, d') ->
             service_date a = [] /\ certified_mail_no a = [] /\
             defendant_address a = [] /\ service_status a = []).
  { intros d a d' Ha. apply extraction_shape in Ha.
    destruct Ha as [(v & Hv & ->)|(defendants & d2 & d3 & _ & _ & [(v & Hv & ->)|H])].
    - repeat split.
    - repeat split.
    - destruct H as (found & d5 & d6 & _ & ->). repeat split. }
  split; [exact H1|].
  intros parsed_case d c d' Hc. apply process_case_cases in Hc.
  destruct Hc as [(v & -> & _)|(a & d1 & d2 & -> & Ha)].
  - repeat split.
  - apply H1 in Ha. destruct Ha as (E1 & E2 & E3 & E4).
    unfold dict_get, dict, items. cbn [dict_lookup].
    rewrite E1, E2, E3, E4. repeat split.
Qed.

(** X10. The three defendant columns agree: either no defendant was
    kept and the three are empty and zero, or [all_defendants] joins
    the names scraped, [defendant_count] is their number and
    [main_defendant] is one of them, chosen by [find_main_defendant];
    the second holds whenever the service search was attempted or
    answered. *)
Theorem defendant_columns_agree {D W : Type} (driver : WebDriver D W)
    (d : D) (a : AttorneyData) (d' : D) :
  extract_attorney_data driver d = (Ok a, d') ->
  ((main_defendant a = [] /\ all_defendants a = [] /\ defendant_count a = 0) \/
   (exists defendants,
       defendants <> [] /\
       Forall (fun n => n <> [] /\ stripped n) defendants /\
       all_defendants a = Str.join "; "%string defendants /\
       defendant_count a = length defendants /\
       main_defendant a = find_main_defendant defendants /\
       In (main_defendant a) defendants)) /\
  (In (extraction_status a)
     [ py "Found"; py "No Service Records Found";
       py "Timeout - Before Service Search" ] ->
   main_defendant a <> [] /\ 0 < defendant_count a).
Proof.
  intros Ha. apply extraction_shape in Ha.
  destruct Ha as [(v & Hv & ->)|(defendants & d2 & d3 & Hd & Hne & H)].
  - split; [left; repeat split|].
    simpl in *. intuition (subst; discriminate).
  - assert (Hnames := defendants_names driver _ _ _ Hd).
    assert (Hin := main_defendant_in defendants Hne).
    assert (Hmain : find_main_defendant defendants <> []).
    { rewrite List.Forall_forall in Hnames. apply Hnames in Hin. tauto. }
    assert (Hlen : 0 < length defendants).
    { destruct defendants; [congruence|simpl; lia]. }
    destruct H as [(v & Hv & ->)|(found & d5 & d6 & _ & ->)];
      (split; [right; exists defendants; repeat split; auto|]);
      intros _; split; assumption.
Qed.

Lemma defendant_columns_on_example_page :
  extract_attorney_data Page.driver jane_page = (Ok jane_data, jane_page) /\
  main_defendant jane_data <> [] /\ 0 < defendant_count jane_data.
Proof.
  assert (H : extract_attorney_data Page.driver jane_page
              = (Ok jane_data, jane_page)) by reflexivity.
  split; [exact H|].
  apply (proj2 (defendant_columns_agree Page.driver jane_page jane_data
                  jane_page H)).
  left. reflexivity.
Defined.

Module LineFacts.

Lemma pieces_clean p (s : str) :
  Forall (Forall (fun c => p c = false)) (pieces p s).
Proof.
  induction s as [|x s IH]; cbn [pieces].
  - repeat constructor.
  - destruct (p x) eqn:E.
    + constructor; [constructor|exact IH].
    + destruct (pieces p s) as [|w ws].
      * repeat constructor. exact E.
      * inversion IH; subst. constructor; [|assumption].
        constructor; assumption.
Qed.

Lemma join_forall (Q : ascii -> Prop) (sep : str) (parts : list str) :
  Forall Q sep -> Forall (Forall Q) parts -> Forall Q (Str.join sep parts).
Proof.
  intros Hsep. induction 1 as [|p ps Hp Hps IH]; [constructor|].
  cbn [Str.join]. destruct ps as [|p' ps]; [exact Hp|].
  apply List.Forall_app. split; [exact Hp|].
  apply List.Forall_app. split; [exact Hsep|exact IH].
Qed.

Lemma projection_single_line main found defendants :
  single_line (attorney_firm
                 (project_service main found (fresh defendants main))) /\
  single_line (attorney_address
                 (project_service main found (fresh defendants main))).
Proof.
  unfold project_service. cbn [attorney_firm attorney_address].
  rewrite address_lines_pieces.
  pose proof (pieces_clean line_break_or_bar
                (get found "service_attorney_address"%string)) as Hp.
  destruct (negb _); [|split; constructor].
  destruct (pieces _ _) as [|first others]; [split; constructor|].
  inversion Hp as [|? ? Hfirst Hothers]; subst. split.
  - apply strip_forall. exact Hfirst.
  - destruct others as [|o others]; [constructor|].
    apply strip_forall, join_forall; [|exact Hothers].
    repeat constructor.
Qed.

End LineFacts.

(** X11. The attorney's firm and address are written on one line:
    whatever the docket holds, neither column holds a line break or a
    vertical bar. *)
Theorem firm_and_address_on_one_line {D W : Type} (driver : WebDriver D W)
    (d : D) (a : AttorneyData) (d' : D) :
  extract_attorney_data driver d = (Ok a, d') ->
  single_line (attorney_firm a) /\ single_line (attorney_address a).
Proof.
  intros Ha. apply extraction_shape in Ha.
  destruct Ha as [(v & Hv & ->)|(defendants & d2 & d3 & _ & _ & [(v & Hv & ->)|H])].
  - split; constructor.
  - split; constructor.
  - destruct H as (found & d5 & d6 & _ & ->).
    apply LineFacts.projection_single_line.
Qed.

Lemma firm_and_address_on_example_page :
  extract_attorney_data Page.driver jane_page = (Ok jane_data, jane_page) /\
  single_line (attorney_firm jane_data) /\
  single_line (attorney_address jane_data).
Proof.
  assert (H : extract_attorney_data Page.driver jane_page
              = (Ok jane_data, jane_page)) by reflexivity.
  split; [exact H|].
  exact (firm_and_address_on_one_line Page.driver jane_page jane_data
           jane_page H).
Defined.

Module ValidateFacts.

(** The cases the pass finds from the index [idx] on. *)
Definition valid_at (idx : nat) (cells : list (option str))
    (c : nat * str * CaseNumber) : Prop :=
  exists j, fst (fst c) = idx + j /\
            cells !! j = Some (Some (snd (fst c))) /\
            parse_case_number (snd (fst c)) = Some (snd c).

Definition invalid_at (idx : nat) (cells : list (option str))
    (c : nat * str) : Prop :=
  exists j, fst c = idx + j /\
            cells !! j = Some (Some (snd c)) /\
            parse_case_number (snd c) = None.

Lemma validate_loop_app cells : forall idx v i,
  validate_loop idx cells v i
  = (v ++ fst (validate_loop idx cells [] []),
     i ++ snd (validate_loop idx cells [] [])).
Proof.
  induction cells as [|cell cells IH]; intros idx v i; cbn [validate_loop].
  - cbn [fst snd]. rewrite !app_nil_r. reflexivity.
  - destruct cell as [s|]; [|apply IH].
    destruct (parse_case_number s) as [p|].
    + rewrite (IH (S idx) (v ++ [(idx, s, p)]) i).
      rewrite (IH (S idx) ([] ++ [(idx, s, p)]) []).
      cbn [fst snd app]. rewrite <- app_assoc. reflexivity.
    + rewrite (IH (S idx) v (i ++ [(idx, s)])).
      rewrite (IH (S idx) [] ([] ++ [(idx, s)])).
      cbn [fst snd app]. rewrite <- app_assoc. reflexivity.
Qed.

Lemma validate_loop_cons idx cell cells :
  validate_loop idx (cell :: cells) [] []
  = match cell with
    | None => validate_loop (S idx) cells [] []
    | Some s =>
        match parse_case_number s with
        | Some p =>
            ((idx, s, p) :: fst (validate_loop (S idx) cells [] []),
             snd (validate_loop (S idx) cells [] []))
        | None =>
            (fst (validate_loop (S idx) cells [] []),
             (idx, s) :: snd (validate_loop (S idx) cells [] []))
        end
    end.
Proof.
  cbn [validate_loop]. destruct cell as [s|]; [|reflexivity].
  destruct (parse_case_number s) as [p|];
    rewrite validate_loop_app; reflexivity.
Qed.

Lemma valid_members cells : forall idx c,
  In c (fst (validate_loop idx cells [] [])) <-> valid_at idx cells c.
Proof.
  induction cells as [|cell cells IH]; intros idx c.
  - cbn. split; [tauto|]. intros (j & _ & H & _). discriminate H.
  - rewrite validate_loop_cons.
    assert (Hshift : valid_at (S idx) cells c <->
                     exists j, fst (fst c) = idx + S j /\
                               (cell :: cells) !! S j = Some (Some (snd (fst c))) /\
                               parse_case_number (snd (fst c)) = Some (snd c)).
    { unfold valid_at. split; intros (j & H1 & H2 & H3); exists j;
        (split; [lia|]); split; assumption. }
    destruct cell as [s|].
    + destruct (parse_case_number s) as [p|] eqn:E; cbn [fst snd In].
      * rewrite IH, Hshift. split.
        -- intros [<-|(j & H)]; [|exists (S j); exact H].
           exists 0. cbn. rewrite Nat.add_0_r. auto.
        -- intros (j & H1 & H2 & H3). destruct j as [|j].
           ++ left. cbn in H2. injection H2 as H2.
              destruct c as [[k s'] p']. cbn in *. subst.
              rewrite E in H3. injection H3 as <-. f_equal. f_equal. lia.
           ++ right. exists j. auto.
      * rewrite IH, Hshift. split.
        -- intros (j & H). exists (S j). exact H.
        -- intros (j & H1 & H2 & H3). destruct j as [|j]; [|exists j; auto].
           cbn in H2. injection H2 as H2. subst. congruence.
    + rewrite IH, Hshift. split.
      * intros (j & H). exists (S j). exact H.
      * intros (j & H1 & H2 & H3). destruct j as [|j]; [discriminate H2|].
        exists j. auto.
Qed.

Lemma invalid_members cells : forall idx c,
  In c (snd (validate_loop idx cells [] [])) <-> invalid_at idx cells c.
Proof.
  induction cells as [|cell cells IH]; intros idx c.
  - cbn. split; [tauto|]. intros (j & _ & H & _). discriminate H.
  - rewrite validate_loop_cons.
    assert (Hshift : invalid_at (S idx) cells c <->
                     exists j, fst c = idx + S j /\
                               (cell :: cells) !! S j = Some (Some (snd c)) /\
                               parse_case_number (snd c) = None).
    { unfold invalid_at. split; intros (j & H1 & H2 & H3); exists j;
        (split; [lia|]); split; assumption. }
    destruct cell as [s|].
    + destruct (parse_case_number s) as [p|] eqn:E; cbn [fst snd In].
      * rewrite IH, Hshift. split.
        -- intros (j & H). exists (S j). exact H.
        -- intros (j & H1 & H2 & H3). destruct j as [|j]; [|exists j; auto].
           cbn in H2. injection H2 as H2. subst. congruence.
      * rewrite IH, Hshift. split.
        -- intros [<-|(j & H)]; [|exists (S j); exact H].
           exists 0. cbn. rewrite Nat.add_0_r. auto.
        -- intros (j & H1 & H2 & H3). destruct j as [|j].
           ++ left. cbn in H2. injection H2 as H2.
              destruct c as [k s']. cbn in *. subst. f_equal. lia.
           ++ right. exists j. auto.
    + rewrite IH, Hshift. split.
      * intros (j & H). exists (S j). exact H.
      * intros (j & H1 & H2 & H3). destruct j as [|j]; [discriminate H2|].
        exists j. auto.
Qed.

(** The row labels of the valid cases go up. *)
Lemma valid_sorted cells : forall idx,
  rising
    (map (fun c => fst (fst c)) (fst (validate_loop idx cells [] []))).
Proof.
  induction cells as [|cell cells IH]; intros idx.
  - exact I.
  - rewrite validate_loop_cons. destruct cell as [s|]; [|apply IH].
    destruct (parse_case_number s) as [p|]; cbn [fst snd map]; [|apply IH].
    split; [|apply IH].
    apply List.Forall_forall. intros k Hk. apply in_map_iff in Hk.
    destruct Hk as (c & <- & Hc). apply valid_members in Hc.
    destruct Hc as (j & H & _). cbn [fst]. lia.
Qed.

Lemma invalid_sorted cells : forall idx,
  rising (map fst (snd (validate_loop idx cells [] []))).
Proof.
  induction cells as [|cell cells IH]; intros idx.
  - exact I.
  - rewrite validate_loop_cons. destruct cell as [s|]; [|apply IH].
    destruct (parse_case_number s) as [p|]; cbn [fst snd map]; [apply IH|].
    split; [|apply IH].
    apply List.Forall_forall. intros k Hk. apply in_map_iff in Hk.
    destruct Hk as (c & <- & Hc). apply invalid_members in Hc.
    destruct Hc as (j & H & _). lia.
Qed.

Lemma validate_count cells : forall idx,
  length (fst (validate_loop idx cells [] []))
  + length (snd (validate_loop idx cells [] []))
  + length (List.filter (fun c => bool_decide (c = None)) cells)
  = length cells.
Proof.
  induction cells as [|cell cells IH]; intros idx; [reflexivity|].
  rewrite validate_loop_cons. specialize (IH (S idx)).
  destruct cell as [s|]; cbn [List.filter length].
  - rewrite bool_decide_eq_false_2 by discriminate.
    destruct (parse_case_number s); cbn [fst snd length]; lia.
  - rewrite bool_decide_eq_true_2 by reflexivity. cbn [length]. lia.
Qed.

Lemma rising_nodup (l : list nat) : rising l -> List.NoDup l.
Proof.
  induction l as [|x l IH]; intros H; [constructor|].
  destruct H as [Hx Hl]. constructor; [|exact (IH Hl)].
  intros Hin. rewrite List.Forall_forall in Hx. apply Hx in Hin. lia.
Qed.

End ValidateFacts.

(** X12. The pass over the column [Case #] sorts the cells that are
    not empty into two lists: the valid cases are the cells
    [parse_case_number] accepts, each with its row label and its
    parse; the invalid ones are the cells it rejects; both lists go
    by rising row label, and with the empty cells they count all the
    rows. *)
Theorem validation_sorts_the_cells (cells : list (option str)) :
  (forall idx s parsed,
      In (idx, s, parsed) (fst (validate cells)) <->
      cells !! idx = Some (Some s) /\ parse_case_number s = Some parsed) /\
  (forall idx s,
      In (idx, s) (snd (validate cells)) <->
      cells !! idx = Some (Some s) /\ parse_case_number s = None) /\
  rising (map (fun c => fst (fst c)) (fst (validate cells))) /\
  rising (map fst (snd (validate cells))) /\
  length (fst (validate cells)) + length (snd (validate cells))
  + length (List.filter (fun c => bool_decide (c = None)) cells)
  = length cells.
Proof.
  unfold validate. split; [|split; [|split; [|split]]].
  - intros idx s parsed. rewrite ValidateFacts.valid_members.
    unfold ValidateFacts.valid_at. cbn [fst snd]. split.
    + intros (j & -> & H). exact H.
    + intros H. exists idx. split; [reflexivity|exact H].
  - intros idx s. rewrite ValidateFacts.invalid_members.
    unfold ValidateFacts.invalid_at. cbn [fst snd]. split.
    + intros (j & -> & H). exact H.
    + intros H. exists idx. split; [reflexivity|exact H].
  - apply ValidateFacts.valid_sorted.
  - apply ValidateFacts.invalid_sorted.
  - apply ValidateFacts.validate_count.
Qed.

Section DisclaimerFacts.

Import MonadFacts.
Context {D W : Type} (browser : Browser D W).

Lemma attempts_cons attempt attempts max_retries d :
  disclaimer_attempts browser (attempt :: attempts) max_retries d
  = match disclaimer_attempt browser d with
    | (Ok _, d1) => (Ok true, d1)
    | (Raised _, d1) =>
        if attempt =? max_retries - 1 then (Ok false, d1)
        else disclaimer_attempts browser attempts max_retries
               (time_sleep (web browser) 1 d1)
    end.
Proof.
  cbn [disclaimer_attempts]. unfold bind at 1, try_except at 1.
  unfold bind at 1.
  destruct (disclaimer_attempt browser d) as [[[]|e] d1]; [reflexivity|].
  destruct (attempt =? max_retries - 1); reflexivity.
Qed.

Lemma attempts_run max_retries : forall m i d,
  i + m = max_retries ->
  (exists k d1 d',
      k < m /\ failed_attempts browser k d d1 /\
      disclaimer_attempt browser d1 = (Ok tt, d') /\
      disclaimer_attempts browser (List.seq i m) max_retries d = (Ok true, d')) \/
  (exists d1 e d',
      0 < m /\ failed_attempts browser (m - 1) d d1 /\
      disclaimer_attempt browser d1 = (Raised e, d') /\
      disclaimer_attempts browser (List.seq i m) max_retries d = (Ok false, d')) \/
  (m = 0 /\ disclaimer_attempts browser (List.seq i m) max_retries d = (Ok false, d)).
Proof.
  induction m as [|m IH]; intros i d Hn.
  - right. right. split; reflexivity.
  - cbn [List.seq]. rewrite attempts_cons.
    destruct (disclaimer_attempt browser d) as [[[]|e] d1] eqn:E.
    + left. exists 0, d, d1. repeat split; [lia|constructor|exact E].
    + destruct (i =? max_retries - 1) eqn:Hlast.
      * apply Nat.eqb_eq in Hlast. assert (m = 0) by lia. subst m.
        right. left. exists d, e, d1.
        repeat split; [lia|constructor|exact E].
      * apply Nat.eqb_neq in Hlast.
        destruct (IH (S i) (time_sleep (web browser) 1 d1) ltac:(lia))
          as [(k & d2 & d' & Hk & Hf & Ha & Hr)
             |[(d2 & e' & d' & Hm & Hf & Ha & Hr)|[Hm _]]].
        -- left. exists (S k), d2, d'.
           repeat split; [lia|econstructor; eauto|exact Ha|exact Hr].
        -- right. left. exists d2, e', d'.
           repeat split; [lia| |exact Ha|exact Hr].
           replace (S m - 1) with (S (m - 1)) by lia.
           econstructor; eauto.
        -- lia.
Qed.

Lemma handle_total max_retries :
  total (handle_disclaimer browser max_retries).
Proof.
  intros d. unfold handle_disclaimer.
  destruct (attempts_run max_retries max_retries 0 d eq_refl)
    as [(k & d1 & d' & _ & _ & _ & H)|[(d1 & e & d' & _ & _ & _ & H)|[_ H]]];
    rewrite H; eauto.
Qed.

(** An attempt that ends well ends with the wait for the search
    form. *)
Lemma attempt_reaches_form d d' :
  disclaimer_attempt browser d = (Ok tt, d') ->
  exists d0 w,
    wait_presence (web browser) 8 NAME "caseYear"%string d0 = (Ok w, d').
Proof.
  unfold disclaimer_attempt.
  unfold bind at 1.
  destruct (set_page_load_timeout browser 15 d) as [[[]|e] d1]; [|discriminate].
  unfold bind at 1.
  destruct (driver_get browser disclaimer_url d1) as [[[]|e] d2]; [|discriminate].
  unfold bind at 1.
  destruct (wait_presence (web browser) 8 TAG_NAME _ d2) as [[w|e] d3];
    [|discriminate].
  unfold bind at 1.
  destruct (click_accept browser accept_selectors d3) as [[b|e] d4];
    [|discriminate].
  unfold bind at 1.
  destruct ((if negb b
             then form <- find_element browser TAG_NAME "form"%string ;;
                  el_submit browser form
             else ret tt) d4) as [[[]|e] d5]; [|discriminate].
  unfold bind at 1.
  destruct (wait_presence (web browser) 8 NAME _ d5) as [[w'|e] d6] eqn:E;
    [|discriminate].
  unfold ret. intros H. injection H as <-. eauto.
Qed.

End DisclaimerFacts.

(** X13. [handle_disclaimer] never raises and makes its attempts in
    turn, one second apart: it returns [True] at the first attempt
    that ends well, which is one that ended with the search form on
    the page; it returns [False] right after the attempt number
    [max_retries] fails, with no pause; with no attempt allowed it
    returns [False] and leaves the browser alone. *)
Theorem disclaimer_attempts_in_turn {D W : Type} (browser : Browser D W)
    (max_retries : nat) (d : D) :
  ((exists k d1 d',
       k < max_retries /\ failed_attempts browser k d d1 /\
       disclaimer_attempt browser d1 = (Ok tt, d') /\
       handle_disclaimer browser max_retries d = (Ok true, d')) \/
   (exists d1 e d',
       0 < max_retries /\ failed_attempts browser (max_retries - 1) d d1 /\
       disclaimer_attempt browser d1 = (Raised e, d') /\
       handle_disclaimer browser max_retries d = (Ok false, d')) \/
   (max_retries = 0 /\
    handle_disclaimer browser max_retries d = (Ok false, d))) /\
  (forall d1 d',
      disclaimer_attempt browser d1 = (Ok tt, d') ->
      exists d0 w,
        wait_presence (web browser) 8 NAME "caseYear"%string d0 = (Ok w, d')).
Proof.
  split.
  - exact (attempts_run browser max_retries max_retries 0 d eq_refl).
  - apply attempt_reaches_form.
Qed.

Module TableFacts.

(** A loop of assignments to cells: the cells assigned hold what was
    assigned, the others what they held. *)
Lemma assigned_hit {A : Type} (h : A -> nat * str) (g : A -> cell)
    (l : list A) : forall (t : Table) key v,
  (exists a, In a l /\ h a = key) ->
  (forall a, In a l -> h a = key -> g a = v) ->
  foldl (fun t a => <[ h a := g a ]> t) t l !! key = Some v.
Proof.
  induction l as [|a l IH] using rev_ind; intros t key v (a0 & Hin & Hk) Hv.
  - destruct Hin.
  - rewrite foldl_app. cbn [foldl].
    destruct (decide (h a = key)) as [E|E].
    + rewrite E, lookup_insert_eq. f_equal. apply Hv; [|exact E].
      apply in_or_app. right. left. reflexivity.
    + rewrite lookup_insert_ne by exact E. apply IH.
      * apply in_app_or in Hin. destruct Hin as [Hin|[<-|[]]];
          [eauto|contradiction].
      * intros a' Ha'. apply Hv. apply in_or_app. left. exact Ha'.
Qed.

Lemma assigned_miss {A : Type} (h : A -> nat * str) (g : A -> cell)
    (l : list A) : forall (t : Table) key,
  (forall a, In a l -> h a <> key) ->
  foldl (fun t a => <[ h a := g a ]> t) t l !! key = t !! key.
Proof.
  induction l as [|a l IH] using rev_ind; intros t key Hk; [reflexivity|].
  rewrite foldl_app. cbn [foldl].
  rewrite lookup_insert_ne.
  - apply IH. intros a' Ha'. apply Hk. apply in_or_app. left. exact Ha'.
  - apply Hk. apply in_or_app. right. left. reflexivity.
Qed.

Lemma row_written_same (row_idx : nat) (c : CaseData) (t : Table) (col : str) :
  In col attorney_columns ->
  row_written row_idx c t !! (row_idx, col) = Some (dict_get col (dict c)).
Proof.
  intros Hin. unfold row_written, columns_written.
  apply (assigned_hit (fun col => (row_idx, col))
           (fun col => dict_get col (dict c))).
  - exists col. split; [exact Hin|reflexivity].
  - intros a _ E. injection E as ->. reflexivity.
Qed.

Lemma columns_written_other (cols : list str) (row_idx : nat) (c : CaseData)
    (t : Table) (i : nat) (col : str) :
  i <> row_idx -> columns_written cols row_idx c t !! (i, col) = t !! (i, col).
Proof.
  intros Hi. unfold columns_written.
  apply (assigned_miss (fun col => (row_idx, col))
           (fun col => dict_get col (dict c))).
  intros a _ E. injection E as E _. congruence.
Qed.

Lemma row_written_other (row_idx : nat) (c : CaseData) (t : Table) (i : nat)
    (col : str) :
  i <> row_idx -> row_written row_idx c t !! (i, col) = t !! (i, col).
Proof. apply columns_written_other. Qed.

Lemma row_begun_other (row_idx : nat) (c : CaseData) (t : Table) (i : nat)
    (col : str) :
  i <> row_idx -> row_begun row_idx c t !! (i, col) = t !! (i, col).
Proof. apply columns_written_other. Qed.

(** The write that stopped at the number left the status as it was. *)
Lemma row_begun_status (row_idx : nat) (c : CaseData) (t : Table) :
  status_of (row_begun row_idx c t) row_idx = status_of t row_idx.
Proof.
  unfold status_of, row_begun, columns_written.
  apply (assigned_miss (fun col => (row_idx, col))
           (fun col => dict_get col (dict c))).
  intros a Ha E. injection E as ->.
  unfold attorney_columns in Ha. cbn [firstn In] in Ha.
  repeat (destruct Ha as [Ha|Ha]; [discriminate Ha|]). exact Ha.
Qed.

Lemma blank_column_same (rows : nat) (col : str) (t : Table) (i : nat) :
  i < rows -> blank_column rows col t !! (i, col) = Some (Text []).
Proof.
  intros Hi. unfold blank_column.
  apply (assigned_hit (fun i => (i, col)) (fun _ => Text [])).
  - exists i. split; [apply in_seq; lia|reflexivity].
  - reflexivity.
Qed.

Lemma blank_column_other (rows : nat) (col : str) (t : Table) (i : nat) (c : str) :
  c <> col \/ rows <= i ->
  blank_column rows col t !! (i, c) = t !! (i, c).
Proof.
  intros H. unfold blank_column.
  apply (assigned_miss (fun i => (i, col)) (fun _ => Text [])).
  intros a Ha E. injection E as -> ->. apply in_seq in Ha.
  destruct H as [H|H]; [congruence|lia].
Qed.

Lemma blank_columns_over (rows : nat) (cols : list str) : forall (t : Table) (i : nat) (c : str),
  (In c cols -> i < rows ->
   foldl (fun t col => blank_column rows col t) t cols !! (i, c)
   = Some (Text [])) /\
  (~ In c cols \/ rows <= i ->
   foldl (fun t col => blank_column rows col t) t cols !! (i, c)
   = t !! (i, c)).
Proof.
  induction cols as [|col cols IH] using rev_ind; intros t i c.
  - split; [intros []|reflexivity].
  - rewrite foldl_app. cbn [foldl]. split.
    + intros Hin Hi. destruct (decide (c = col)) as [->|E].
      * apply blank_column_same. exact Hi.
      * rewrite blank_column_other by (left; exact E).
        apply IH; [|exact Hi].
        apply in_app_or in Hin. destruct Hin as [Hin|[<-|[]]];
          [exact Hin|contradiction].
    + intros H. rewrite blank_column_other.
      * apply IH. destruct H as [H|H]; [left|right; exact H].
        intros Hc. apply H, in_or_app. left. exact Hc.
      * destruct H as [H|H]; [left|right; exact H].
        intros ->. apply H, in_or_app. right. left. reflexivity.
Qed.

Lemma blank_columns_row (rows : nat) (t : Table) (i : nat) :
  i < rows -> blank_row (blank_columns rows t) i.
Proof.
  intros Hi col Hcol. unfold blank_columns.
  apply blank_columns_over; assumption.
Qed.

Lemma blank_columns_beyond (rows : nat) (t : Table) (i : nat) (col : str) :
  rows <= i -> blank_columns rows t !! (i, col) = t !! (i, col).
Proof.
  intros Hi. unfold blank_columns. apply blank_columns_over. right. exact Hi.
Qed.

End TableFacts.

Section LoopFacts.

Import MonadFacts TableFacts.
Context {D W : Type} (pandas : Pandas) (browser : Browser D W).

Lemma prepare_total delay : total (prepare_next_case browser delay).
Proof.
  unfold prepare_next_case. apply total_bind.
  - apply total_try. intros e. apply total_ret.
  - intros _ d. unfold sleep. eauto.
Qed.

(** What a case leaves for its row. *)
Lemma process_case_row parsed d c d' :
  process_case (web browser) parsed d = (Ok c, d') ->
  ensure_attorney_data c = c /\
  exists v,
    dict_lookup (py "extraction_status") (dict c) = Some (Text v) /\
    row_status (web browser) v.
Proof.
  unfold process_case, bind, try_except, now, raise, ret.
  destruct (time_time (web browser) d) as [t0 d1].
  destruct (time_time (web browser) d1) as [t1 d2].
  destruct (Qgtb (t1 - t0) MAX_CASE_TIME).
  - destruct (time_time (web browser) d2) as [t d3]. intros H.
    injection H as <- _. split; [reflexivity|].
    eexists. split; [reflexivity|]. right. right. reflexivity.
  - destruct (fill_search_form_total (web browser) (year parsed)
                (case_type parsed) (sequence parsed) d2) as (filled & d3 & ->).
    destruct filled.
    + destruct (extraction_status_set (web browser) d3) as (a & d4 & E & Hs).
      rewrite E. destruct (time_time (web browser) d4) as [t d5].
      intros H. injection H as <- _. split; [reflexivity|].
      exists (extraction_status a). split; [reflexivity|]. left. exact Hs.
    + intros H. injection H as <- _. split; [reflexivity|].
      eexists. split; [reflexivity|]. right. left. reflexivity.
Qed.

Lemma write_row_app (idx : nat) (c : CaseData) (cols1 cols2 : list str) :
  forall s : D * Run,
    write_row pandas idx c (cols1 ++ cols2) s
    = match write_row pandas idx c cols1 s with
      | (Ok _, s') => write_row pandas idx c cols2 s'
      | (Raised e, s') => (Raised e, s')
      end.
Proof.
  induction cols1 as [|col cols1 IH]; intros s; [reflexivity|].
  cbn [app write_row]. unfold bind.
  destruct (loc_assign pandas idx col (dict_get col (dict c)) s)
    as [[[]|e] s']; [apply IH|reflexivity].
Qed.

(** The write of a row: in full, or up to the number pandas
    refuses. *)
Lemma write_row_run (idx : nat) (c : CaseData) (d : D) (r : Run) :
  write_row pandas idx c attorney_columns (d, r)
  = match refused pandas c with
    | None => (Ok tt, (d, set_results_df (row_written idx c) r))
    | Some e => (Raised e, (d, set_results_df (row_begun idx c) r))
    end.
Proof.
  destruct c as [a|v]; [|reflexivity].
  change attorney_columns
    with (firstn 12 attorney_columns
          ++ [py "defendant_count"]
          ++ [py "service_match"; py "extraction_status"]).
  rewrite write_row_app.
  change (write_row pandas idx (Full a) (firstn 12 attorney_columns) (d, r))
    with (@Ok unit tt, (d, set_results_df (row_begun idx (Full a)) r)).
  cbv iota. cbn [app write_row]. unfold bind at 1.
  change (dict_get (py "defendant_count") (dict (Full a)))
    with (Number (defendant_count a)).
  unfold loc_assign at 1, refused.
  destruct (number_in_text_column pandas (defendant_count a)); reflexivity.
Qed.

Lemma refused_number (c : CaseData) (e : str) :
  refused pandas c = Some e ->
  exists n, number_in_text_column pandas n = Some e.
Proof. destruct c as [a|v]; [eauto|discriminate]. Qed.

(** One turn of the loop. *)
Lemma cases_loop_cons n i idx num parsed cases delay d (r : Run) :
  cases_loop pandas browser n i ((idx, num, parsed) :: cases) delay (d, r)
  = match process_case (web browser) parsed d with
    | (Raised e, d1) => (Raised e, (d1, r))
    | (Ok c, d1) =>
        let c' := ensure_attorney_data c in
        match refused pandas c' with
        | Some e => (Raised e, (d1, set_results_df (row_begun idx c') r))
        | None =>
            match count_extraction c'
                    (d1, set_results_df (row_written idx c') r) with
            | (Raised e, s2) => (Raised e, s2)
            | (Ok _, (d2, r2)) =>
                if (Z.of_nat i <? Z.of_nat n - 1)%Z
                then
                  match prepare_next_case browser delay d2 with
                  | (Raised e, d3) => (Raised e, (d3, r2))
                  | (Ok _, d3) =>
                      cases_loop pandas browser n (i + 1) cases delay (d3, r2)
                  end
                else cases_loop pandas browser n (i + 1) cases delay (d2, r2)
            end
        end
    end.
Proof.
  cbn [cases_loop]. unfold bind at 1, lift at 1. cbn [fst snd].
  destruct (process_case (web browser) parsed d) as [[c|e] d1];
    [|reflexivity].
  cbv zeta. unfold bind at 1. rewrite write_row_run.
  destruct (refused pandas (ensure_attorney_data c)); [reflexivity|].
  unfold bind at 1.
  destruct (count_extraction (ensure_attorney_data c) _)
    as [[[]|e] [d2 r2]]; [|reflexivity].
  unfold bind at 1.
  destruct (Z.of_nat i <? Z.of_nat n - 1)%Z.
  - unfold lift at 1. cbn [fst snd].
    destruct (prepare_next_case browser delay d2) as [[[]|e] d3]; reflexivity.
  - reflexivity.
Qed.

Lemma count_bound (c : CaseData) (d : D) (r : Run) s f :
  successful_extractions r = Some s ->
  failed_extractions r = Some f ->
  count_extraction c (d, r)
  = (Ok tt,
     (d, if bool_decide (dict_lookup (py "extraction_status") (dict c)
                         = Some (Text (py "Found")))
         then set_successful (s + 1) r else set_failed (f + 1) r)).
Proof.
  intros Hs Hf. unfold count_extraction, bind, get_local. cbn [fst snd].
  destruct (bool_decide _); [rewrite Hs|rewrite Hf]; reflexivity.
Qed.

Lemma count_unbound (c : CaseData) (d : D) (r : Run) :
  successful_extractions r = None ->
  failed_extractions r = None ->
  exists name,
    count_extraction c (d, r) = (Raised (name_error name), (d, r)) /\
    (name = "successful_extractions"%string \/
     name = "failed_extractions"%string).
Proof.
  intros Hs Hf. unfold count_extraction, bind, get_local. cbn [fst snd].
  destruct (bool_decide _); [rewrite Hs|rewrite Hf]; eauto.
Qed.

(** The loop with both counters bound: it ends, or stops at a number
    that pandas refuses. *)
Lemma cases_loop_bound delay n cases : forall i d (r : Run) s f,
  successful_extractions r = Some s ->
  failed_extractions r = Some f ->
  List.NoDup (map row_idx cases) ->
  exists o d' r',
    cases_loop pandas browser n i cases delay (d, r) = (o, (d', r')) /\
    shown r' = shown r /\ driver_bound r' = driver_bound r /\
    match o with
    | Raised e => exists m, number_in_text_column pandas m = Some e
    | Ok _ =>
        exists s' f',
          successful_extractions r' = Some s' /\
          failed_extractions r' = Some f' /\
          s' + f' = s + f + length cases /\
          s' = s + length
                     (List.filter
                        (fun c => bool_decide
                                    (status_of (results_df r') (row_idx c)
                                     = Some (Text (py "Found"))))
                        cases) /\
          (forall j col, ~ In j (map row_idx cases) ->
                         results_df r' !! (j, col) = results_df r !! (j, col)) /\
          (forall c, In c cases ->
                     exists v,
                       status_of (results_df r') (row_idx c) = Some (Text v) /\
                       row_status (web browser) v)
    end.
Proof.
  induction cases as [|[[idx num] parsed] cases IH]; intros i d r s f Hs Hf Hnd.
  - exists (Ok tt), d, r. cbn. repeat split.
    exists s, f. repeat split; auto; try lia.
  - cbn [map row_idx fst] in Hnd. inversion Hnd as [|? ? Hidx Hnd']; subst.
    rewrite cases_loop_cons.
    destruct (process_case_total (web browser) parsed d) as (c & d1 & Hc).
    rewrite Hc. destruct (process_case_row _ _ _ _ Hc) as (He & v & Hv & Hrow).
    rewrite He. cbv zeta.
    destruct (refused pandas c) as [e|] eqn:Href.
    { exists (Raised e), d1, (set_results_df (row_begun idx c) r).
      split; [reflexivity|]. split; [reflexivity|]. split; [reflexivity|].
      exact (refused_number c e Href). }
    set (r1 := set_results_df (row_written idx c) r).
    rewrite (count_bound c d1 r1 s f Hs Hf).
    set (r2 := if bool_decide _ then set_successful (s + 1) r1
               else set_failed (f + 1) r1).
    assert (Hr2 : results_df r2 = row_written idx c (results_df r) /\
                  shown r2 = shown r /\ driver_bound r2 = driver_bound r /\
                  exists s2 f2,
                    successful_extractions r2 = Some s2 /\
                    failed_extractions r2 = Some f2 /\
                    s2 + f2 = s + f + 1 /\
                    s2 = s + (if bool_decide (v = py "Found") then 1 else 0)).
    { subst r2. rewrite Hv.
      destruct (bool_decide (v = py "Found")) eqn:Ev.
      - apply bool_decide_eq_true in Ev. subst v.
        rewrite bool_decide_eq_true_2 by reflexivity.
        repeat split. exists (s + 1), f. cbn. repeat split; auto; lia.
      - apply bool_decide_eq_false in Ev.
        rewrite bool_decide_eq_false_2 by congruence.
        repeat split. exists s, (f + 1). cbn. repeat split; auto; lia. }
    clearbody r2. destruct Hr2 as (Ht2 & Hsh2 & Hdb2 & s2 & f2 & Hs2 & Hf2 & Hsum & Hs2').
    assert (Hnext : exists d3,
               (if (Z.of_nat i <? Z.of_nat n - 1)%Z
                then
                  match prepare_next_case browser delay d1 with
                  | (Raised e, d3) => (Raised e, (d3, r2))
                  | (Ok _, d3) =>
                      cases_loop pandas browser n (i + 1) cases delay (d3, r2)
                  end
                else cases_loop pandas browser n (i + 1) cases delay (d1, r2))
               = cases_loop pandas browser n (i + 1) cases delay (d3, r2)).
    { destruct (Z.of_nat i <? Z.of_nat n - 1)%Z; [|eauto].
      destruct (prepare_total delay d1) as ([] & d3 & ->). eauto. }
    destruct Hnext as (d3 & ->).
    destruct (IH (i + 1) d3 r2 s2 f2 Hs2 Hf2 Hnd')
      as (o & d' & r' & Hrun & Hsh & Hdb & Ho).
    exists o, d', r'. split; [exact Hrun|].
    split; [congruence|]. split; [congruence|].
    destruct o as [[]|e]; [|exact Ho].
    destruct Ho as (s' & f' & Hs' & Hf' & Hsum' & Hcount & Hkeep & Hrows).
    assert (Hstatus : status_of (results_df r') idx = Some (Text v)).
    { unfold status_of. rewrite Hkeep by exact Hidx. rewrite Ht2.
      rewrite row_written_same by (unfold attorney_columns; simpl; tauto).
      unfold dict_get. rewrite Hv. reflexivity. }
    exists s', f'. split; [exact Hs'|]. split; [exact Hf'|].
    split; [cbn [length]; lia|]. split; [|split].
    + cbn [List.filter row_idx fst]. rewrite Hstatus.
      destruct (bool_decide (v = py "Found")) eqn:Ev.
      * apply bool_decide_eq_true in Ev. subst v.
        rewrite bool_decide_eq_true_2 by reflexivity. cbn [length]. lia.
      * apply bool_decide_eq_false in Ev.
        rewrite bool_decide_eq_false_2 by congruence. lia.
    + intros j col Hj. cbn [map row_idx fst In] in Hj.
      rewrite Hkeep by tauto. rewrite Ht2.
      apply row_written_other. intros ->. tauto.
    + intros c0 [<-|Hin]; [exists v; split; [exact Hstatus|exact Hrow]|].
      apply Hrows. exact Hin.
Qed.

(** The loop with no counter bound stops at the first case: at the
    number pandas refuses, or else at the count. *)
Lemma cases_loop_unbound delay n i idx num parsed cases d (r : Run) :
  successful_extractions r = None ->
  failed_extractions r = None ->
  exists c d1 v,
    process_case (web browser) parsed d = (Ok c, d1) /\
    dict_lookup (py "extraction_status") (dict c) = Some (Text v) /\
    row_status (web browser) v /\
    ((exists e,
         refused pandas c = Some e /\
         cases_loop pandas browser n i ((idx, num, parsed) :: cases) delay (d, r)
         = (Raised e, (d1, set_results_df (row_begun idx c) r))) \/
     (exists name,
         refused pandas c = None /\
         (name = "successful_extractions"%string \/
          name = "failed_extractions"%string) /\
         cases_loop pandas browser n i ((idx, num, parsed) :: cases) delay (d, r)
         = (Raised (name_error name),
            (d1, set_results_df (row_written idx c) r)))).
Proof.
  intros Hs Hf. rewrite cases_loop_cons.
  destruct (process_case_total (web browser) parsed d) as (c & d1 & Hc).
  rewrite Hc. destruct (process_case_row _ _ _ _ Hc) as (He & v & Hv & Hrow).
  rewrite He. cbv zeta. exists c, d1, v.
  split; [reflexivity|]. split; [exact Hv|]. split; [exact Hrow|].
  destruct (refused pandas c) as [e|] eqn:Href.
  - left. exists e. split; reflexivity.
  - right.
    destruct (count_unbound c d1 (set_results_df (row_written idx c) r) Hs Hf)
      as (name & Hcount & Hname).
    rewrite Hcount. exists name. auto.
Qed.

End LoopFacts.

Section RunFacts.

Import MonadFacts TableFacts ValidateFacts.
Context {D W : Type} (pandas : Pandas) (browser : Browser D W).

Lemma close_run d (r : Run) :
  close_browser browser (d, r)
  = (Ok tt, (if driver_bound r then snd (quit browser d) else d, r)).
Proof.
  unfold close_browser, try_except, bind, get_local.
  cbn [fst snd]. destruct (driver_bound r); [|reflexivity].
  unfold lift. cbn [fst snd].
  destruct (quit browser d) as [[[]|e] d1]; reflexivity.
Qed.

Lemma fetch_run headless delay valid d (r0 : Run) :
  fetch pandas browser headless delay valid (d, r0)
  = match setup_browser browser headless d with
    | (Raised e, d1) => (Raised e, (d1, r0))
    | (Ok _, d1) =>
        match handle_disclaimer browser 2 d1 with
        | (Raised e, d2) => (Raised e, (d2, bind_driver r0))
        | (Ok true, d2) =>
            match cases_loop pandas browser (length valid) 0 valid delay
                    (d2, set_failed 0
                           (set_successful 0
                              (add_message connected (bind_driver r0)))) with
            | (Raised e, s) => (Raised e, s)
            | (Ok _, s) => report s
            end
        | (Ok false, d2) =>
            match quit browser d2 with
            | (Raised e, d3) =>
                (Raised e,
                 (d3, add_message disclaimer_failed (bind_driver r0)))
            | (Ok _, d3) =>
                match cases_loop pandas browser (length valid) 0 valid delay
                        (d3, add_message disclaimer_failed (bind_driver r0)) with
                | (Raised e, s) => (Raised e, s)
                | (Ok _, s) => report s
                end
            end
        end
    end.
Proof.
  unfold fetch. unfold bind at 1, lift at 1. cbn [fst snd].
  destruct (setup_browser browser headless d) as [[[]|e] d1]; [|reflexivity].
  unfold bind at 1, modify_local at 1. cbn [fst snd].
  unfold bind at 1, lift at 1. cbn [fst snd].
  destruct (handle_disclaimer browser 2 d1) as [[b|e] d2]; [|reflexivity].
  unfold bind at 1. destruct b; cbn [negb].
  - unfold show, bind at 1, modify_local at 1. cbn [fst snd].
    unfold bind at 1, modify_local at 1. cbn [fst snd].
    unfold modify_local at 1. cbn [fst snd].
    unfold bind at 1.
    destruct (cases_loop pandas browser _ 0 valid delay _) as [[[]|e] [d3 r3]];
      [|reflexivity].
    unfold bind at 1, get_local at 1, report. cbn [fst snd].
    destruct (successful_extractions r3); [|reflexivity].
    destruct (failed_extractions r3); reflexivity.
  - unfold show, bind at 1, modify_local at 1. cbn [fst snd].
    unfold lift at 1. cbn [fst snd].
    destruct (quit browser d2) as [[[]|e] d3]; [|reflexivity].
    unfold bind at 1.
    destruct (cases_loop pandas browser _ 0 valid delay _) as [[[]|e] [d4 r4]];
      [|reflexivity].
    unfold bind at 1, get_local at 1, report. cbn [fst snd].
    destruct (successful_extractions r4); [|reflexivity].
    destruct (failed_extractions r4); reflexivity.
Qed.

(** The run when a case is valid: the body, the report of a fault,
    and the closing of the browser. *)
Lemma start_run cells headless delay d c valid :
  fst (validate cells) = c :: valid ->
  start_fetching pandas browser cells headless delay (d, initial_run)
  = match fetch pandas browser headless delay (c :: valid)
            (d, run_at_start cells) with
    | (Ok _, (d1, r1)) =>
        (Ok tt, (if driver_bound r1 then snd (quit browser d1) else d1, r1))
    | (Raised e, (d1, r1)) =>
        (Ok tt,
         (if driver_bound r1 then snd (quit browser d1) else d1,
          add_message (processing_error e) r1))
    end.
Proof.
  intros Hv. unfold start_fetching, run_at_start. rewrite Hv.
  unfold bind at 1, modify_local at 1. cbn [fst snd].
  unfold try_finally, try_except.
  destruct (fetch pandas browser headless delay (c :: valid) _) as [[[]|e] [d1 r1]].
  - rewrite close_run. reflexivity.
  - unfold show, modify_local. cbn [fst snd]. rewrite close_run. reflexivity.
Qed.

Lemma setup_fault headless d e d1 :
  setup_browser browser headless d = (Raised e, d1) ->
  exists e0, e = py "Browser failed to start: " ++ e0.
Proof.
  unfold setup_browser, try_except, raise.
  destruct ((chrome browser (chrome_options headless) ;;;
             set_page_load_timeout browser 20 ;;;
             implicitly_wait (web browser) 5 ;;; ret tt) d) as [[[]|e0] d0].
  - discriminate.
  - intros H. injection H as <- _. eauto.
Qed.

Lemma valid_nodup cells :
  List.NoDup (map row_idx (fst (validate cells))).
Proof. apply rising_nodup, (valid_sorted cells 0). Qed.

Lemma valid_in_range cells c :
  In c (fst (validate cells)) -> row_idx c < length cells.
Proof.
  intros H. apply (valid_members cells 0) in H.
  destruct H as (j & Hj & Hl & _). unfold row_idx. rewrite Hj.
  apply lookup_lt_Some in Hl. exact Hl.
Qed.

(** The rows that show "Found" are rows of valid cases. *)
Lemma found_rows_count (t : Table) cells :
  (forall i, i < length cells ->
             ~ In i (map row_idx (fst (validate cells))) -> blank_row t i) ->
  found_rows t (length cells)
  = length
      (List.filter
         (fun c => bool_decide
                     (status_of t (row_idx c) = Some (Text (py "Found"))))
         (fst (validate cells))).
Proof.
  intros Hblank. unfold found_rows.
  set (P := fun i => bool_decide (status_of t i = Some (Text (py "Found")))).
  change (fun c => bool_decide (status_of t (row_idx c) = Some (Text (py "Found"))))
    with (fun c => P (row_idx c)).
  assert (Hmap : forall l : list (nat * str * CaseNumber),
             length (List.filter (fun c => P (row_idx c)) l)
             = length (List.filter P (map row_idx l))).
  { induction l as [|c l IH]; [reflexivity|]. cbn [List.filter map].
    destruct (P (row_idx c)); cbn [length]; rewrite IH; reflexivity. }
  rewrite Hmap. apply Permutation.Permutation_length.
  apply Permutation.NoDup_Permutation.
  - apply List.NoDup_filter, List.seq_NoDup.
  - apply List.NoDup_filter, valid_nodup.
  - intros i. rewrite !filter_In, in_seq. split.
    + intros [Hi HP]. split; [|exact HP].
      destruct (in_dec Nat.eq_dec i (map row_idx (fst (validate cells))))
        as [Hin|Hin]; [exact Hin|exfalso].
      specialize (Hblank i ltac:(lia) Hin (py "extraction_status")).
      unfold P, status_of in HP. rewrite Hblank in HP.
      * apply bool_decide_eq_true in HP. discriminate HP.
      * unfold attorney_columns. simpl. tauto.
    + intros [Hin HP]. split; [|exact HP].
      apply in_map_iff in Hin. destruct Hin as (c & <- & Hc).
      apply valid_in_range in Hc. lia.
Qed.

(** How a run goes. *)
Lemma run_cases cells headless delay d :
  (fst (validate cells) = [] /\
   start_fetching pandas browser cells headless delay (d, initial_run)
   = (Ok tt, (d, add_message no_valid_cases initial_run))) \/
  (exists c valid,
      fst (validate cells) = c :: valid /\
      ((exists e d1,
           setup_browser browser headless d = (Raised e, d1) /\
           start_fetching pandas browser cells headless delay (d, initial_run)
           = (Ok tt, (d1, add_message (processing_error e)
                            (run_at_start cells)))) \/
       (exists d1 d2 d3 r3 s f,
           setup_browser browser headless d = (Ok tt, d1) /\
           handle_disclaimer browser 2 d1 = (Ok true, d2) /\
           start_fetching pandas browser cells headless delay (d, initial_run)
           = (Ok tt, (snd (quit browser d3),
                      add_message (processing_completed s f) r3)) /\
           shown r3 = [connected] /\
           s + f = length (c :: valid) /\
           s = found_rows (results_df r3) (length cells) /\
           (forall i, i < length cells ->
                      ~ In i (map row_idx (c :: valid)) ->
                      blank_row (results_df r3) i) /\
           (forall c', In c' (c :: valid) ->
                       exists v,
                         status_of (results_df r3) (row_idx c')
                         = Some (Text v) /\
                         row_status (web browser) v)) \/
       (exists d1 d2 d3 r3 e m,
           setup_browser browser headless d = (Ok tt, d1) /\
           handle_disclaimer browser 2 d1 = (Ok true, d2) /\
           number_in_text_column pandas m = Some e /\
           start_fetching pandas browser cells headless delay (d, initial_run)
           = (Ok tt, (snd (quit browser d3),
                      add_message (processing_error e) r3)) /\
           shown r3 = [connected]) \/
       (exists d1 d2 e d3,
           setup_browser browser headless d = (Ok tt, d1) /\
           handle_disclaimer browser 2 d1 = (Ok false, d2) /\
           quit browser d2 = (Raised e, d3) /\
           start_fetching pandas browser cells headless delay (d, initial_run)
           = (Ok tt, (snd (quit browser d3),
                      add_message (processing_error e)
                        (add_message disclaimer_failed
                           (bind_driver (run_at_start cells)))))) \/
       (exists d1 d2 d3 c' d4 e,
           setup_browser browser headless d = (Ok tt, d1) /\
           handle_disclaimer browser 2 d1 = (Ok false, d2) /\
           quit browser d2 = (Ok tt, d3) /\
           process_case (web browser) (snd c) d3 = (Ok c', d4) /\
           refused pandas c' = Some e /\
           start_fetching pandas browser cells headless delay (d, initial_run)
           = (Ok tt, (snd (quit browser d4),
                      add_message (processing_error e)
                        (set_results_df (row_begun (row_idx c) c')
                           (add_message disclaimer_failed
                              (bind_driver (run_at_start cells))))))) \/
       (exists d1 d2 d3 c' d4 name v,
           setup_browser browser headless d = (Ok tt, d1) /\
           handle_disclaimer browser 2 d1 = (Ok false, d2) /\
           quit browser d2 = (Ok tt, d3) /\
           process_case (web browser) (snd c) d3 = (Ok c', d4) /\
           dict_lookup (py "extraction_status") (dict c') = Some (Text v) /\
           row_status (web browser) v /\
           (name = "successful_extractions"%string \/
            name = "failed_extractions"%string) /\
           start_fetching pandas browser cells headless delay (d, initial_run)
           = (Ok tt, (snd (quit browser d4),
                      add_message (processing_error (name_error name))
                        (set_results_df (row_written (row_idx c) c')
                           (add_message disclaimer_failed
                              (bind_driver (run_at_start cells))))))))).
Proof.
  destruct (fst (validate cells)) as [|c valid] eqn:Hv.
  - left. split; [reflexivity|]. unfold start_fetching. rewrite Hv.
    reflexivity.
  - right. exists c, valid. split; [reflexivity|].
    rewrite (start_run _ _ _ _ _ _ Hv), fetch_run.
    destruct (setup_browser browser headless d) as [[[]|e] d1].
    2: { left. exists e, d1. split; reflexivity. }
    right.
    destruct (handle_total browser 2 d1) as (b & d2 & Hb). rewrite Hb.
    destruct b.
    + set (r2 := set_failed 0 (set_successful 0
                   (add_message connected (bind_driver (run_at_start cells))))).
      pose proof (valid_nodup cells) as Hnd. rewrite Hv in Hnd.
      destruct (cases_loop_bound pandas browser delay (length (c :: valid))
                  (c :: valid) 0 d2 r2 0 0 eq_refl eq_refl Hnd)
        as (o & d3 & r3 & Hrun & Hsh & Hdb & Ho).
      rewrite Hrun. destruct o as [[]|e].
      * left. destruct Ho as (s & f & Hs & Hf & Hsum & Hcount & Hkeep & Hrows).
        unfold report. cbn [fst snd]. rewrite Hs, Hf.
        cbn [driver_bound add_message]. rewrite Hdb. cbn [driver_bound r2
          set_failed set_successful add_message bind_driver].
        assert (Hblank : forall i, i < length cells ->
                           ~ In i (map row_idx (c :: valid)) ->
                           blank_row (results_df r3) i).
        { intros i Hi Hin col Hcol. rewrite Hkeep by exact Hin.
          apply (blank_columns_row (length cells) ∅ i Hi col Hcol). }
        exists d1, d2, d3, r3, s, f.
        split; [reflexivity|]. split; [exact Hb|]. split; [reflexivity|].
        split; [exact Hsh|]. split; [lia|]. split; [|split; assumption].
        rewrite found_rows_count by (rewrite Hv; exact Hblank).
        rewrite Hv. lia.
      * right. left. destruct Ho as (m & Hm).
        cbn [driver_bound add_message]. rewrite Hdb. cbn [driver_bound r2
          set_failed set_successful add_message bind_driver].
        exists d1, d2, d3, r3, e, m.
        split; [reflexivity|]. split; [exact Hb|]. split; [exact Hm|].
        split; [reflexivity|exact Hsh].
    + right. right. destruct (quit browser d2) as [[[]|e] d3] eqn:Hq.
      * right. destruct c as [[idx num] parsed].
        destruct (cases_loop_unbound pandas browser delay
                    (length ((idx, num, parsed) :: valid))
                    0 idx num parsed valid d3
                    (add_message disclaimer_failed
                       (bind_driver (run_at_start cells)))
                    eq_refl eq_refl)
          as (c' & d4 & v & Hc & Hd & Hrow
              & [(e & Href & Hrun)|(name & Href & Hname & Hrun)]);
          rewrite Hrun.
        -- left. exists d1, d2, d3, c', d4, e. repeat split; auto.
        -- right. exists d1, d2, d3, c', d4, name, v. repeat split; auto.
      * left. exists d1, d2, e, d3. repeat split; auto.
Qed.

End RunFacts.

Import MonadFacts TableFacts ValidateFacts.
Import Page Examples.

(** X14. A run never raises and shows its outcome in one of five
    ways: with no valid case, the message that there is none, and the
    browser is not touched; else the fault of a browser that did not
    start; or the connection and then the two counters; or the
    connection and then the fault of a pandas that refused the number
    of defendants of a case; or the failure of the disclaimer and
    then a fault. *)
Theorem run_ends_with_one_report {D W : Type} (pandas : Pandas)
    (browser : Browser D W) (cells : list (option str)) (headless_mode : bool)
    (delay : Z) (d : D) :
  exists d' r',
    start_fetching pandas browser cells headless_mode delay (d, initial_run)
    = (Ok tt, (d', r')) /\
    ((fst (validate cells) = [] /\ d' = d /\ shown r' = [no_valid_cases]) \/
     (fst (validate cells) <> [] /\
      ((exists e,
           shown r' = [processing_error (py "Browser failed to start: " ++ e)]) \/
       (exists s f, shown r' = [connected; processing_completed s f]) \/
       (exists m e,
           number_in_text_column pandas m = Some e /\
           shown r' = [connected; processing_error e]) \/
       (exists e, shown r' = [disclaimer_failed; processing_error e])))).
Proof.
  destruct (run_cases pandas browser cells headless_mode delay d)
    as [[Hv Hrun]|(c & valid & Hv & H)].
  - eexists _, _. split; [exact Hrun|]. left. repeat split. exact Hv.
  - assert (Hne : fst (validate cells) <> []) by (rewrite Hv; discriminate).
    destruct H as [(e & d1 & Hs & Hrun)
                  |[(d1 & d2 & d3 & r3 & s & f & _ & _ & Hrun & Hsh & _)
                   |[(d1 & d2 & d3 & r3 & e & m & _ & _ & Hm & Hrun & Hsh)
                    |[(d1 & d2 & e & d3 & _ & _ & _ & Hrun)
                     |[(d1 & d2 & d3 & c' & d4 & e & _ & _ & _ & _ & _ & Hrun)
                      |(d1 & d2 & d3 & c' & d4 & name & v & _ & _ & _ & _ & _ & _ & _ & Hrun)]]]]];
      eexists _, _; (split; [exact Hrun|]); right; (split; [exact Hne|]).
    + left. apply setup_fault in Hs. destruct Hs as (e0 & ->).
      exists e0. reflexivity.
    + right. left. exists s, f. cbn [shown add_message]. rewrite Hsh.
      reflexivity.
    + right. right. left. exists m, e. split; [exact Hm|].
      cbn [shown add_message]. rewrite Hsh. reflexivity.
    + right. right. right. exists e. reflexivity.
    + right. right. right. exists e. reflexivity.
    + right. right. right. eexists. reflexivity.
Qed.

Lemma refused_number_on_example_page :
  start_fetching Cases.pandas_3 (Cases.browser true true) Cases.column true 2
    (jane_page, initial_run) = (Ok tt, (jane_page, Cases.refused_run)) /\
  exists m e,
    number_in_text_column Cases.pandas_3 m = Some e /\
    shown Cases.refused_run = [connected; processing_error e].
Proof.
  assert (H : start_fetching Cases.pandas_3 (Cases.browser true true)
                Cases.column true 2 (jane_page, initial_run)
              = (Ok tt, (jane_page, Cases.refused_run))) by reflexivity.
  split; [exact H|].
  destruct (run_ends_with_one_report Cases.pandas_3 (Cases.browser true true)
              Cases.column true 2 jane_page)
    as (d' & r' & Hrun & Hcases).
  assert (Hr : r' = Cases.refused_run) by congruence.
  clear H Hrun. subst r'.
  destruct Hcases
    as [(_ & _ & Hn)
       |(_ & [(e & He)|[(s & f & Hsf)|[Hm|(e & He)]]])].
  - discriminate Hn.
  - discriminate He.
  - discriminate Hsf.
  - exact Hm.
  - discriminate He.
Defined.

(** X15. When a run reports its two counters, they add up to the
    number of valid cases; the first is the number of rows of the
    table whose status is "Found"; the row of every valid case holds
    one of the statuses a case can leave; and every other row has its
    attorney columns blank. *)
Theorem completed_run_counts {D W : Type} (pandas : Pandas)
    (browser : Browser D W) (cells : list (option str)) (headless_mode : bool)
    (delay : Z) (d d' : D) (r' : Run) (s f : nat) :
  start_fetching pandas browser cells headless_mode delay (d, initial_run)
  = (Ok tt, (d', r')) ->
  shown r' = [connected; processing_completed s f] ->
  s + f = length (fst (validate cells)) /\
  s = found_rows (results_df r') (length cells) /\
  (forall c, In c (fst (validate cells)) ->
             exists v, status_of (results_df r') (row_idx c) = Some (Text v) /\
                       row_status (web browser) v) /\
  (forall i, i < length cells ->
             ~ In i (map row_idx (fst (validate cells))) ->
             blank_row (results_df r') i).
Proof.
  intros Hrun Hshown.
  destruct (run_cases pandas browser cells headless_mode delay d)
    as [[Hv Hrun']|(c & valid & Hv & H)].
  - rewrite Hrun' in Hrun. injection Hrun as _ <-. discriminate Hshown.
  - destruct H as [(e & d1 & Hs & Hrun')
                  |[(d1 & d2 & d3 & r3 & s0 & f0 & _ & _ & Hrun' & Hsh & Hsum & Hcount & Hblank & Hrows)
                   |[(d1 & d2 & d3 & r3 & e & m & _ & _ & Hm & Hrun' & Hsh)
                    |[(d1 & d2 & e & d3 & _ & _ & _ & Hrun')
                     |[(d1 & d2 & d3 & c' & d4 & e & _ & _ & _ & _ & _ & Hrun')
                      |(d1 & d2 & d3 & c' & d4 & name & v & _ & _ & _ & _ & _ & _ & _ & Hrun')]]]]];
      rewrite Hrun' in Hrun; injection Hrun as _ <-;
      try discriminate Hshown.
    + cbn [shown add_message results_df] in *. rewrite Hsh in Hshown.
      injection Hshown as <- <-. rewrite Hv. auto.
    + cbn [shown add_message] in Hshown. rewrite Hsh in Hshown.
      discriminate Hshown.
Qed.

Lemma completed_run_on_example_page :
  start_fetching Cases.pandas_2 (Cases.browser true true) Cases.column true 2
    (jane_page, initial_run) = (Ok tt, (jane_page, Cases.completed_run)) /\
  1 + 0 = length (fst (validate Cases.column)) /\
  1 = found_rows (results_df Cases.completed_run) (length Cases.column).
Proof.
  assert (H : start_fetching Cases.pandas_2 (Cases.browser true true)
                Cases.column true 2 (jane_page, initial_run)
              = (Ok tt, (jane_page, Cases.completed_run))) by reflexivity.
  split; [exact H|].
  pose proof (completed_run_counts Cases.pandas_2 (Cases.browser true true)
                Cases.column true 2 jane_page jane_page Cases.completed_run
                1 0 H eq_refl)
    as (H1 & H2 & _).
  exact (conj H1 H2).
Defined.

(** X16. When the disclaimer fails, the loop over the cases starts all
    the same, with the browser already quit and no counter bound:
    unless quitting raised, the first valid case is processed; then
    either its row is written and the count of it raises a
    [NameError], or pandas refuses the number of defendants of that
    case and the row keeps its empty status; the run shows that
    fault, and no other row is written. *)
Theorem failed_disclaimer_still_runs_a_case {D W : Type} (pandas : Pandas)
    (browser : Browser D W) (cells : list (option str))
    (headless_mode : bool) (delay : Z) (d d' : D) (r' : Run) :
  start_fetching pandas browser cells headless_mode delay (d, initial_run)
  = (Ok tt, (d', r')) ->
  In disclaimer_failed (shown r') ->
  exists c valid,
    fst (validate cells) = c :: valid /\
    successful_extractions r' = None /\ failed_extractions r' = None /\
    ((exists e d2 d3,
         quit browser d2 = (Raised e, d3) /\
         shown r' = [disclaimer_failed; processing_error e] /\
         forall i, i < length cells -> blank_row (results_df r') i) \/
     (exists name v,
         (name = "successful_extractions"%string \/
          name = "failed_extractions"%string) /\
         shown r' = [disclaimer_failed; processing_error (name_error name)] /\
         status_of (results_df r') (row_idx c) = Some (Text v) /\
         row_status (web browser) v /\
         forall i, i < length cells -> i <> row_idx c ->
                   blank_row (results_df r') i) \/
     (exists m e,
         number_in_text_column pandas m = Some e /\
         shown r' = [disclaimer_failed; processing_error e] /\
         status_of (results_df r') (row_idx c) = Some (Text []) /\
         forall i, i < length cells -> i <> row_idx c ->
                   blank_row (results_df r') i)).
Proof.
  intros Hrun Hin.
  destruct (run_cases pandas browser cells headless_mode delay d)
    as [[Hv Hrun']|(c & valid & Hv & H)].
  - rewrite Hrun' in Hrun. injection Hrun as _ <-.
    cbn in Hin. intuition discriminate.
  - exists c, valid. split; [exact Hv|].
    destruct H as [(e & d1 & Hs & Hrun')
                  |[(d1 & d2 & d3 & r3 & s0 & f0 & _ & _ & Hrun' & Hsh & _)
                   |[(d1 & d2 & d3 & r3 & e & m & _ & _ & Hm & Hrun' & Hsh)
                    |[(d1 & d2 & e & d3 & _ & _ & Hq & Hrun')
                     |[(d1 & d2 & d3 & c' & d4 & e & _ & _ & _ & _ & Href & Hrun')
                      |(d1 & d2 & d3 & c' & d4 & name & v & _ & _ & _ & _ & Hd & Hrow & Hname & Hrun')]]]]];
      rewrite Hrun' in Hrun; injection Hrun as _ <-.
    + cbn in Hin. intuition discriminate.
    + cbn [shown add_message] in Hin. rewrite Hsh in Hin.
      cbn in Hin. intuition discriminate.
    + cbn [shown add_message] in Hin. rewrite Hsh in Hin.
      cbn in Hin. intuition discriminate.
    + split; [reflexivity|]. split; [reflexivity|]. left.
      exists e, d2, d3. split; [exact Hq|]. split; [reflexivity|].
      intros i Hi. cbn [results_df add_message bind_driver run_at_start
                          set_results_df].
      apply blank_columns_row. exact Hi.
    + split; [reflexivity|]. split; [reflexivity|]. right. right.
      destruct (refused_number pandas c' e Href) as (m & Hm).
      exists m, e. split; [exact Hm|]. split; [reflexivity|].
      cbn [results_df add_message bind_driver run_at_start set_results_df].
      split.
      * rewrite row_begun_status. unfold status_of.
        apply blank_columns_row.
        -- apply (valid_in_range cells c). rewrite Hv. left. reflexivity.
        -- unfold attorney_columns. simpl. tauto.
      * intros i Hi Hne col Hcol. rewrite row_begun_other by exact Hne.
        apply blank_columns_row; assumption.
    + split; [reflexivity|]. split; [reflexivity|]. right. left.
      exists name, v. split; [exact Hname|]. split; [reflexivity|].
      cbn [results_df add_message bind_driver run_at_start set_results_df].
      split; [|split; [exact Hrow|]].
      * unfold status_of.
        rewrite row_written_same by (unfold attorney_columns; simpl; tauto).
        unfold dict_get. rewrite Hd. reflexivity.
      * intros i Hi Hne col Hcol. rewrite row_written_other by exact Hne.
        apply blank_columns_row; assumption.
Qed.

Lemma failed_disclaimer_on_example_page :
  start_fetching Cases.pandas_2 (Cases.browser true false) Cases.column true 2
    (jane_page, initial_run) = (Ok tt, (jane_page, Cases.stopped_run)) /\
  exists c valid,
    fst (validate Cases.column) = c :: valid /\
    successful_extractions Cases.stopped_run = None /\
    failed_extractions Cases.stopped_run = None.
Proof.
  assert (H : start_fetching Cases.pandas_2 (Cases.browser true false)
                Cases.column true 2 (jane_page, initial_run)
              = (Ok tt, (jane_page, Cases.stopped_run))) by reflexivity.
  split; [exact H|].
  destruct (failed_disclaimer_still_runs_a_case Cases.pandas_2
              (Cases.browser true false) Cases.column true 2 jane_page
              jane_page Cases.stopped_run H (or_introl eq_refl))
    as (c & valid & Hv & Hs & Hf & _).
  exists c, valid. auto.
Defined.

(** X17. When the browser does not start, whether Chrome itself failed
    or one of the two timeouts after it, the run shows the fault,
    which begins with "Browser failed to start: ", and does nothing
    more with the browser: it is not quit, since the name [driver]
    was never bound, and the table keeps its blank columns. *)
Theorem failed_start_is_reported {D W : Type} (pandas : Pandas)
    (browser : Browser D W) (cells : list (option str)) (headless_mode : bool)
    (delay : Z) (d : D) (e : str) (d1 : D) :
  fst (validate cells) <> [] ->
  setup_browser browser headless_mode d = (Raised e, d1) ->
  start_fetching pandas browser cells headless_mode delay (d, initial_run)
  = (Ok tt, (d1, add_message (processing_error e) (run_at_start cells))) /\
  exists e0, e = py "Browser failed to start: " ++ e0.
Proof.
  intros Hne Hs. split; [|eapply setup_fault; eauto].
  destruct (run_cases pandas browser cells headless_mode delay d)
    as [[Hv _]|(c & valid & Hv & H)]; [congruence|].
  destruct H as [(e' & d1' & Hs' & Hrun)
                |[(d1' & d2 & d3 & r3 & s0 & f0 & Hs' & _)
                 |[(d1' & d2 & d3 & r3 & e' & m & Hs' & _)
                  |[(d1' & d2 & e' & d3 & Hs' & _)
                   |[(d1' & d2 & d3 & c' & d4 & e' & Hs' & _)
                    |(d1' & d2 & d3 & c' & d4 & name & v & Hs' & _)]]]]];
    rewrite Hs in Hs'; try discriminate Hs'.
  injection Hs' as <- <-. exact Hrun.
Qed.

Lemma failed_start_on_example_page :
  fst (validate Cases.column) <> [] /\
  setup_browser (Cases.browser false true) true jane_page
  = (Raised (py "Browser failed to start: Message: no chrome"), jane_page) /\
  start_fetching Cases.pandas_2 (Cases.browser false true) Cases.column true 2
    (jane_page, initial_run)
  = (Ok tt,
     (jane_page,
      add_message
        (processing_error (py "Browser failed to start: Message: no chrome"))
        (run_at_start Cases.column))).
Proof.
  assert (Hne : fst (validate Cases.column) <> []) by discriminate.
  split; [exact Hne|]. split; [reflexivity|].
  exact (proj1 (failed_start_is_reported Cases.pandas_2
                  (Cases.browser false true) Cases.column true 2 jane_page _
                  jane_page Hne eq_refl)).
Defined.

Import MonadFacts TableFacts.
Import Page Examples.

Section CaseRunFacts.

Context {D W : Type} (driver : WebDriver D W).

(** [process_case], call by call. *)
Lemma process_case_run parsed d :
  process_case driver parsed d =
  let '(t0, d1) := time_time driver d in
  let '(t1, d2) := time_time driver d1 in
  if Qgtb (t1 - t0) MAX_CASE_TIME
  then
    let '(_, d3) := time_time driver d2 in
    (Ok (StatusOnly
           (py "Error: "
            ++ timeout_exception driver (py "Case processing timeout"))),
     d3)
  else
    match fill_search_form driver (year parsed) (case_type parsed)
            (sequence parsed) d2 with
    | (Ok true, d3) =>
        match extract_attorney_data driver d3 with
        | (Ok a, d4) => let '(_, d5) := time_time driver d4 in (Ok (Full a), d5)
        | (Raised e, d4) =>
            let '(_, d5) := time_time driver d4 in
            (Ok (StatusOnly (py "Error: " ++ e)), d5)
        end
    | (Ok false, d3) => (Ok (StatusOnly (py "Search Form Failed")), d3)
    | (Raised e, d3) =>
        let '(_, d4) := time_time driver d3 in
        (Ok (StatusOnly (py "Error: " ++ e)), d4)
    end.
Proof.
  unfold process_case, bind, try_except, now, raise, ret.
  destruct (time_time driver d) as [t0 d1].
  destruct (time_time driver d1) as [t1 d2].
  destruct (Qgtb (t1 - t0) MAX_CASE_TIME).
  - destruct (time_time driver d2) as [t d3]. reflexivity.
  - destruct (fill_search_form driver _ _ _ d2) as [[[]|e] d3].
    + destruct (extract_attorney_data driver d3) as [[a|e] d4].
      * destruct (time_time driver d4) as [t d5]. reflexivity.
      * destruct (time_time driver d4) as [t d5]. reflexivity.
    + reflexivity.
    + destruct (time_time driver d3) as [t d4]. reflexivity.
Qed.

Lemma blank_but_status v col :
  In col attorney_columns -> col <> py "extraction_status" ->
  dict_get col (dict (StatusOnly v)) = Text [].
Proof.
  intros _ Hne. unfold dict_get, dict. cbn [dict_lookup].
  rewrite bool_decide_eq_false_2 by congruence. reflexivity.
Qed.

End CaseRunFacts.

(** X18. A case never raises and leaves one of eight statuses; the
    dictionary of lines 693-709, with the status "Failed - No Data",
    is never used; and when the search form failed or the case ran
    out of time, every attorney column but the status is written
    empty, the number of defendants too. *)
Theorem case_leaves_a_status {D W : Type} (driver : WebDriver D W)
    (parsed_case : CaseNumber) (d : D) :
  exists c d' v,
    process_case driver parsed_case d = (Ok c, d') /\
    ensure_attorney_data c = c /\
    dict_get (py "extraction_status") (dict c) = Text v /\
    row_status driver v /\
    (v = py "Search Form Failed" \/
     v = py "Error: " ++ timeout_exception driver (py "Case processing timeout") ->
     forall col, In col attorney_columns -> col <> py "extraction_status" ->
                 dict_get col (dict c) = Text []).
Proof.
  rewrite process_case_run.
  destruct (time_time driver d) as [t0 d1].
  destruct (time_time driver d1) as [t1 d2].
  destruct (Qgtb (t1 - t0) MAX_CASE_TIME).
  - destruct (time_time driver d2) as [t d3]. eexists _, _, _.
    split; [reflexivity|]. split; [reflexivity|]. split; [reflexivity|].
    split; [right; right; reflexivity|]. intros _. apply blank_but_status.
  - destruct (fill_search_form_total driver (year parsed_case)
                (case_type parsed_case) (sequence parsed_case) d2)
      as (filled & d3 & ->).
    destruct filled.
    + destruct (extraction_status_set driver d3) as (a & d4 & E & Hs).
      rewrite E. destruct (time_time driver d4) as [t d5].
      exists (Full a), d5, (extraction_status a).
      split; [reflexivity|]. split; [reflexivity|]. split; [reflexivity|].
      split; [left; exact Hs|].
      intros [Hv|Hv]; rewrite Hv in Hs; exfalso;
        unfold extraction_statuses in Hs; simpl in Hs;
        intuition discriminate.
    + eexists _, _, _.
      split; [reflexivity|]. split; [reflexivity|]. split; [reflexivity|].
      split; [right; left; reflexivity|]. intros _. apply blank_but_status.
Qed.

(** X19. The budget of 45 seconds of a case is looked at once, between
    the first two readings of the clock, before anything is done: the
    case ends on the fault "Case processing timeout" exactly when the
    second reading is more than 45 seconds after the first, and
    otherwise, however long the form and the extraction take, it ends
    with the failure of the form or with the dictionary of the
    extraction. *)
Theorem case_budget_is_checked_at_the_start {D W : Type}
    (driver : WebDriver D W) (parsed_case : CaseNumber)
    (d : D) (t0 : Q) (d1 : D) (t1 : Q) (d2 : D) (c : CaseData) (d' : D) :
  time_time driver d = (t0, d1) ->
  time_time driver d1 = (t1, d2) ->
  process_case driver parsed_case d = (Ok c, d') ->
  (Qgtb (t1 - t0) MAX_CASE_TIME = true ->
   c = StatusOnly
         (py "Error: "
          ++ timeout_exception driver (py "Case processing timeout"))) /\
  (Qgtb (t1 - t0) MAX_CASE_TIME = false ->
   (c = StatusOnly (py "Search Form Failed") /\
    fill_search_form driver (year parsed_case) (case_type parsed_case)
      (sequence parsed_case) d2 = (Ok false, d')) \/
   (exists a d3 d4,
       fill_search_form driver (year parsed_case) (case_type parsed_case)
         (sequence parsed_case) d2 = (Ok true, d3) /\
       extract_attorney_data driver d3 = (Ok a, d4) /\ c = Full a)).
Proof.
  intros H0 H1. rewrite process_case_run, H0, H1.
  destruct (Qgtb (t1 - t0) MAX_CASE_TIME).
  - destruct (time_time driver d2) as [t d3]. intros H. injection H as <- _.
    split; [reflexivity|discriminate].
  - destruct (fill_search_form_total driver (year parsed_case)
                (case_type parsed_case) (sequence parsed_case) d2)
      as (filled & d3 & Hf).
    rewrite Hf. destruct filled.
    + destruct (extraction_total driver d3) as (a & d4 & E). rewrite E.
      destruct (time_time driver d4) as [t d5]. intros H. injection H as <- _.
      split; [discriminate|]. intros _. right. exists a, d3, d4. auto.
    + intros H. injection H as <- <-. split; [discriminate|].
      intros _. left. auto.
Qed.

Lemma case_budget_on_example_page :
  process_case Page.driver Cases.case_5681 jane_page
  = (Ok (Full jane_data), jane_page) /\
  ((Full jane_data = StatusOnly (py "Search Form Failed") /\
    fill_search_form Page.driver (year Cases.case_5681)
      (case_type Cases.case_5681) (sequence Cases.case_5681) jane_page
    = (Ok false, jane_page)) \/
   (exists a d3 d4,
       fill_search_form Page.driver (year Cases.case_5681)
         (case_type Cases.case_5681) (sequence Cases.case_5681) jane_page
       = (Ok true, d3) /\
       extract_attorney_data Page.driver d3 = (Ok a, d4) /\
       Full jane_data = Full a)).
Proof.
  assert (H : process_case Page.driver Cases.case_5681 jane_page
              = (Ok (Full jane_data), jane_page)) by reflexivity.
  split; [exact H|].
  exact (proj2 (case_budget_is_checked_at_the_start Page.driver
                  Cases.case_5681 jane_page 0%Q jane_page 0%Q jane_page
                  (Full jane_data) jane_page eq_refl eq_refl H) eq_refl).
Defined.

Section DetailFacts.

Context {D W : Type} (driver : WebDriver D W).

Lemma bind_run {S A B : Type} (m : M S A) (f : A -> M S B) (s : S) :
  bind m f s
  = match m s with
    | (Ok a, s') => f a s'
    | (Raised e, s') => (Raised e, s')
    end.
Proof. reflexivity. Qed.

(** Reading rows one list after the other. *)
Lemma read_rows_app rows1 : forall rows2 acc d,
  read_detail_rows driver (rows1 ++ rows2) acc d
  = match read_detail_rows driver rows1 acc d with
    | (Ok r, d1) => read_detail_rows driver rows2 r d1
    | (Raised e, d1) => (Raised e, d1)
    end.
Proof.
  induction rows1 as [|row rows1 IH]; intros rows2 acc d; [reflexivity|].
  cbn [app read_detail_rows]. rewrite !bind_run.
  destruct (el_find_elements driver row TAG_NAME _ d) as [[cells|e] d1];
    [|reflexivity].
  destruct cells as [|c0 [|c1 cells]]; try apply IH.
  rewrite !bind_run.
  destruct (el_text driver c0 d1) as [[t0|e] d2]; [|reflexivity].
  rewrite !bind_run.
  destruct (el_text driver c1 d2) as [[t1|e] d3]; [|reflexivity].
  destruct (Str.replace_char _ _ _); apply IH.
Qed.

End DetailFacts.

(** X20. In the detail of a docket row the last row with a label wins:
    after any rows, a row whose first cell gives the label [label],
    not empty, leaves its second cell, stripped, under the key
    [service_] and the label, whatever stood there; so a row labelled
    "Delivery Method" replaces the category the search was made
    for. *)
Theorem last_detail_row_wins {D W : Type} (driver : WebDriver D W)
    (rows : list W) (row : W) (acc r1 : ServiceRecord)
    (d d1 d2 d3 d4 : D) (c0 c1 : W) (more : list W) (t0 t1 : str) :
  read_detail_rows driver rows acc d = (Ok r1, d1) ->
  el_find_elements driver row TAG_NAME (py "td") d1
  = (Ok (c0 :: c1 :: more), d2) ->
  el_text driver c0 d2 = (Ok t0, d3) ->
  el_text driver c1 d3 = (Ok t1, d4) ->
  detail_label t0 <> [] ->
  read_detail_rows driver (rows ++ [row]) acc d
  = (Ok (<[ py "service_" ++ detail_label t0 := Str.strip t1 ]> r1), d4) /\
  (<[ py "service_" ++ detail_label t0 := Str.strip t1 ]> r1)
    !! (py "service_" ++ detail_label t0) = Some (Str.strip t1).
Proof.
  intros Hrows Hcells Ht0 Ht1 Hlabel. split; [|apply lookup_insert_eq].
  rewrite read_rows_app, Hrows. cbn [read_detail_rows].
  unfold bind at 1. change ("td"%string : str) with (py "td").
  rewrite Hcells. unfold bind at 1. rewrite Ht0. unfold bind at 1.
  rewrite Ht1. unfold detail_label in *.
  destruct (Str.replace_char _ _ _) as [|x l]; [congruence|]. reflexivity.
Qed.

Lemma last_detail_row_on_example :
  read_detail_rows Page.driver
    ([] ++ [TableRow [py "Delivery Method:"; py " by hand "]])
    {[ py "service_delivery_method" := py "CERTIFIED MAIL" ]} jane_page
  = (Ok (<[ py "service_delivery_method" := py "by hand" ]>
           {[ py "service_delivery_method" := py "CERTIFIED MAIL" ]}),
     jane_page).
Proof.
  exact (proj1 (last_detail_row_wins Page.driver []
                  (TableRow [py "Delivery Method:"; py " by hand "])
                  {[ py "service_delivery_method" := py "CERTIFIED MAIL" ]}
                  {[ py "service_delivery_method" := py "CERTIFIED MAIL" ]}
                  jane_page jane_page jane_page jane_page jane_page
                  (Cell (py "Delivery Method:")) (Cell (py " by hand ")) []
                  (py "Delivery Method:") (py " by hand ")
                  eq_refl eq_refl eq_refl eq_refl ltac:(discriminate))).
Defined.

Import MonadFacts ProjectorFacts.
Import Page Examples.

Section StatusFacts.

Context {D W : Type} (driver : WebDriver D W).

(** The two ways to the status "No Defendants Found". *)
Lemma no_defendants_cases d a d' :
  extract_attorney_data driver d = (Ok a, d') ->
  extraction_status a = py "No Defendants Found" ->
  a = set_extraction_status "No Defendants Found"%string
        initial_attorney_data \/
  (exists defendants d2 d3,
      extract_all_defendants_fast driver d2 = (Ok defendants, d3) /\
      defendants <> [] /\
      find_main_defendant defendants = no_defendants_found /\
      a = set_extraction_status "No Defendants Found"%string
            (fresh defendants no_defendants_found)).
Proof.
  rewrite extract_attorney_data_run.
  destruct (time_time driver d) as [t0 d1].
  destruct (time_time driver d1) as [t1 d2].
  destruct (Qgtb (t1 - t0) TIMEOUT_SECONDS).
  { intros H. injection H as <- _. discriminate. }
  destruct (defendants_total driver d2) as (defendants & d3 & E2).
  rewrite E2.
  destruct (time_time driver d3) as [t2 d4].
  destruct (Qgtb (t2 - t0) TIMEOUT_SECONDS).
  { intros H. injection H as <- _. discriminate. }
  destruct defendants as [|name names].
  { intros H. injection H as <- _. left. reflexivity. }
  set (defendants := name :: names) in *.
  assert (Hne : defendants <> []) by discriminate.
  clearbody defendants. cbv zeta.
  destruct (bool_decide (find_main_defendant defendants = no_defendants_found))
    eqn:Em.
  { apply bool_decide_eq_true in Em.
    intros H. injection H as <- _. intros _. right.
    exists defendants, d2, d3. rewrite Em. auto. }
  destruct (time_time driver d4) as [t3 d5].
  destruct (Qgtb (t3 - t0) TIMEOUT_SECONDS).
  { intros H. injection H as <- _. discriminate. }
  destruct (resolver_total driver (find_main_defendant defendants) d5)
    as (r & d6 & E5).
  rewrite E5. destruct (time_time driver d6) as [t d7].
  destruct (usable r); intros H; injection H as <- _; discriminate.
Qed.

End StatusFacts.

Module PhoneFacts.

Lemma digits_counted n (u : str) :
  digits n u -> length (List.filter Str.isdecimal u) = n /\ length u = n.
Proof.
  intros [Hl Hd]. split; [|exact Hl]. rewrite <- Hl.
  clear Hl. induction Hd as [|x u Hx _ IH]; [reflexivity|].
  cbn [List.filter]. rewrite Hx. cbn [length]. rewrite IH. reflexivity.
Qed.

Lemma space_is_no_digit x : Str.isspace x = true -> Str.isdecimal x = false.
Proof.
  destruct x as [[] [] [] [] [] [] [] []]; intros H;
    try discriminate H; reflexivity.
Qed.

Lemma separator_counted (u : str) :
  separator u -> length (List.filter Str.isdecimal u) = 0 /\ length u <= 1.
Proof.
  intros [->|(x & -> & [->|[->|Hx]])]; cbn [List.filter length];
    try (split; [reflexivity|lia]).
  rewrite (space_is_no_digit x Hx). split; [reflexivity|cbn; lia].
Qed.

(** A telephone number holds ten digits and fourteen characters at
    most. *)
Lemma phone_counted (u : str) :
  phone_shape u ->
  length (List.filter Str.isdecimal u) = 10 /\ length u <= 14.
Proof.
  intros (o & a & c & s1 & b & s2 & e & -> & Ho & Ha & Hc & Hs1 & Hb & Hs2 & He).
  apply digits_counted in Ha, Hb, He.
  apply separator_counted in Hs1, Hs2.
  rewrite !List.filter_app, !length_app.
  assert (length (List.filter Str.isdecimal o) = 0 /\ length o <= 1)
    as [Ho1 Ho2]
    by (destruct Ho as [->| ->]; (split; [reflexivity|simpl; lia])).
  assert (length (List.filter Str.isdecimal c) = 0 /\ length c <= 1)
    as [Hc1 Hc2]
    by (destruct Hc as [->| ->]; (split; [reflexivity|simpl; lia])).
  lia.
Qed.

Lemma projection_phone main found (a : AttorneyData) :
  attorney_phone a = [] ->
  attorney_phone (project_service main found a) = [] \/
  phone_shape (attorney_phone (project_service main found a)).
Proof.
  intros Ha. unfold project_service. cbn [attorney_phone].
  destruct (negb _); [|left; exact Ha].
  pose proof (search_phone (get found "service_attorney_address"%string)) as H.
  destruct (Re.search phone_pattern _) as [m|]; [|left; exact Ha].
  right. destruct H as (pre & post & _ & Hp & _). exact Hp.
Qed.

End PhoneFacts.

(** X21. The status "No Defendants Found" comes about in two ways:
    no name was kept, and the defendant columns are empty and zero;
    or a defendant bears the very name "No defendants found" and was
    chosen as the main one, and then the defendant columns are
    filled. *)
Theorem no_defendants_found_twice {D W : Type} (driver : WebDriver D W)
    (d : D) (a : AttorneyData) (d' : D) :
  extract_attorney_data driver d = (Ok a, d') ->
  extraction_status a = py "No Defendants Found" ->
  (main_defendant a = [] /\ all_defendants a = [] /\ defendant_count a = 0) \/
  (main_defendant a = no_defendants_found /\
   exists defendants,
     In no_defendants_found defendants /\
     all_defendants a = Str.join "; "%string defendants /\
     defendant_count a = length defendants /\ 0 < defendant_count a).
Proof.
  intros Ha Hs.
  destruct (no_defendants_cases driver d a d' Ha Hs)
    as [->|(defendants & d2 & d3 & _ & Hne & Hm & ->)].
  - left. repeat split.
  - right. split; [reflexivity|]. exists defendants.
    split; [rewrite <- Hm; apply main_defendant_in; exact Hne|].
    split; [reflexivity|]. split; [reflexivity|].
    cbn [defendant_count set_extraction_status fresh set_defendants].
    destruct defendants; [congruence|simpl; lia].
Qed.

Lemma no_defendants_found_on_example_page :
  extract_attorney_data Page.driver Cases.sentinel_page
  = (Ok Cases.sentinel_data, Cases.sentinel_page) /\
  ((main_defendant Cases.sentinel_data = [] /\
    all_defendants Cases.sentinel_data = [] /\
    defendant_count Cases.sentinel_data = 0) \/
   (main_defendant Cases.sentinel_data = no_defendants_found /\
    exists defendants,
      In no_defendants_found defendants /\
      all_defendants Cases.sentinel_data = Str.join "; "%string defendants /\
      defendant_count Cases.sentinel_data = length defendants /\
      0 < defendant_count Cases.sentinel_data)).
Proof.
  assert (H : extract_attorney_data Page.driver Cases.sentinel_page
              = (Ok Cases.sentinel_data, Cases.sentinel_page)) by reflexivity.
  split; [exact H|].
  exact (no_defendants_found_twice Page.driver Cases.sentinel_page
           Cases.sentinel_data Cases.sentinel_page H eq_refl).
Defined.

(** X22. The attorney's phone, when there is one, holds ten decimal
    digits exactly, and fourteen characters at most. *)
Theorem phone_has_ten_digits {D W : Type} (driver : WebDriver D W)
    (d : D) (a : AttorneyData) (d' : D) :
  extract_attorney_data driver d = (Ok a, d') ->
  attorney_phone a = [] \/
  (length (List.filter Str.isdecimal (attorney_phone a)) = 10 /\
   length (attorney_phone a) <= 14).
Proof.
  intros Ha. apply extraction_shape in Ha.
  destruct Ha as [(v & Hv & ->)|(defendants & d2 & d3 & _ & _ & [(v & Hv & ->)|H])].
  - left. reflexivity.
  - left. reflexivity.
  - destruct H as (found & d5 & d6 & _ & ->).
    destruct (PhoneFacts.projection_phone (find_main_defendant defendants) found
                (fresh defendants (find_main_defendant defendants)) eq_refl)
      as [H|H]; [left; exact H|right].
    apply PhoneFacts.phone_counted. exact H.
Qed.

Lemma phone_on_example_page :
  extract_attorney_data Page.driver jane_page = (Ok jane_data, jane_page) /\
  (attorney_phone jane_data = [] \/
   (length (List.filter Str.isdecimal (attorney_phone jane_data)) = 10 /\
    length (attorney_phone jane_data) <= 14)).
Proof.
  assert (H : extract_attorney_data Page.driver jane_page
              = (Ok jane_data, jane_page)) by reflexivity.
  split; [exact H|].
  exact (phone_has_ten_digits Page.driver jane_page jane_data jane_page H).
Defined.

(** X23. Without the status "Found" a dictionary carries no attorney
    and no service: the attorney's name, firm, address and phone, the
    service type, the served name and the label of the match are all
    empty, under each of the other five statuses. *)
Theorem no_data_without_found {D W : Type} (driver : WebDriver D W)
    (d : D) (a : AttorneyData) (d' : D) :
  extract_attorney_data driver d = (Ok a, d') ->
  extraction_status a <> py "Found" ->
  attorney_name a = [] /\ attorney_firm a = [] /\ attorney_address a = [] /\
  attorney_phone a = [] /\ service_type a = [] /\ defendant_name a = [] /\
  service_match a = [].
Proof.
  intros Ha Hs. apply extraction_shape in Ha.
  destruct Ha as [(v & Hv & ->)|(defendants & d2 & d3 & _ & _ & [(v & Hv & ->)|H])].
  - repeat split.
  - repeat split.
  - destruct H as (found & d5 & d6 & _ & ->). exfalso. apply Hs. reflexivity.
Qed.

Lemma no_data_on_example_page :
  extract_attorney_data Page.driver empty_page
  = (Ok (set_extraction_status "No Service Records Found"%string
           (fresh (map py defendants) (py "Jane Smith"))), empty_page) /\
  attorney_name
    (set_extraction_status "No Service Records Found"%string
       (fresh (map py defendants) (py "Jane Smith"))) = [].
Proof.
  assert (H : extract_attorney_data Page.driver empty_page
              = (Ok (set_extraction_status "No Service Records Found"%string
                       (fresh (map py defendants) (py "Jane Smith"))),
                 empty_page)) by reflexivity.
  split; [exact H|].
  exact (proj1 (no_data_without_found Page.driver empty_page _ empty_page H
                  ltac:(discriminate))).
Defined.
